(** * DETR prediction head: a shallow embedding of [models/detr_head.py]

    The Python module builds four Paddle layers: [MLP],
    [MultiHeadAttentionMap], [MaskHeadFPNConv] and [DETRHead].  Tensors are
    embedded as a shape together with the row-major list of their elements;
    [float32] values are idealised as real numbers, so rounding, infinities
    and NaN are outside the model.  Every Paddle call that can raise (a shape
    mismatch, an index out of range, a division by zero) returns [None].

    The module imports [paddle.nn] as [nn] and [paddle.nn.functional] as [F]
    and also writes [paddle.ParamAttr], [paddle.bmm], [paddle.concat],
    [paddle.stack], [paddle.zeros] and [paddle.to_tensor] without an
    [import paddle] of its own.  The embedding reads the name [paddle] as the
    Paddle package, which is what those calls are written for; the lookup of
    the name itself is not modelled. *)

From Stdlib Require Import Reals Lra Lia ZArith.
From stdpp Require Import base list gmap strings.

#[global] Instance R_inhabited : Inhabited R := populate 0%R.

(** ** Tensors *)

Record tensor (A : Type) : Type := Tensor { shape : list nat; data : list A }.
Arguments Tensor {A} _ _.
Arguments shape {A} _.
Arguments data {A} _.

(** Number of elements of a shape. *)
Definition numel (s : list nat) : nat := foldr Nat.mul 1 s.

(** A tensor is well formed when its buffer has one element per index. *)
Definition wf {A} (t : tensor A) : Prop := length (data t) = numel (shape t).

(** Row-major offset of a multi-index, and its inverse. *)
Fixpoint ravel (s idx : list nat) : nat :=
  match s, idx with
  | _ :: s', i :: idx' => i * numel s' + ravel s' idx'
  | _, _ => 0
  end.

Fixpoint unravel (s : list nat) (k : nat) : list nat :=
  match s with
  | [] => []
  | _ :: s' => k / numel s' :: unravel s' (k mod numel s')
  end.

Definition tget {A} `{Inhabited A} (t : tensor A) (idx : list nat) : A :=
  data t !!! ravel (shape t) idx.

Definition tinit {A} (s : list nat) (f : list nat -> A) : tensor A :=
  Tensor s (map (fun k => f (unravel s k)) (seq 0 (numel s))).

(** [chunk r n l] is the [r]-th block of [n] consecutive elements of [l]. *)
Definition chunk {A} (r n : nat) (l : list A) : list A := take n (drop (r * n) l).

(** Splits a shape into its leading dimensions and its last one. *)
Fixpoint split_last (s : list nat) : option (list nat * nat) :=
  match s with
  | [] => None
  | d :: s' =>
      match s' with
      | [] => Some ([], d)
      | _ :: _ => match split_last s' with
                  | Some (p, e) => Some (d :: p, e)
                  | None => None
                  end
      end
  end.

Definition tmap {A B} (f : A -> B) (t : tensor A) : tensor B :=
  Tensor (shape t) (map f (data t)).

Definition sum_R (l : list R) : R := foldr Rplus 0%R l.

(** ** Element-wise activations *)

(** [F.relu] *)
Definition relu (t : tensor R) : tensor R := tmap (Rmax 0) t.

(** [F.sigmoid] *)
Definition sigmoid_R (v : R) : R := (1 / (1 + exp (- v)))%R.
Definition sigmoid (t : tensor R) : tensor R := tmap sigmoid_R t.

(** ** [nn.Linear] *)

Record Linear : Type := {
  in_features : nat;
  out_features : nat;
  weight : nat -> nat -> R;        (* weight[i][j], shape [in, out] *)
  bias : option (nat -> R)         (* [None] when bias_attr=False *)
}.

Definition bias_at (b : option (nat -> R)) (j : nat) : R :=
  match b with Some f => f j | None => 0%R end.

Definition linear_row (l : Linear) (xs : list R) : list R :=
  map (fun j =>
         (sum_R (map (fun i => xs !!! i * weight l i j) (seq 0 (in_features l)))
          + bias_at (bias l) j)%R)
      (seq 0 (out_features l)).

(** [y = x W + b] on the last axis; raises when the last axis is not
    [in_features]. *)
Definition Linear_forward (l : Linear) (x : tensor R) : option (tensor R) :=
  match split_last (shape x) with
  | Some (pre, d) =>
      if Nat.eqb d (in_features l) then
        Some (Tensor (pre ++ [out_features l])
                (concat (map (fun r => linear_row l (chunk r d (data x)))
                           (seq 0 (numel pre)))))
      else None
  | None => None
  end.

(** ** [MLP] (lines 7-24) *)

Record MLP : Type := { num_layers : Z; layers : list Linear }.

(** [zip([input_dim] + h, h + [output_dim])] with [h = [hidden_dim] * (num_layers - 1)];
    a non-positive repeat count gives the empty list, as in Python. *)
Definition MLP_dims (input_dim hidden_dim output_dim : nat) (n : Z)
  : list (nat * nat) :=
  let h := replicate (Z.to_nat (n - 1)) hidden_dim in
  zip ([input_dim] ++ h) (h ++ [output_dim]).

(** The parameters left by [linear_init_] are an input of the model:
    [params i] gives the weight and bias of the [i]-th layer. *)
Definition MLP_init (input_dim hidden_dim output_dim : nat) (n : Z)
    (params : nat -> (nat -> nat -> R) * (nat -> R)) : MLP :=
  {| num_layers := n;
     layers := imap (fun i nk =>
                       {| in_features := fst nk; out_features := snd nk;
                          weight := fst (params i);
                          bias := Some (snd (params i)) |})
                    (MLP_dims input_dim hidden_dim output_dim n) |}.

(** The loop of [forward]: [i] is the index given by [enumerate]. *)
Fixpoint MLP_loop (n : Z) (i : nat) (ls : list Linear) (x : tensor R)
  : option (tensor R) :=
  match ls with
  | [] => Some x
  | l :: ls' =>
      match Linear_forward l x with
      | Some y => MLP_loop n (S i) ls' (if (Z.of_nat i <? n - 1)%Z then relu y else y)
      | None => None
      end
  end.

Definition MLP_forward (m : MLP) (x : tensor R) : option (tensor R) :=
  MLP_loop (num_layers m) 0 (layers m) x.

(** The successive values taken by the variable [x] in the loop of
    [forward], one per layer. *)
Fixpoint MLP_trace_loop (n : Z) (i : nat) (ls : list Linear) (x : tensor R)
  : option (list (tensor R)) :=
  match ls with
  | [] => Some []
  | l :: ls' =>
      match Linear_forward l x with
      | Some y =>
          let x' := if (Z.of_nat i <? n - 1)%Z then relu y else y in
          match MLP_trace_loop n (S i) ls' x' with
          | Some tr => Some (x' :: tr)
          | None => None
          end
      | None => None
      end
  end.

Definition MLP_trace (m : MLP) (x : tensor R) : option (list (tensor R)) :=
  MLP_trace_loop (num_layers m) 0 (layers m) x.

(** ** Shape manipulation *)

(** One entry of the target of [paddle.reshape]: [-1] is inferred
    ([Some None]), [0] copies the dimension of the input at the same
    position, a positive entry is taken as it is, anything else raises. *)
Definition resolve_dim (xs : list nat) (i : nat) (d : Z) : option (option nat) :=
  if (d =? -1)%Z then Some None
  else if (d =? 0)%Z then Some <$> (xs !! i)
  else if (0 <? d)%Z then Some (Some (Z.to_nat d))
  else None.

Definition known_dims (rs : list (option nat)) : list nat := omap (fun o => o) rs.

Definition reshape_shape (xs : list nat) (tgt : list Z) : option (list nat) :=
  match mapM (fun o => o) (imap (resolve_dim xs) tgt) with
  | Some rs =>
      let known := numel (known_dims rs) in
      match length rs - length (known_dims rs) with
      | 0 => if Nat.eqb (numel xs) known then Some (known_dims rs) else None
      | 1 => if Nat.eqb known 0 then None
             else if Nat.eqb (numel xs mod known) 0
                  then Some (map (default (numel xs / known)) rs)
                  else None
      | _ => None
      end
  | None => None
  end.

(** [x.reshape(tgt)]: the buffer is kept, only the shape changes. *)
Definition reshape {A} (t : tensor A) (tgt : list Z) : option (tensor A) :=
  match reshape_shape (shape t) tgt with
  | Some s => Some (Tensor s (data t))
  | None => None
  end.

Definition dimsZ (s : list nat) : list Z := map Z.of_nat s.

(** A Python index into a sequence of length [n]: negative indices count
    from the end. *)
Definition norm_index (n : nat) (i : Z) : option nat :=
  if (0 <=? i)%Z && (i <? Z.of_nat n)%Z then Some (Z.to_nat i)
  else if (i <? 0)%Z && (0 <=? i + Z.of_nat n)%Z then Some (Z.to_nat (i + Z.of_nat n))
  else None.

(** [l[i]] on a Python list. *)
Definition py_index {A} (l : list A) (i : Z) : option A :=
  match norm_index (length l) i with
  | Some k => l !! k
  | None => None
  end.

(** [x.flatten(start, stop)] *)
Definition flatten {A} (t : tensor A) (start stop : Z) : option (tensor A) :=
  match norm_index (length (shape t)) start, norm_index (length (shape t)) stop with
  | Some a, Some b =>
      if a <=? b then
        Some (Tensor (take a (shape t)
                      ++ [numel (take (S b - a) (drop a (shape t)))]
                      ++ drop (S b) (shape t))
                (data t))
      else None
  | _, _ => None
  end.

Definition is_perm (n : nat) (perm : list nat) : bool :=
  Nat.eqb (length perm) n
  && forallb (fun j => bool_decide (j ∈ perm)) (seq 0 n).

(** Position of axis [j] in [perm]. *)
Definition perm_pos (perm : list nat) (j : nat) : nat :=
  match list_find (fun p => p = j) perm with
  | Some (i, _) => i
  | None => 0
  end.

(** [x.transpose(perm)]: axis [i] of the result is axis [perm[i]] of [x]. *)
Definition transpose {A} `{Inhabited A} (t : tensor A) (perm : list nat)
  : option (tensor A) :=
  if is_perm (length (shape t)) perm then
    Some (tinit (map (fun p => shape t !!! p) perm)
            (fun idx => tget t (map (fun j => idx !!! perm_pos perm j)
                                  (seq 0 (length (shape t))))))
  else None.

Definition pad_left {A} (a : A) (n : nat) (l : list A) : list A :=
  replicate (n - length l) a ++ l.

(** [x.tile(repeat_times)]: the shorter of the shape and [repeat_times] is
    padded with ones on the left, and the result repeats [x] along every
    axis. *)
Definition tile {A} `{Inhabited A} (t : tensor A) (reps : list nat) : tensor A :=
  let r := Nat.max (length (shape t)) (length reps) in
  let s := pad_left 1 r (shape t) in
  let rp := pad_left 1 r reps in
  tinit (zip_with Nat.mul s rp)
    (fun idx => data t !!! ravel s (zip_with Nat.modulo idx s)).

Definition shapes_agree_except (axis : nat) (s1 s2 : list nat) : bool :=
  Nat.eqb (length s1) (length s2)
  && bool_decide (take axis s1 = take axis s2)
  && bool_decide (drop (S axis) s1 = drop (S axis) s2).

(** [paddle.concat([a, b], axis)] *)
Definition concat2 {A} `{Inhabited A} (a b : tensor A) (axis : nat)
  : option (tensor A) :=
  match shape a !! axis, shape b !! axis with
  | Some da, Some db =>
      if shapes_agree_except axis (shape a) (shape b) then
        Some (tinit (<[axis := da + db]> (shape a))
                (fun idx =>
                   let i := idx !!! axis in
                   if i <? da then tget a idx
                   else tget b (<[axis := i - da]> idx)))
      else None
  | _, _ => None
  end.

(** [x[-1]] on a tensor: the last slice along the first axis. *)
Definition index_last {A} (t : tensor A) : option (tensor A) :=
  match shape t with
  | S n :: rest => Some (Tensor rest (chunk n (numel rest) (data t)))
  | _ => None
  end.

(** Iterating over a tensor yields its slices along the first axis. *)
Definition unstack {A} (t : tensor A) : list (tensor A) :=
  match shape t with
  | n :: rest => map (fun i => Tensor rest (chunk i (numel rest) (data t))) (seq 0 n)
  | [] => []
  end.

(** [paddle.stack(ts)]: raises on an empty list and on differing shapes. *)
Definition stack {A} (ts : list (tensor A)) : option (tensor A) :=
  match ts with
  | [] => None
  | t :: _ =>
      if forallb (fun u => bool_decide (shape u = shape t)) ts then
        Some (Tensor (length ts :: shape t) (concat (map data ts)))
      else None
  end.

(** [paddle.zeros(s)] *)
Definition zeros (s : list nat) : tensor R := Tensor s (replicate (numel s) 0%R).

(** ** Broadcasting arithmetic *)

Definition broadcast_dim (d1 d2 : nat) : option nat :=
  if Nat.eqb d1 d2 then Some d1
  else if Nat.eqb d1 1 then Some d2
  else if Nat.eqb d2 1 then Some d1
  else None.

Fixpoint broadcast_rev (r1 r2 : list nat) : option (list nat) :=
  match r1, r2 with
  | [], r => Some r
  | r, [] => Some r
  | d1 :: r1', d2 :: r2' =>
      match broadcast_dim d1 d2, broadcast_rev r1' r2' with
      | Some d, Some r => Some (d :: r)
      | _, _ => None
      end
  end.

Definition broadcast_shape (s1 s2 : list nat) : option (list nat) :=
  reverse <$> broadcast_rev (reverse s1) (reverse s2).

(** Reads [t] at an index of the broadcast result: leading axes that [t]
    lacks are dropped and axes of extent one are read at zero. *)
Definition bget {A} `{Inhabited A} (t : tensor A) (idx : list nat) : A :=
  tget t (zip_with (fun d i => if Nat.eqb d 1 then 0 else i) (shape t)
            (drop (length idx - length (shape t)) idx)).

(** [a + b]; [a += b] on a tensor is [a = a + b], so the name is rebound
    to the broadcast result, whose shape can differ from that of [a]. *)
Definition add (a b : tensor R) : option (tensor R) :=
  match broadcast_shape (shape a) (shape b) with
  | Some s => Some (tinit s (fun idx => (bget a idx + bget b idx)%R))
  | None => None
  end.

(** [x * f] for a Python float [f] *)
Definition scale (t : tensor R) (f : R) : tensor R := tmap (fun v => (v * f)%R) t.

(** [paddle.bmm(x, y)] for [x : [b, m, k]] and [y : [b, k, n]] *)
Definition bmm (x y : tensor R) : option (tensor R) :=
  match shape x, shape y with
  | [b; m; k], [b'; k'; n] =>
      if Nat.eqb b b' && Nat.eqb k k' then
        Some (tinit [b; m; n]
                (fun idx =>
                   let i := idx !!! 0 in
                   let r := idx !!! 1 in
                   let c := idx !!! 2 in
                   sum_R (map (fun j => (tget x [i; r; j] * tget y [i; j; c])%R)
                            (seq 0 k))))
      else None
  | _, _ => None
  end.

(** [F.softmax(x, axis=-1)].  Paddle subtracts the row maximum before
    exponentiating, which gives the same real number. *)
Definition softmax_row (xs : list R) : list R :=
  map (fun v => (exp v / sum_R (map exp xs))%R) xs.

Definition softmax_last (t : tensor R) : option (tensor R) :=
  match split_last (shape t) with
  | Some (pre, d) =>
      Some (Tensor (shape t)
              (concat (map (fun r => softmax_row (chunk r d (data t)))
                         (seq 0 (numel pre)))))
  | None => None
  end.

(** [nn.Dropout(p)], mode upscale_in_train: identity at inference; in
    training the element at offset [k] is kept when [keep k] (the random
    draw, an input of the model) and scaled by [1/(1-p)]. *)
Definition dropout (p : R) (training : bool) (keep : nat -> bool) (t : tensor R)
  : tensor R :=
  if training
  then Tensor (shape t)
         (imap (fun k v => if keep k then (v / (1 - p))%R else 0%R) (data t))
  else t.

(** ** [nn.Conv2D], [nn.GroupNorm], [F.interpolate] *)

Record Conv2D : Type := {
  c_in : nat;
  c_out : nat;
  ksize : nat;
  cpad : nat;
  cweight : nat -> nat -> nat -> nat -> R;   (* weight[o][c][dy][dx] *)
  cbias : option (nat -> R)
}.

(** The zero-padded input of a convolution, read at padded coordinates. *)
Definition padded_get (p : nat) (x : tensor R) (b c y z : nat) : R :=
  match shape x with
  | [_; _; h; w] =>
      if (p <=? y) && (y <? h + p) && (p <=? z) && (z <? w + p)
      then tget x [b; c; y - p; z - p]
      else 0%R
  | _ => 0%R
  end.

(** Stride 1, no dilation, one group: the only form the head uses.  Raises
    when the input is not [N, c_in, H, W] or is smaller than the kernel. *)
Definition Conv2D_forward (cv : Conv2D) (x : tensor R) : option (tensor R) :=
  match shape x with
  | [n; ci; h; w] =>
      if Nat.eqb ci (c_in cv)
         && (ksize cv <=? h + 2 * cpad cv) && (ksize cv <=? w + 2 * cpad cv)
      then
        Some (tinit [n; c_out cv; h + 2 * cpad cv + 1 - ksize cv;
                     w + 2 * cpad cv + 1 - ksize cv]
                (fun idx =>
                   let b := idx !!! 0 in
                   let o := idx !!! 1 in
                   let y := idx !!! 2 in
                   let z := idx !!! 3 in
                   (bias_at (cbias cv) o
                    + sum_R (map (fun c =>
                        sum_R (map (fun dy =>
                          sum_R (map (fun dx =>
                            cweight cv o c dy dx
                            * padded_get (cpad cv) x b c (y + dy) (z + dx))
                          (seq 0 (ksize cv))))
                        (seq 0 (ksize cv))))
                      (seq 0 (c_in cv))))%R))
      else None
  | _ => None
  end.

Record GroupNorm : Type := {
  gn_groups : nat;
  gn_channels : nat;
  gn_eps : R;
  gn_weight : nat -> R;
  gn_bias : nat -> R
}.

Definition mean_R (l : list R) : R := (sum_R l / INR (length l))%R.

(** The elements of group [g] of sample [b]: the group's channels are
    consecutive, so they form one block of the buffer. *)
Definition group_block (x : tensor R) (groups b g : nat) : list R :=
  chunk (b * groups + g) (numel (drop 1 (shape x)) / groups) (data x).

Definition GroupNorm_forward (gn : GroupNorm) (x : tensor R) : option (tensor R) :=
  match shape x with
  | [n; c; h; w] =>
      if Nat.eqb c (gn_channels gn) && (1 <=? gn_groups gn)
         && Nat.eqb (c mod gn_groups gn) 0
      then
        Some (tinit [n; c; h; w]
                (fun idx =>
                   let b := idx !!! 0 in
                   let ch := idx !!! 1 in
                   let blk := group_block x (gn_groups gn) b (ch / (c / gn_groups gn)) in
                   let mu := mean_R blk in
                   let var := mean_R (map (fun v => ((v - mu) * (v - mu))%R) blk) in
                   ((tget x idx - mu) / sqrt (var + gn_eps gn) * gn_weight gn ch
                    + gn_bias gn ch)%R))
      else None
  | _ => None
  end.

(** [F.interpolate(x, size=size)] with the default mode, nearest neighbour.
    Paddle finds the source row of output row [i] as [int(ratio * i)] with
    [ratio = in_size / out_size] computed in [float32]; the rounding of that
    arithmetic is not modelled: [src in_size out_size i] is the row it
    reads, an input of the model like the parameters of the layers. *)
Definition interpolate (src : nat -> nat -> nat -> nat) (x : tensor R)
    (size : list nat) : option (tensor R) :=
  match shape x, size with
  | [n; c; h; w], [h2; w2] =>
      Some (tinit [n; c; h2; w2]
              (fun idx =>
                 tget x [idx !!! 0; idx !!! 1;
                         src h h2 (idx !!! 2); src w w2 (idx !!! 3)]))
  | _, _ => None
  end.

(** The source row in exact arithmetic, [floor(i * in_size / out_size)]. *)
Definition exact_nearest (in_size out_size i : nat) : nat := i * in_size / out_size.

(** ** [MultiHeadAttentionMap] (lines 27-70) *)

Record MultiHeadAttentionMap : Type := {
  mha_num_heads : nat;
  mha_hidden_dim : nat;
  mha_dropout : R;
  q_proj : Linear;
  k_proj : Conv2D;
  normalize_fact : R
}.

(** The parameters drawn by the initialisers are inputs of the model. *)
Record ConvParams : Type := { cp_weight : nat -> nat -> nat -> nat -> R; cp_bias : nat -> R }.
Record LinearParams : Type := { lp_weight : nat -> nat -> R; lp_bias : nat -> R }.
Record NormParams : Type := { np_weight : nat -> R; np_bias : nat -> R }.

Definition mkConv2D (cin cout k pad : nat) (use_bias : bool) (p : ConvParams) : Conv2D :=
  {| c_in := cin; c_out := cout; ksize := k; cpad := pad;
     cweight := cp_weight p;
     cbias := if use_bias then Some (cp_bias p) else None |}.

Definition mkLinear (n k : nat) (use_bias : bool) (p : LinearParams) : Linear :=
  {| in_features := n; out_features := k; weight := lp_weight p;
     bias := if use_bias then Some (lp_bias p) else None |}.

(** [float(hidden_dim / self.num_heads)**-0.5] raises ZeroDivisionError
    when either number is zero. *)
Definition MultiHeadAttentionMap_init (query_dim hidden_dim num_heads : nat)
    (dropout_p : R) (use_bias : bool) (pq : LinearParams) (pk : ConvParams)
  : option MultiHeadAttentionMap :=
  if Nat.eqb num_heads 0 || Nat.eqb hidden_dim 0 then None
  else Some {| mha_num_heads := num_heads;
               mha_hidden_dim := hidden_dim;
               mha_dropout := dropout_p;
               q_proj := mkLinear query_dim hidden_dim use_bias pq;
               k_proj := mkConv2D query_dim hidden_dim 1 0 use_bias pk;
               normalize_fact :=
                 Rpower (INR hidden_dim / INR num_heads) (- (1 / 2)) |}.

(** [a // b] on Python integers that are not negative. *)
Definition floordiv (a b : nat) : option nat :=
  if Nat.eqb b 0 then None else Some (a / b).

(** Lines 53-68: the attention weights before dropout. *)
Definition MultiHeadAttentionMap_weights (m : MultiHeadAttentionMap)
    (q k : tensor R) (mask : option (tensor R)) : option (tensor R) :=
  q ← Linear_forward (q_proj m) q;
  k ← Conv2D_forward (k_proj m) k;
  bs ← py_index (shape q) 0;
  num_queries ← py_index (shape q) 1;
  let n := mha_num_heads m in
  c ← floordiv (mha_hidden_dim m) (mha_num_heads m);
  h ← py_index (shape k) (-2);
  w ← py_index (shape k) (-1);
  qh ← reshape q (dimsZ [bs; num_queries; n; c]);
  kh ← reshape k (dimsZ [bs; n; c; h; w]);
  qh ← transpose qh [0; 2; 1; 3];
  qh ← reshape qh ((-1)%Z :: dimsZ [num_queries; c]);
  kh ← reshape kh ((-1)%Z :: dimsZ [c; h * w]);
  weights ← bmm (scale qh (normalize_fact m)) kh;
  weights ← reshape weights (dimsZ [bs; n; num_queries; h; w]);
  weights ← transpose weights [0; 2; 1; 3; 4];
  weights ← match mask with
            | Some mk => add weights mk
            | None => Some weights
            end;
  flat ← flatten weights 3 (-1);
  sm ← softmax_last flat;
  reshape sm (dimsZ (shape weights)).

(** [forward]: the weights after [self.dropout]. *)
Definition MultiHeadAttentionMap_forward (m : MultiHeadAttentionMap)
    (training : bool) (keep : nat -> bool)
    (q k : tensor R) (mask : option (tensor R)) : option (tensor R) :=
  weights ← MultiHeadAttentionMap_weights m q k mask;
  Some (dropout (mha_dropout m) training keep weights).

(** ** [MaskHeadFPNConv] (lines 73-148) *)

(** [nn.Sequential(Conv2D, GroupNorm, ReLU)] as built by [_make_layers]. *)
Record ConvBlock : Type := { blk_conv : Conv2D; blk_norm : GroupNorm }.

Record BlockParams : Type := { bp_conv : ConvParams; bp_norm : NormParams }.

Definition make_layers (in_dims out_dims kernel_size num_groups : nat)
    (p : BlockParams) : ConvBlock :=
  {| blk_conv := mkConv2D in_dims out_dims kernel_size (kernel_size / 2) true (bp_conv p);
     blk_norm := {| gn_groups := num_groups; gn_channels := out_dims;
                    gn_eps := 1 / 100000;
                    gn_weight := np_weight (bp_norm p);
                    gn_bias := np_bias (bp_norm p) |} |}.

Definition ConvBlock_forward (b : ConvBlock) (x : tensor R) : option (tensor R) :=
  y ← Conv2D_forward (blk_conv b) x;
  z ← GroupNorm_forward (blk_norm b) y;
  Some (relu z).

Record MaskHeadFPNConv : Type := {
  conv0 : ConvBlock;
  conv_inter : list ConvBlock;
  conv_out : Conv2D;
  adapter : list Conv2D;
  nearest : nat -> nat -> nat -> nat   (* the rows [F.interpolate] reads *)
}.

Record MaskHeadParams : Type := {
  mp_conv0 : BlockParams;
  mp_inter : nat -> BlockParams;
  mp_out : ConvParams;
  mp_adapter : nat -> ConvParams;
  mp_nearest : nat -> nat -> nat -> nat
}.

(** [[input_dim] + [context_dim // (2**i) for i in range(1, 5)]] *)
Definition inter_dims (input_dim context_dim : nat) : list nat :=
  [input_dim] ++ map (fun i => context_dim / 2 ^ i) (seq 1 4).

(** The [KaimingUniform] initialiser given to every convolution of the
    head draws from a range whose bound divides by the fan-in,
    [in_channels * k * k]: building a convolution without input channels
    raises ZeroDivisionError. *)
Definition kaiming_uniform (in_channels k : nat) : option unit :=
  if Nat.eqb (in_channels * k * k) 0 then None else Some tt.

(** [__init__]: raises ZeroDivisionError when one of its convolutions has
    no input channels, which is the case of [conv_out] when
    [context_dim < 16], and IndexError when [inter_dims[i + 1]] is out of
    range while building the adapters. *)
Definition MaskHeadFPNConv_init (input_dim : nat) (fpn_dims : list nat)
    (context_dim num_groups : nat) (p : MaskHeadParams) : option MaskHeadFPNConv :=
  let ids := inter_dims input_dim context_dim in
  _ ← kaiming_uniform input_dim 3;
  _ ← mapM (fun in_dims => kaiming_uniform in_dims 3) (take (length ids - 1) ids);
  last_dim ← py_index ids (-1);
  _ ← kaiming_uniform last_dim 3;
  adapters ← mapM (fun i =>
                     fd ← fpn_dims !! i;
                     od ← ids !! (i + 1);
                     _ ← kaiming_uniform fd 1;
                     Some (mkConv2D fd od 1 0 true (mp_adapter p i)))
                  (seq 0 (length fpn_dims));
  Some {| conv0 := make_layers input_dim input_dim 3 num_groups (mp_conv0 p);
          conv_inter :=
            imap (fun i io => make_layers (fst io) (snd io) 3 num_groups (mp_inter p i))
                 (zip (take (length ids - 1) ids) (drop 1 ids));
          conv_out := mkConv2D last_dim 1 3 1 true (mp_out p);
          adapter := adapters;
          nearest := mp_nearest p |}.

(** Lines 134-137: [x] tiled and concatenated with the flattened attention
    maps. *)
Definition MaskHeadFPNConv_fuse {A} `{Inhabited A} (x bbox_attention_map : tensor A)
  : option (tensor A) :=
  nq ← py_index (shape bbox_attention_map) 1;
  att ← flatten bbox_attention_map 0 1;
  concat2 (tile x [nq; 1; 1; 1]) att 1.

(** The body of the loop of [forward] (lines 141-144). *)
Definition MaskHeadFPNConv_step (src : nat -> nat -> nat -> nat) (nq : nat)
    (inter_layer : ConvBlock) (adapter_layer : Conv2D) (feat x : tensor R)
  : option (tensor R) :=
  feat ← Conv2D_forward adapter_layer feat;
  let feat := tile feat [nq; 1; 1; 1] in
  x ← ConvBlock_forward inter_layer x;
  x ← interpolate src x (drop (length (shape feat) - 2) (shape feat));
  add feat x.

(** The loop over [zip(self.conv_inter[:-1], self.adapter, fpns)]: it stops
    with the shortest of the three sequences. *)
Fixpoint MaskHeadFPNConv_loop (src : nat -> nat -> nat -> nat) (nq : nat)
    (inters : list ConvBlock) (adapters : list Conv2D) (fpns : list (tensor R))
    (x : tensor R) : option (tensor R) :=
  match inters, adapters, fpns with
  | inter_layer :: inters', adapter_layer :: adapters', feat :: fpns' =>
      x ← MaskHeadFPNConv_step src nq inter_layer adapter_layer feat x;
      MaskHeadFPNConv_loop src nq inters' adapters' fpns' x
  | _, _, _ => Some x
  end.

Definition MaskHeadFPNConv_forward (m : MaskHeadFPNConv)
    (x bbox_attention_map : tensor R) (fpns : list (tensor R)) : option (tensor R) :=
  nq ← py_index (shape bbox_attention_map) 1;
  x ← MaskHeadFPNConv_fuse x bbox_attention_map;
  x ← ConvBlock_forward (conv0 m) x;
  x ← MaskHeadFPNConv_loop (nearest m) nq
        (take (length (conv_inter m) - 1) (conv_inter m)) (adapter m) fpns x;
  last_inter ← py_index (conv_inter m) (-1);
  x ← ConvBlock_forward last_inter x;
  Conv2D_forward (conv_out m) x.

(** ** External collaborators *)

(** [pycocotools.mask], consumed as an opaque utility: polygons to
    run-length encodings, their union, and the decoded [uint8] raster.  A
    call that raises returns [None]. *)
Class MaskUtil : Type := {
  rle : Type;
  frPyObjects : list (list R) -> nat -> nat -> option (list rle);
  merge : list rle -> option rle;
  decode : rle -> option (tensor nat)
}.

(** Values stored in the [inputs] dictionary. *)
Inductive pyval : Type :=
  | VTensors (ts : list (tensor R))
  | VPolys (polys : list (list (list (list R))))
  | VMask (pad_mask : tensor nat).

(** The loss callable held in [self.loss]. *)
Class LossFn : Type := {
  loss_result : Type;
  loss_call : tensor R -> tensor R -> pyval -> pyval ->
              option (tensor R) -> option (list (tensor R)) -> option loss_result
}.

(** ** Ground-truth masks (lines 183-199) *)

(** [int(padding[:, 0].sum())] and [int(padding[0, :].sum())] for a
    padding matrix; the entries of the mask are the numbers 0 and 1, kept
    as naturals.  Indexing an empty axis raises. *)
Definition first_col_sum (padding : tensor nat) : option nat :=
  match shape padding with
  | [hp; wp] =>
      if Nat.eqb wp 0 then None
      else Some (sum_list (map (fun i => tget padding [i; 0]) (seq 0 hp)))
  | _ => None
  end.

Definition first_row_sum (padding : tensor nat) : option nat :=
  match shape padding with
  | [hp; wp] =>
      if Nat.eqb hp 0 then None
      else Some (sum_list (map (fun j => tget padding [0; j]) (seq 0 wp)))
  | _ => None
  end.

(** [dst[:, :height, :width] = src]: the slices are clipped to the extent
    of [dst] and [src] must broadcast to the clipped region. *)
Definition set_top_left (dst : tensor R) (height width : nat) (src : tensor R)
  : option (tensor R) :=
  match shape dst with
  | [n; hp; wp] =>
      let region := [n; Nat.min height hp; Nat.min width wp] in
      if bool_decide (broadcast_shape (shape src) region = Some region) then
        Some (tinit [n; hp; wp]
                (fun idx =>
                   if ((idx !!! 1) <? Nat.min height hp)
                      && ((idx !!! 2) <? Nat.min width wp)
                   then bget src idx
                   else tget dst idx))
      else None
  | _ => None
  end.

(** One object: [decode(merge(frPyObjects(obj_poly, height, width)))] as
    a [float32] tensor. *)
Definition rasterize `{MaskUtil} (obj_poly : list (list R)) (height width : nat)
  : option (tensor R) :=
  rles ← frPyObjects obj_poly height width;
  r ← merge rles;
  m ← decode r;
  Some (tmap INR m).

(** The body of the loop over [zip(gt_poly, pad_mask)]. *)
Definition gt_mask_of_image `{MaskUtil} (pad_mask : tensor nat)
    (polygons : list (list (list R))) (padding : tensor nat) : option (tensor R) :=
  height ← first_col_sum padding;
  width ← first_row_sum padding;
  masks ← mapM (fun obj_poly => rasterize obj_poly height width) polygons;
  masks ← stack masks;
  n ← shape masks !! 0;
  hp ← shape pad_mask !! 1;
  wp ← shape pad_mask !! 2;
  set_top_left (zeros [n; hp; wp]) height width masks.

Definition get_gt_mask_from_polygons `{MaskUtil}
    (gt_poly : list (list (list (list R)))) (pad_mask : tensor nat)
  : option (list (tensor R)) :=
  mapM (fun pp => gt_mask_of_image pad_mask (fst pp) (snd pp))
       (zip gt_poly (unstack pad_mask)).

(** ** [DETRHead] (lines 151-241) *)

Record DETRHead : Type := {
  num_classes : nat;
  hidden_dim : nat;
  use_focal_loss : bool;
  score_head : Linear;
  bbox_head : MLP;
  (* [bbox_attention] and [mask_head] exist exactly when [with_mask_head] *)
  mask_branch : option (MultiHeadAttentionMap * MaskHeadFPNConv)
}.

Definition with_mask_head (hd : DETRHead) : bool :=
  match mask_branch hd with Some _ => true | None => false end.

Record DETRHeadParams : Type := {
  dp_score : LinearParams;
  dp_bbox : nat -> (nat -> nat -> R) * (nat -> R);
  dp_att_q : LinearParams;
  dp_att_k : ConvParams;
  dp_mask : MaskHeadParams
}.

Definition DETRHead_init (num_classes hidden_dim nhead : nat) (num_mlp_layers : Z)
    (fpn_dims : list nat) (with_mask use_focal : bool) (p : DETRHeadParams)
  : option DETRHead :=
  let nc := if use_focal then num_classes else num_classes + 1 in
  branch ← (if with_mask then
              att ← MultiHeadAttentionMap_init hidden_dim hidden_dim nhead 0 true
                      (dp_att_q p) (dp_att_k p);
              mh ← MaskHeadFPNConv_init (hidden_dim + nhead) fpn_dims hidden_dim 8
                     (dp_mask p);
              Some (Some (att, mh))
            else Some None);
  Some {| num_classes := nc;
          hidden_dim := hidden_dim;
          use_focal_loss := use_focal;
          score_head := mkLinear hidden_dim nc true (dp_score p);
          bbox_head := MLP_init hidden_dim hidden_dim 4 num_mlp_layers (dp_bbox p);
          mask_branch := branch |}.

(** *** Effects of [forward]

    A call of [forward] either returns or raises, and on the way it runs
    tensor computations.  The computation is a value of [M]: the calls
    started, in order, and the outcome. *)

Inductive event : Type :=
  | EvScoreHead | EvBBoxHead | EvSigmoid | EvAttention | EvMaskHead
  | EvRasterize | EvLoss.

Inductive exn : Type :=
  | AssertionError
  | KeyError (key : string)
  | CallError.            (* raised inside a callee *)

Definition M (A : Type) : Type := list event * (exn + A).

Definition ret {A} (a : A) : M A := ([], inr a).

Definition bind {A B} (m : M A) (f : A -> M B) : M B :=
  match m with
  | (t, inl e) => (t, inl e)
  | (t, inr a) => let '(t', r) := f a in (t ++ t', r)
  end.

Definition raise {A} (e : exn) : M A := ([], inl e).

(** A step without a logged event; [None] is an exception of the step. *)
Definition lift {A} (o : option A) : M A :=
  match o with Some a => ret a | None => raise CallError end.

(** A logged call. *)
Definition call {A} (ev : event) (o : option A) : M A :=
  ([ev], match o with Some a => inr a | None => inl CallError end).

Definition py_assert (b : bool) : M unit :=
  if b then ret tt else raise AssertionError.

Declare Scope M_scope.
Delimit Scope M_scope with M.
Notation "x <- m ;; k" := (bind m (fun x => k))
  (at level 100, m at next level, right associativity) : M_scope.

Definition trace_of {A} (m : M A) : list event := fst m.
Definition outcome_of {A} (m : M A) : exn + A := snd m.

(** What [forward] returns: the loss in training mode, the 3-tuple of
    predictions otherwise. *)
Inductive output (L : Type) : Type :=
  | OutLoss (l : L)
  | OutPred (bbox logit : tensor R) (seg : option (tensor R)).
Arguments OutLoss {L} _.
Arguments OutPred {L} _ _ _.

(** [inputs[key]] *)
Definition dict_get (inputs : gmap string pyval) (key : string) : M pyval :=
  match inputs !! key with
  | Some v => ret v
  | None => raise (KeyError key)
  end.

(** [key in inputs] *)
Definition dict_has (inputs : gmap string pyval) (key : string) : bool :=
  bool_decide (is_Some (inputs !! key)).

Definition out_transformer : Type := tensor R * tensor R * tensor R * tensor R.

(** Lines 216-225: the mask branch. *)
Definition DETRHead_masks (hd : DETRHead) (training : bool) (keep : nat -> bool)
    (feats memory src_proj src_mask : tensor R) (body_feats : list (tensor R))
  : M (option (tensor R)) :=
  match mask_branch hd with
  | Some (bbox_attention, mask_head) =>
      (last_feats <- lift (index_last feats) ;;
       bbox_attention_map <-
         call EvAttention
           (MultiHeadAttentionMap_forward bbox_attention training keep
              last_feats memory (Some src_mask)) ;;
       let fpn_feats := drop 1 (reverse body_feats) in
       outputs_seg <-
         call EvMaskHead
           (MaskHeadFPNConv_forward mask_head src_proj bbox_attention_map fpn_feats) ;;
       d1 <- lift (py_index (shape feats) 1) ;;
       d2 <- lift (py_index (shape feats) 2) ;;
       h <- lift (py_index (shape outputs_seg) (-2)) ;;
       w <- lift (py_index (shape outputs_seg) (-1)) ;;
       outputs_seg <- lift (reshape outputs_seg (dimsZ [d1; d2; h; w])) ;;
       ret (Some outputs_seg))%M
  | None => ret None
  end.

(** Lines 212-225: the predictions, computed in both modes. *)
Definition DETRHead_predict (hd : DETRHead) (training : bool) (keep : nat -> bool)
    (out : out_transformer) (body_feats : list (tensor R))
  : M (tensor R * tensor R * option (tensor R)) :=
  let '(feats, memory, src_proj, src_mask) := out in
  (outputs_logit <- call EvScoreHead (Linear_forward (score_head hd) feats) ;;
   raw <- call EvBBoxHead (MLP_forward (bbox_head hd) feats) ;;
   outputs_bbox <- call EvSigmoid (Some (sigmoid raw)) ;;
   outputs_seg <- DETRHead_masks hd training keep feats memory src_proj src_mask
                    body_feats ;;
   ret (outputs_bbox, outputs_logit, outputs_seg))%M.

(** Lines 230-232 *)
Definition DETRHead_gt_mask `{MaskUtil} (inputs : gmap string pyval)
  : M (option (list (tensor R))) :=
  if dict_has inputs "gt_poly" then
    (gt_poly <- dict_get inputs "gt_poly" ;;
     pad_mask <- dict_get inputs "pad_mask" ;;
     match gt_poly, pad_mask with
     | VPolys polys, VMask pm =>
         (ms <- call EvRasterize (get_gt_mask_from_polygons polys pm) ;;
          ret (Some ms))
     | _, _ => call EvRasterize None
     end)%M
  else ret None.

(** Lines 228-239: the training branch; [inputs = None] is Python's [None]. *)
Definition DETRHead_train `{MaskUtil} `{LossFn}
    (inputs : option (gmap string pyval))
    (outputs_bbox outputs_logit : tensor R) (outputs_seg : option (tensor R))
  : M (output loss_result) :=
  (_ <- py_assert (bool_decide (is_Some inputs)) ;;
   let inp := default ∅ inputs in
   _ <- py_assert (dict_has inp "gt_bbox" && dict_has inp "gt_class") ;;
   gt_mask <- DETRHead_gt_mask inp ;;
   gt_bbox <- dict_get inp "gt_bbox" ;;
   gt_class <- dict_get inp "gt_class" ;;
   l <- call EvLoss (loss_call outputs_bbox outputs_logit gt_bbox gt_class
                       outputs_seg gt_mask) ;;
   ret (OutLoss l))%M.

(** Line 241: the inference branch. *)
Definition DETRHead_infer {L : Type}
    (outputs_bbox outputs_logit : tensor R) (outputs_seg : option (tensor R))
  : M (output L) :=
  (bbox <- lift (index_last outputs_bbox) ;;
   logit <- lift (index_last outputs_logit) ;;
   ret (OutPred bbox logit outputs_seg))%M.

(** [forward] *)
Definition DETRHead_forward `{MaskUtil} `{LossFn} (hd : DETRHead)
    (training : bool) (keep : nat -> bool)
    (out : out_transformer) (body_feats : list (tensor R))
    (inputs : option (gmap string pyval)) : M (output loss_result) :=
  (preds <- DETRHead_predict hd training keep out body_feats ;;
   let '(outputs_bbox, outputs_logit, outputs_seg) := preds in
   if training
   then DETRHead_train inputs outputs_bbox outputs_logit outputs_seg
   else DETRHead_infer outputs_bbox outputs_logit outputs_seg)%M.

(** ** Concrete inputs used in the examples *)

Definition zero_conv : ConvParams :=
  {| cp_weight := fun _ _ _ _ => 0%R; cp_bias := fun _ => 0%R |}.
Definition unit_norm : NormParams :=
  {| np_weight := fun _ => 1%R; np_bias := fun _ => 0%R |}.
Definition zero_linear : LinearParams :=
  {| lp_weight := fun _ _ => 0%R; lp_bias := fun _ => 0%R |}.
Definition zero_block : BlockParams := {| bp_conv := zero_conv; bp_norm := unit_norm |}.
Definition zero_mask_params : MaskHeadParams :=
  {| mp_conv0 := zero_block; mp_inter := fun _ => zero_block;
     mp_out := zero_conv; mp_adapter := fun _ => zero_conv;
     mp_nearest := exact_nearest |}.
Definition zero_mlp : nat -> (nat -> nat -> R) * (nat -> R) :=
  fun _ => (fun _ _ => 0%R, fun _ => 0%R).
Definition zero_head_params : DETRHeadParams :=
  {| dp_score := zero_linear; dp_bbox := zero_mlp;
     dp_att_q := zero_linear; dp_att_k := zero_conv;
     dp_mask := zero_mask_params |}.

(** Two images with one channel and one pixel, holding 10 and 20, and the
    attention maps of two queries per image with one head, holding 1, 2
    (image 0) and 3, 4 (image 1). *)
Definition two_images : tensor Z := Tensor [2; 1; 1; 1] [10; 20]%Z.
Definition two_by_two_attention : tensor Z := Tensor [2; 2; 1; 1; 1] [1; 2; 3; 4]%Z.

(** A one-pixel feature map and a one-pixel attention map. *)
Definition pixel : tensor R := Tensor [1; 1; 1; 1] [1%R].
Definition pixel_attention : tensor R := Tensor [1; 1; 1; 1; 1] [1%R].

(** ** Vocabulary of the statements *)

(** An index is in bounds when it has one coordinate per axis, each below
    the extent of the axis. *)
Definition in_bounds (s idx : list nat) : Prop := Forall2 (fun i d => i < d) idx s.

(** Consecutive layers agree on the width of the activation they exchange. *)
Fixpoint chained (d_in : nat) (ls : list Linear) (d_out : nat) : Prop :=
  match ls with
  | [] => d_in = d_out
  | l :: ls' => in_features l = d_in /\ chained (out_features l) ls' d_out
  end.

(** A layer with zero weights and bias [-1]. *)
Definition sunk (l : Linear) : Prop :=
  weight l = (fun _ _ => 0%R) /\ bias l = Some (fun _ => (-1)%R).

Definition stage_in (b : ConvBlock) : nat := c_in (blk_conv b).
Definition stage_out (b : ConvBlock) : nat := c_out (blk_conv b).

Ltac bind_inv H :=
  repeat match type of H with
         | (?o ≫= _) = Some _ =>
             let E := fresh "E" in
             destruct o eqn:E; [cbn [mbind option_bind] in H | discriminate H]
         end.

Ltac in_bounds_tac := repeat (constructor; [lia|]); constructor.

Ltac pos_dims := repeat (apply List.Forall_cons; [cbv beta; lia|]); apply List.Forall_nil.

(** The value of [feats[-1]] for [feats] of shape [S L :: rest]. *)
Definition last_slice {A} (L : nat) (rest : list nat) (t : tensor A) : tensor A :=
  Tensor rest (chunk L (numel rest) (data t)).


(** The events logged by the prediction heads. *)
Definition head_event (e : event) : Prop :=
  match e with
  | EvScoreHead | EvBBoxHead | EvSigmoid | EvAttention | EvMaskHead => True
  | EvRasterize | EvLoss => False
  end.

(** A rasteriser that paints every pixel, and a loss that returns nothing:
    stand-ins for the collaborators in the examples. *)
Definition full_mask_util : MaskUtil :=
  {| rle := nat * nat;
     frPyObjects := fun _ h w => Some [(h, w)];
     merge := fun rs => head rs;
     decode := fun hw => Some (Tensor [fst hw; snd hw] (replicate (fst hw * snd hw) 1)) |}.

Definition unit_loss : LossFn :=
  {| loss_result := unit; loss_call := fun _ _ _ _ _ _ => Some tt |}.

(** Query features of two decoder layers for one image with one query of
    width one; the two tensors differ in the first layer only. *)
Definition feats_a : tensor R := Tensor [2; 1; 1; 1] [5%R; 7%R].
Definition feats_b : tensor R := Tensor [2; 1; 1; 1] [9%R; 7%R].

(** Training was invoked without the required ground truth: [inputs] is
    [None], or it lacks the key ['gt_bbox'] or the key ['gt_class']. *)
Definition missing_supervision (inputs : option (gmap string pyval)) : Prop :=
  inputs = None
  \/ exists i, inputs = Some i /\ (i !! "gt_bbox" = None \/ i !! "gt_class" = None).

(** [t[i]]: the [i]-th slice of [t] along its first axis. *)
Definition slice_at {A} (i : nat) (t : tensor A) : tensor A :=
  Tensor (drop 1 (shape t)) (chunk i (numel (drop 1 (shape t))) (data t)).

(** [masks_pad] holds, for every object of [polygons], the raster of the
    object at the unpadded resolution read off [padding], in the top-left
    corner of a zero canvas of [Hp] rows and [Wp] columns. *)
Definition pasted_masks `{MaskUtil} (Hp Wp : nat) (polygons : list (list (list R)))
    (padding : tensor nat) (masks_pad : tensor R) : Prop :=
  let height := sum_list (map (fun r => tget padding [r; 0]) (seq 0 Hp)) in
  let width := sum_list (map (fun c => tget padding [0; c]) (seq 0 Wp)) in
  height <= Hp /\ width <= Wp
  /\ shape masks_pad = [length polygons; Hp; Wp] /\ wf masks_pad
  /\ forall o obj y x,
       polygons !! o = Some obj -> y < Hp -> x < Wp ->
       exists r,
         rasterize obj height width = Some r
         /\ tget masks_pad [o; y; x]
            = if (y <? height) && (x <? width) then tget r [y; x] else 0%R.

(** A padding mask for one image: a 2 x 3 canvas whose valid region is the
    first row and the first two columns. *)
Definition one_padding : tensor nat := Tensor [1; 2; 3] [1; 1; 0; 0; 0; 0].

(** The head built by [DETRHead(num_classes=1, hidden_dim=1, nhead=1,
    num_mlp_layers=1, fpn_dims=[], with_mask_head=False)] with zero
    parameters. *)
Definition plain_head : DETRHead :=
  {| num_classes := 2;
     hidden_dim := 1;
     use_focal_loss := false;
     score_head := mkLinear 1 2 true zero_linear;
     bbox_head := MLP_init 1 1 4 1 zero_mlp;
     mask_branch := None |}.

(** One image with one object made of one polygon, the rectangle with
    corners (0,0), (2,0), (2,1), (0,1) given as x, y pairs. *)
Definition one_object : list (list (list (list R))) :=
  [[[[0; 0; 2; 0; 2; 1; 0; 1]%R]]].

(** A block as [_make_layers] builds it in this head: a 3x3 convolution
    with padding 1 and a group norm over its output channels. *)
Definition std_block (g : nat) (b : ConvBlock) : Prop :=
  ksize (blk_conv b) = 3 /\ cpad (blk_conv b) = 1
  /\ gn_channels (blk_norm b) = stage_out b /\ gn_groups (blk_norm b) = g.

(** A 1x1 convolution without padding. *)
Definition pointwise (cv : Conv2D) : Prop := ksize cv = 1 /\ cpad cv = 0.

(** Inputs for a head with the mask branch: hidden width 128, 8 heads,
    one image, one query, one-pixel feature maps. *)
Definition wide_feats : tensor R := Tensor [1; 1; 1; 128] (replicate 128 0%R).
Definition wide_map : tensor R := Tensor [1; 128; 1; 1] (replicate 128 0%R).
Definition unit_mask : tensor R := Tensor [1; 1; 1; 1; 1] [0%R].
Definition masked_head : DETRHead :=
  default plain_head
    (DETRHead_init 1 128 8 1 [1; 1; 1] true false zero_head_params).

(** Supervision with boxes and classes only. *)
Definition boxes_and_classes : gmap string pyval :=
  <["gt_bbox" := VTensors [pixel]]> (<["gt_class" := VTensors [pixel]]> ∅).

(** A 2 x 3 matrix of integers, for the examples of the tensor operations. *)
Definition m23 : tensor Z := Tensor [2; 3] [1; 2; 3; 4; 5; 6]%Z.

(** A padding mask of [Hp] rows and [Wp] columns whose valid region is the
    top-left block of [h] rows and [w] columns. *)
Definition block_padding (Hp Wp h w : nat) : tensor nat :=
  tinit [Hp; Wp] (fun idx => if ((idx !!! 0) <? h) && ((idx !!! 1) <? w) then 1 else 0).

(** Supervision with polygons but without the padding mask, and with both. *)
Definition polygons_only : gmap string pyval :=
  <["gt_poly" := VPolys one_object]> boxes_and_classes.
Definition polygons_and_padding : gmap string pyval :=
  <["pad_mask" := VMask one_padding]> polygons_only.

(** Two images, the second one without objects, and their padding masks of
    one pixel each. *)
Definition second_image_empty : list (list (list (list R))) :=
  [[[[0; 0; 1; 0; 1; 1; 0; 1]%R]]; []].
Definition two_paddings : tensor nat := Tensor [2; 1; 1] [1; 1].

(** A projected memory laid out as [B, H*W, C] with two channels, and the
    keys of a batch of two images. *)
Definition flat_memory : tensor R := Tensor [1; 1; 2] [0%R; 0%R].
Definition two_keys : tensor R := Tensor [2; 1; 1; 1] [1%R; 1%R].

(** The padding mask [one_padding] with one more entry set, away from the
    first row and the first column. *)
Definition one_padding_speck : tensor nat := Tensor [1; 2; 3] [1; 1; 0; 0; 1; 0].

(** [seg] is what the mask branch makes of the inputs at inference:
    nothing without the branch; with it, the output of the mask head on
    the projected memory, the attention maps of the last decoder layer and
    the pyramid levels [body_feats[::-1][1:]], reshaped to
    [feats.shape[1], feats.shape[2], H_out, W_out]. *)
Definition mask_logits (hd : DETRHead) (feats memory src_proj src_mask : tensor R)
    (body_feats : list (tensor R)) (seg : option (tensor R)) : Prop :=
  match mask_branch hd with
  | None => seg = None
  | Some (bbox_attention, mask_head) =>
      exists last_feats bbox_attention_map out d1 d2 h w s,
        index_last feats = Some last_feats
        /\ MultiHeadAttentionMap_weights bbox_attention last_feats memory
             (Some src_mask) = Some bbox_attention_map
        /\ MaskHeadFPNConv_forward mask_head src_proj bbox_attention_map
             (drop 1 (reverse body_feats)) = Some out
        /\ py_index (shape feats) 1 = Some d1 /\ py_index (shape feats) 2 = Some d2
        /\ py_index (shape out) (-2) = Some h /\ py_index (shape out) (-1) = Some w
        /\ reshape out (dimsZ [d1; d2; h; w]) = Some s
        /\ seg = Some s
  end.


(** * Properties *)

(** ** Indexing *)

Lemma numel_app (a b : list nat) : numel (a ++ b) = numel a * numel b.
Proof.
  induction a as [|d a IH]; simpl; [lia|]. rewrite IH. lia.
Qed.

Lemma numel_cons (d : nat) (s : list nat) : numel (d :: s) = d * numel s.
Proof. reflexivity. Qed.

Lemma length_tinit {A} (s : list nat) (f : list nat -> A) :
  length (data (tinit s f)) = numel s.
Proof. unfold tinit; simpl. rewrite length_map, length_seq. reflexivity. Qed.

Lemma wf_tinit {A} (s : list nat) (f : list nat -> A) : wf (tinit s f).
Proof. unfold wf. rewrite length_tinit. reflexivity. Qed.

Lemma ravel_lt (s idx : list nat) : in_bounds s idx -> ravel s idx < numel s.
Proof.
  intros Hb. induction Hb as [|i d idx s Hi Hb IH]; simpl; [lia|].
  nia.
Qed.

Lemma unravel_ravel (s idx : list nat) :
  in_bounds s idx -> unravel s (ravel s idx) = idx.
Proof.
  intros Hb. induction Hb as [|i d idx s Hi Hb IH]; simpl; [reflexivity|].
  pose proof (ravel_lt s idx Hb) as Hlt.
  assert (Hpos : numel s <> 0) by lia.
  rewrite Nat.div_add_l by exact Hpos.
  rewrite Nat.div_small by exact Hlt.
  replace (i * numel s + ravel s idx) with (ravel s idx + i * numel s) by lia.
  rewrite Nat.Div0.mod_add, Nat.mod_small by exact Hlt.
  rewrite IH. f_equal. lia.
Qed.

Lemma unravel_in_bounds (s : list nat) (k : nat) :
  k < numel s -> in_bounds s (unravel s k).
Proof.
  revert k. induction s as [|d s IH]; intros k Hk; simpl.
  - constructor.
  - rewrite numel_cons in Hk.
    assert (Hpos : numel s <> 0) by (intros E; rewrite E in Hk; lia).
    constructor.
    + apply Nat.Div0.div_lt_upper_bound. lia.
    + apply IH. apply Nat.mod_upper_bound. exact Hpos.
Qed.

Lemma ravel_unravel (s : list nat) (k : nat) :
  k < numel s -> ravel s (unravel s k) = k.
Proof.
  revert k. induction s as [|d s IH]; intros k Hk; simpl.
  - simpl in Hk. lia.
  - rewrite numel_cons in Hk.
    assert (Hpos : numel s <> 0) by (intros E; rewrite E in Hk; lia).
    rewrite IH by (apply Nat.mod_upper_bound; exact Hpos).
    pose proof (Nat.div_mod_eq k (numel s)). lia.
Qed.

Lemma lookup_total_map_seq {A} `{Inhabited A} (f : nat -> A) (n k : nat) :
  k < n -> map f (seq 0 n) !!! k = f k.
Proof.
  intros Hk. apply list_lookup_total_correct.
  change (map f (seq 0 n)) with (f <$> seq 0 n).
  rewrite list_lookup_fmap, lookup_seq_lt by exact Hk. reflexivity.
Qed.

Lemma tget_tinit {A} `{Inhabited A} (s idx : list nat) (f : list nat -> A) :
  in_bounds s idx -> tget (tinit s f) idx = f idx.
Proof.
  intros Hb. unfold tget, tinit; simpl.
  rewrite lookup_total_map_seq by (apply ravel_lt; exact Hb).
  rewrite unravel_ravel by exact Hb. reflexivity.
Qed.

Lemma length_chunk_le {A} (r n : nat) (l : list A) :
  (S r) * n <= length l -> length (chunk r n l) = n.
Proof.
  intros Hl. unfold chunk. rewrite length_take, length_drop. lia.
Qed.

Lemma length_concat_const {A} (f : nat -> list A) (m : nat) (l : list nat) :
  (forall r, In r l -> length (f r) = m) -> length (concat (map f l)) = length l * m.
Proof.
  intros Hf. induction l as [|r l IH]; simpl; [reflexivity|].
  rewrite length_app.
  rewrite Hf by (left; reflexivity).
  rewrite IH by (intros r' Hr'; apply Hf; right; exact Hr').
  lia.
Qed.

Lemma split_last_snoc (pre : list nat) (d : nat) :
  split_last (pre ++ [d]) = Some (pre, d).
Proof.
  induction pre as [|e pre IH]; simpl; [reflexivity|].
  rewrite IH. destruct (pre ++ [d]) eqn:E; [|reflexivity].
  destruct pre; discriminate.
Qed.

Lemma split_last_Some (s pre : list nat) (d : nat) :
  split_last s = Some (pre, d) -> s = pre ++ [d].
Proof.
  revert pre. induction s as [|e s IH]; intros pre Hs; simpl in Hs; [discriminate|].
  destruct s as [|e' s'].
  - inversion Hs; subst. reflexivity.
  - destruct (split_last (e' :: s')) as [[p q]|] eqn:E; [|discriminate].
    inversion Hs; subst. rewrite (IH p eq_refl). reflexivity.
Qed.

(** ** The tensor operations on a 2 x 3 matrix *)

Example transpose_m23 :
  transpose m23 [1; 0] = Some (Tensor [3; 2] [1; 4; 2; 5; 3; 6]%Z).
Proof. reflexivity. Qed.

Example transpose_not_a_permutation : transpose m23 [1; 1] = None.
Proof. reflexivity. Qed.

Example tile_m23_rows :
  tile m23 [2; 1] = Tensor [4; 3] [1; 2; 3; 4; 5; 6; 1; 2; 3; 4; 5; 6]%Z.
Proof. reflexivity. Qed.

Example tile_m23_columns :
  tile m23 [2] = Tensor [2; 6] [1; 2; 3; 1; 2; 3; 4; 5; 6; 4; 5; 6]%Z.
Proof. reflexivity. Qed.

Example concat2_m23_axis1 :
  concat2 m23 m23 1 = Some (Tensor [2; 6] [1; 2; 3; 1; 2; 3; 4; 5; 6; 4; 5; 6]%Z).
Proof. reflexivity. Qed.

Example flatten_m23 : flatten m23 0 (-1) = Some (Tensor [6] (data m23)).
Proof. reflexivity. Qed.

Example reshape_m23_inferred :
  reshape m23 [3; -1]%Z = Some (Tensor [3; 2] (data m23)).
Proof. reflexivity. Qed.

Example reshape_m23_copied :
  reshape m23 [0; -1]%Z = Some (Tensor [2; 3] (data m23)).
Proof. reflexivity. Qed.

Example reshape_m23_mismatch : reshape m23 [4; -1]%Z = None.
Proof. reflexivity. Qed.

Example index_last_m23 : index_last m23 = Some (Tensor [3] [4; 5; 6]%Z).
Proof. reflexivity. Qed.

Example broadcast_shape_mask :
  broadcast_shape [2; 5; 8; 10; 10] [2; 1; 1; 10; 10] = Some [2; 5; 8; 10; 10].
Proof. reflexivity. Qed.

Example broadcast_shape_mismatch : broadcast_shape [2; 1; 3] [4; 2] = None.
Proof. reflexivity. Qed.

Example py_index_negative : py_index [1; 2; 3] (-1) = Some 3.
Proof. reflexivity. Qed.

Example py_index_out_of_range : py_index [1; 2; 3] (-4) = None.
Proof. reflexivity. Qed.

(** ** Linear layers *)

Lemma length_linear_row (l : Linear) (xs : list R) :
  length (linear_row l xs) = out_features l.
Proof. unfold linear_row. rewrite length_map, length_seq. reflexivity. Qed.

Lemma Linear_forward_shape (l : Linear) (x : tensor R) (pre : list nat) :
  shape x = pre ++ [in_features l] ->
  exists y, Linear_forward l x = Some y
            /\ shape y = pre ++ [out_features l] /\ wf y.
Proof.
  intros Hs. unfold Linear_forward. rewrite Hs, split_last_snoc.
  rewrite Nat.eqb_refl. eexists; split; [reflexivity|]. split; [reflexivity|].
  unfold wf; simpl.
  rewrite (length_concat_const _ (out_features l)) by (intros; apply length_linear_row).
  rewrite length_seq, numel_app. simpl. lia.
Qed.

Lemma relu_nonneg (t : tensor R) : Forall (fun v => (0 <= v)%R) (data (relu t)).
Proof.
  unfold relu, tmap; simpl. apply Forall_forall. intros v Hv.
  apply list_elem_of_In, in_map_iff in Hv. destruct Hv as [u [<- _]].
  apply Rmax_l.
Qed.

Lemma wf_tmap {A B} (f : A -> B) (t : tensor A) : wf t -> wf (tmap f t).
Proof. unfold wf, tmap; simpl. rewrite length_map. trivial. Qed.

(** ** The multilayer perceptron *)

Lemma MLP_dims_chained (g : nat -> nat * nat -> Linear) (k input hidden output : nat) :
  (forall i nk, in_features (g i nk) = fst nk /\ out_features (g i nk) = snd nk) ->
  chained input
    (imap g (zip ([input] ++ replicate k hidden) (replicate k hidden ++ [output])))
    output.
Proof.
  revert g input. induction k as [|k IH]; intros g input Hg; simpl.
  - destruct (Hg 0 (input, output)) as [-> ->]. simpl. auto.
  - destruct (Hg 0 (input, hidden)) as [-> ->]. simpl. split; [reflexivity|].
    apply (IH (g ∘ S) hidden). intros i nk. apply Hg.
Qed.

Lemma MLP_loop_chained (n : Z) (ls : list Linear) :
  forall (i : nat) (x : tensor R) (pre : list nat) (d_in d_out : nat),
    chained d_in ls d_out -> shape x = pre ++ [d_in] -> wf x ->
    exists tr y,
      MLP_trace_loop n i ls x = Some tr
      /\ MLP_loop n i ls x = Some y
      /\ last (x :: tr) = Some y
      /\ length tr = length ls
      /\ shape y = pre ++ [d_out] /\ wf y
      /\ (forall j t, tr !! j = Some t -> (Z.of_nat (i + j) < n - 1)%Z ->
                      Forall (fun v => (0 <= v)%R) (data t)).
Proof.
  induction ls as [|l ls IH]; intros i x pre d_in d_out Hc Hs Hwf; simpl in *.
  - subst. exists [], x. repeat split; auto. intros j t Hj. discriminate.
  - destruct Hc as [Hin Hc].
    destruct (Linear_forward_shape l x pre) as (y & Hy & Hys & Hywf);
      [rewrite Hin; exact Hs|].
    rewrite Hy.
    set (x' := if (Z.of_nat i <? n - 1)%Z then relu y else y).
    assert (Hx's : shape x' = pre ++ [out_features l])
      by (unfold x'; destruct (Z.of_nat i <? n - 1)%Z; simpl; exact Hys).
    assert (Hx'wf : wf x')
      by (unfold x'; destruct (Z.of_nat i <? n - 1)%Z;
          [apply wf_tmap|]; exact Hywf).
    destruct (IH (S i) x' pre _ _ Hc Hx's Hx'wf)
      as (tr & z & Htr & Hz & Hlast & Hlen & Hzs & Hzwf & Hnn).
    rewrite Htr. exists (x' :: tr), z. repeat split; auto.
    + simpl. rewrite Hlen. reflexivity.
    + intros [|j] t Hj Hlt; simpl in Hj.
      * inversion Hj; subst t. unfold x'.
        replace (i + 0) with i in Hlt by lia.
        apply Z.ltb_lt in Hlt. rewrite Hlt. apply relu_nonneg.
      * apply (Hnn j t Hj). lia.
Qed.

Lemma MLP_dims_length (input hidden output : nat) (n : Z) :
  (1 <= n)%Z -> Z.of_nat (length (MLP_dims input hidden output n)) = n.
Proof.
  intros Hn. unfold MLP_dims.
  rewrite length_zip, !length_app, length_replicate. simpl length. lia.
Qed.

Lemma MLP_dims_lookup (input hidden output : nat) (n : Z) (i : nat) (nk : nat * nat) :
  (1 <= n)%Z ->
  MLP_dims input hidden output n !! i = Some nk ->
  fst nk = (if Nat.eqb i 0 then input else hidden)
  /\ snd nk = (if (Z.of_nat i =? n - 1)%Z then output else hidden).
Proof.
  intros Hn Hl. unfold MLP_dims in Hl. destruct nk as [a b].
  apply lookup_zip_Some in Hl. destruct Hl as [Ha Hb]. simpl. split.
  - destruct i as [|i]; simpl in *; [congruence|].
    apply lookup_replicate in Ha. tauto.
  - destruct (Z.eqb_spec (Z.of_nat i) (n - 1)) as [E|E].
    + rewrite lookup_app_r in Hb by (rewrite length_replicate; lia).
      rewrite length_replicate in Hb.
      replace (i - Z.to_nat (n - 1)) with 0 in Hb by lia.
      simpl in Hb. congruence.
    + destruct (decide (i < Z.to_nat (n - 1))) as [Hlt|Hge].
      * rewrite lookup_app_l in Hb by (rewrite length_replicate; lia).
        apply lookup_replicate in Hb. tauto.
      * rewrite lookup_app_r in Hb by (rewrite length_replicate; lia).
        rewrite length_replicate in Hb.
        destruct (i - Z.to_nat (n - 1)) as [|k] eqn:Ek; [lia|].
        simpl in Hb. discriminate.
Qed.

Lemma sum_R_zero {A} (f : A -> R) (l : list A) :
  (forall a, f a = 0%R) -> sum_R (map f l) = 0%R.
Proof.
  intros Hf. induction l as [|a l IH]; simpl; [reflexivity|].
  rewrite Hf, IH. lra.
Qed.

Lemma Linear_forward_sunk (l : Linear) (x y : tensor R) :
  sunk l -> Linear_forward l x = Some y ->
  Forall (fun v => v = (-1)%R) (data y).
Proof.
  intros [Hw Hb] Hy. unfold Linear_forward in Hy.
  destruct (split_last (shape x)) as [[pre d]|]; [|discriminate].
  destruct (Nat.eqb d (in_features l)); [|discriminate].
  inversion Hy; subst y; clear Hy. simpl.
  apply Forall_concat, Forall_forall. intros row Hrow.
  apply list_elem_of_In, in_map_iff in Hrow. destruct Hrow as [r [<- _]].
  unfold linear_row. apply Forall_forall. intros v Hv.
  apply list_elem_of_In, in_map_iff in Hv. destruct Hv as [j [<- _]].
  rewrite Hw, Hb. simpl. rewrite sum_R_zero by (intros; lra). lra.
Qed.

Lemma MLP_loop_sunk (n : Z) (ls : list Linear) :
  forall (i : nat) (x y : tensor R),
    ls <> [] -> Forall sunk ls -> Z.of_nat (i + length ls) = n ->
    MLP_loop n i ls x = Some y ->
    Forall (fun v => v = (-1)%R) (data y).
Proof.
  induction ls as [|l ls IH]; intros i x y Hne Hall Hlen Hy; [congruence|].
  simpl in Hy. destruct (Linear_forward l x) as [y0|] eqn:E; [|discriminate].
  apply Forall_cons in Hall. destruct Hall as [Hl Hls].
  destruct ls as [|l' ls'].
  - simpl in Hlen, Hy.
    replace (Z.of_nat i <? n - 1)%Z with false in Hy
      by (symmetry; apply Z.ltb_ge; lia).
    inversion Hy; subst y. eapply Linear_forward_sunk; eauto.
  - eapply (IH (S i)); [discriminate|exact Hls| |exact Hy].
    simpl in *. lia.
Qed.

Lemma Forall_eq_replicate {A} (v : A) (l : list A) :
  Forall (fun u => u = v) l -> l = replicate (length l) v.
Proof.
  induction 1 as [|u l -> _ IH]; simpl; [reflexivity|]. f_equal. exact IH.
Qed.

(** C8. An MLP built with [num_layers >= 1] holds exactly [num_layers]
    linear layers; the first reads [input_dim], the last writes
    [output_dim], and every other interface has width [hidden_dim].  On an
    input of shape [..., input_dim] the forward pass returns a tensor of
    shape [..., output_dim]; every value the loop variable takes before the
    last layer is non-negative (ReLU), and the last layer's output is not
    constrained: with zero weights and bias -1 every output element is -1. *)
Theorem MLP_layers_shape_and_activations
    (input hidden output : nat) (n : Z)
    (params : nat -> (nat -> nat -> R) * (nat -> R))
    (x : tensor R) (pre : list nat) :
  (1 <= n)%Z -> shape x = pre ++ [input] -> wf x ->
  let m := MLP_init input hidden output n params in
  Z.of_nat (length (layers m)) = n
  /\ (forall i l, layers m !! i = Some l ->
        in_features l = (if Nat.eqb i 0 then input else hidden)
        /\ out_features l = (if (Z.of_nat i =? n - 1)%Z then output else hidden))
  /\ (exists tr y,
        MLP_trace m x = Some tr
        /\ MLP_forward m x = Some y
        /\ last tr = Some y
        /\ Z.of_nat (length tr) = n
        /\ shape y = pre ++ [output] /\ wf y
        /\ (forall j t, tr !! j = Some t -> (Z.of_nat j < n - 1)%Z ->
              Forall (fun v => (0 <= v)%R) (data t)))
  /\ (exists y',
        MLP_forward
          (MLP_init input hidden output n (fun _ => (fun _ _ => 0%R, fun _ => (-1)%R)))
          x = Some y'
        /\ data y' = replicate (numel pre * output) (-1)%R).
Proof.
  intros Hn Hs Hwf m.
  assert (Hlen : Z.of_nat (length (layers m)) = n).
  { unfold m, MLP_init; simpl. rewrite length_imap. apply MLP_dims_length. exact Hn. }
  split; [exact Hlen|]. split; [|split].
  - intros i l Hl. unfold m, MLP_init in Hl; simpl in Hl.
    apply list_lookup_imap_Some in Hl. destruct Hl as (nk & Hnk & ->). simpl.
    apply (MLP_dims_lookup input hidden output n i nk Hn Hnk).
  - assert (Hc : chained input (layers m) output).
    { unfold m, MLP_init, MLP_dims; simpl. apply MLP_dims_chained.
      intros i nk. simpl. auto. }
    destruct (MLP_loop_chained n (layers m) 0 x pre input output Hc Hs Hwf)
      as (tr & y & Htr & Hy & Hlast & Hl & Hys & Hywf & Hnn).
    exists tr, y. repeat split; auto.
    + destruct tr as [|t tr]; [|exact Hlast].
      rewrite <- Hl in Hlen. simpl in Hlen. lia.
    + rewrite Hl. exact Hlen.
  - set (m' := MLP_init input hidden output n
                 (fun _ => (fun _ _ => 0%R, fun _ => (-1)%R))).
    assert (Hc' : chained input (layers m') output).
    { unfold m', MLP_init, MLP_dims; simpl. apply MLP_dims_chained.
      intros i nk. simpl. auto. }
    destruct (MLP_loop_chained n (layers m') 0 x pre input output Hc' Hs Hwf)
      as (_ & y' & _ & Hy' & _ & _ & Hy's & Hy'wf & _).
    exists y'. split; [exact Hy'|].
    assert (Hlen' : length (data y') = numel pre * output).
    { rewrite Hy'wf, Hy's, numel_app. simpl. lia. }
    rewrite <- Hlen'. apply Forall_eq_replicate.
    eapply (MLP_loop_sunk _ _ 0 x y'); [| | |exact Hy'].
    + intros E. unfold m', MLP_init in E; simpl in E.
      apply (f_equal length) in E. rewrite length_imap in E.
      pose proof (MLP_dims_length input hidden output n Hn) as HL.
      rewrite E in HL. simpl in HL. lia.
    + unfold m', MLP_init; simpl. apply Forall_forall. intros l Hl.
      apply elem_of_lookup_imap_1 in Hl. destruct Hl as (i & nk & -> & _).
      split; reflexivity.
    + unfold m', MLP_init; simpl. rewrite length_imap.
      apply MLP_dims_length. exact Hn.
Qed.

(** ** Shapes of the tensor operations *)

Lemma resolve_dim_pos (xs : list nat) (i d : nat) :
  0 < d -> resolve_dim xs i (Z.of_nat d) = Some (Some d).
Proof.
  intros Hd. unfold resolve_dim.
  destruct (Z.eqb_spec (Z.of_nat d) (-1)); [lia|].
  destruct (Z.eqb_spec (Z.of_nat d) 0); [lia|].
  destruct (Z.ltb_spec 0 (Z.of_nat d)); [|lia].
  rewrite Nat2Z.id. reflexivity.
Qed.

Lemma mapM_resolved (f : nat -> Z -> option (option nat)) (dims : list nat) :
  (forall i d, 0 < d -> f i (Z.of_nat d) = Some (Some d)) ->
  Forall (fun d => 0 < d) dims ->
  mapM (fun o => o) (imap f (dimsZ dims)) = Some (map Some dims).
Proof.
  revert f. induction dims as [|d dims IH]; intros f Hf Hpos; simpl; [reflexivity|].
  apply Forall_cons in Hpos. destruct Hpos as [Hd Hpos].
  rewrite (Hf 0 d Hd). simpl.
  rewrite (IH (f ∘ S)); [reflexivity| |exact Hpos].
  intros i e He. apply Hf. exact He.
Qed.

Lemma known_dims_Some (dims : list nat) : known_dims (map Some dims) = dims.
Proof.
  unfold known_dims. induction dims as [|d dims IH]; simpl; [reflexivity|].
  f_equal. exact IH.
Qed.

Lemma reshape_shape_pos (xs dims : list nat) :
  Forall (fun d => 0 < d) dims -> numel xs = numel dims ->
  reshape_shape xs (dimsZ dims) = Some dims.
Proof.
  intros Hpos Hn. unfold reshape_shape.
  rewrite (mapM_resolved _ dims (resolve_dim_pos xs) Hpos).
  rewrite known_dims_Some, length_map, Nat.sub_diag, Hn, Nat.eqb_refl.
  reflexivity.
Qed.

Lemma reshape_pos {A} (t : tensor A) (dims : list nat) :
  Forall (fun d => 0 < d) dims -> numel (shape t) = numel dims ->
  reshape t (dimsZ dims) = Some (Tensor dims (data t)).
Proof.
  intros Hpos Hn. unfold reshape. rewrite reshape_shape_pos by assumption.
  reflexivity.
Qed.

Lemma numel_pos (dims : list nat) : Forall (fun d => 0 < d) dims -> 0 < numel dims.
Proof.
  induction 1 as [|d dims Hd _ IH]; simpl; [lia|]. nia.
Qed.

Lemma reshape_infer {A} (t : tensor A) (d0 : nat) (dims : list nat) :
  Forall (fun d => 0 < d) dims -> numel (shape t) = d0 * numel dims ->
  reshape t ((-1)%Z :: dimsZ dims) = Some (Tensor (d0 :: dims) (data t)).
Proof.
  intros Hpos Hn. pose proof (numel_pos dims Hpos) as Hk.
  unfold reshape, reshape_shape. simpl imap.
  change (resolve_dim (shape t) 0 (-1)) with (@Some (option nat) None).
  unfold dimsZ.
  change (imap (resolve_dim (shape t) ∘ S) (map Z.of_nat dims))
    with (imap (resolve_dim (shape t) ∘ S) (dimsZ dims)).
  simpl mapM.
  rewrite (mapM_resolved (resolve_dim (shape t) ∘ S) dims)
    by (try exact Hpos; intros i d Hd; apply resolve_dim_pos; exact Hd).
  simpl. rewrite known_dims_Some, length_map.
  replace (S (length dims) - length dims) with 1 by lia.
  destruct (Nat.eqb_spec (numel dims) 0) as [E|_]; [lia|].
  rewrite Hn, Nat.Div0.mod_mul, Nat.eqb_refl, Nat.div_mul by lia.
  simpl. f_equal. f_equal. f_equal.
  clear. induction dims as [|d dims IH]; simpl; [reflexivity|].
  f_equal. exact IH.
Qed.

Lemma Conv2D_forward_shape (cv : Conv2D) (x : tensor R) (n h w : nat) :
  shape x = [n; c_in cv; h; w] ->
  ksize cv <= h + 2 * cpad cv -> ksize cv <= w + 2 * cpad cv ->
  exists y, Conv2D_forward cv x = Some y
            /\ shape y = [n; c_out cv; h + 2 * cpad cv + 1 - ksize cv;
                          w + 2 * cpad cv + 1 - ksize cv]
            /\ wf y.
Proof.
  intros Hs Hh Hw. unfold Conv2D_forward. rewrite Hs, Nat.eqb_refl.
  apply Nat.leb_le in Hh, Hw. rewrite Hh, Hw. simpl andb.
  eexists; split; [reflexivity|]. split; [reflexivity|apply wf_tinit].
Qed.

Lemma transpose_shape {A} `{Inhabited A} (t : tensor A) (perm : list nat) :
  is_perm (length (shape t)) perm = true ->
  exists y, transpose t perm = Some y
            /\ shape y = map (fun p => shape t !!! p) perm /\ wf y.
Proof.
  intros Hp. unfold transpose. rewrite Hp.
  eexists; split; [reflexivity|]. split; [reflexivity|apply wf_tinit].
Qed.

Lemma bmm_shape (x y : tensor R) (b m k n : nat) :
  shape x = [b; m; k] -> shape y = [b; k; n] ->
  exists z, bmm x y = Some z /\ shape z = [b; m; n] /\ wf z.
Proof.
  intros Hx Hy. unfold bmm. rewrite Hx, Hy, !Nat.eqb_refl. simpl andb.
  eexists; split; [reflexivity|]. split; [reflexivity|apply wf_tinit].
Qed.

Lemma add_onto_shape (a b : tensor R) :
  broadcast_shape (shape a) (shape b) = Some (shape a) ->
  exists y, add a b = Some y /\ shape y = shape a /\ wf y.
Proof.
  intros Hb. unfold add. rewrite Hb.
  eexists; split; [reflexivity|]. split; [reflexivity|apply wf_tinit].
Qed.

Lemma broadcast_dim_same (d : nat) : broadcast_dim d d = Some d.
Proof. unfold broadcast_dim. rewrite Nat.eqb_refl. reflexivity. Qed.

Lemma broadcast_rev_refl (r : list nat) : broadcast_rev r r = Some r.
Proof.
  induction r as [|d r IH]; simpl; [reflexivity|].
  rewrite broadcast_dim_same, IH. reflexivity.
Qed.

Lemma broadcast_shape_refl (s : list nat) : broadcast_shape s s = Some s.
Proof.
  unfold broadcast_shape. rewrite broadcast_rev_refl. simpl.
  rewrite reverse_involutive. reflexivity.
Qed.

Lemma numel_take_drop (k : nat) (s : list nat) :
  numel (take k s) * numel (drop k s) = numel s.
Proof. rewrite <- numel_app, take_drop. reflexivity. Qed.

(** Flattening keeps the buffer, so a well-formed tensor stays well formed. *)
Lemma flatten_wf {A} (t y : tensor A) (start stop : Z) :
  wf t -> flatten t start stop = Some y -> wf y /\ data y = data t.
Proof.
  intros Hwf Hf. unfold flatten in Hf.
  destruct (norm_index _ start) as [a|]; [|discriminate].
  destruct (norm_index _ stop) as [b|]; [|discriminate].
  destruct (Nat.leb_spec a b) as [Hab|]; [|discriminate].
  inversion Hf; subst y; clear Hf. split; [|reflexivity].
  unfold wf in *; simpl. rewrite Hwf, !numel_app. simpl.
  rewrite <- (numel_take_drop a (shape t)).
  rewrite <- (numel_take_drop (S b - a) (drop a (shape t))).
  rewrite drop_drop. replace (a + (S b - a)) with (S b) by lia. lia.
Qed.

(** *** What a successful call tells about the shapes *)

Lemma resolve_dim_nat (xs : list nat) (i d : nat) :
  resolve_dim xs i (Z.of_nat d)
  = if Nat.eqb d 0 then Some <$> xs !! i else Some (Some d).
Proof.
  destruct (Nat.eqb_spec d 0) as [->|Hd].
  - reflexivity.
  - apply resolve_dim_pos. lia.
Qed.

Lemma known_dims_all_Some (rs : list (option nat)) :
  Forall (fun r => is_Some r) rs -> map Some (known_dims rs) = rs.
Proof.
  unfold known_dims. induction 1 as [|r rs [v ->] _ IH]; simpl; [reflexivity|].
  f_equal. exact IH.
Qed.

(** Reshaping to a target without [-1]: positive entries are kept and a
    zero entry is the extent of the input at that position. *)
Lemma reshape_shape_dimsZ_inv (xs s s' : list nat) :
  reshape_shape xs (dimsZ s) = Some s' ->
  length s' = length s
  /\ forall i d, s !! i = Some d ->
       s' !! i = Some (if Nat.eqb d 0 then default 0 (xs !! i) else d)
       /\ (d = 0 -> is_Some (xs !! i)).
Proof.
  unfold reshape_shape. intros Hs.
  destruct (mapM (fun o => o) (imap (resolve_dim xs) (dimsZ s))) as [rs|] eqn:Hrs;
    [|discriminate].
  apply mapM_Some_1 in Hrs.
  assert (Hlen : length rs = length s).
  { rewrite <- (Forall2_length _ _ _ Hrs), length_imap.
    unfold dimsZ. apply length_map. }
  assert (Hent : forall i d, s !! i = Some d ->
             rs !! i = Some (Some (if Nat.eqb d 0 then default 0 (xs !! i) else d))
             /\ (d = 0 -> is_Some (xs !! i))).
  { intros i d Hd.
    assert (Himap : imap (resolve_dim xs) (dimsZ s) !! i
                    = Some (resolve_dim xs i (Z.of_nat d))).
    { rewrite list_lookup_imap. unfold dimsZ.
      change (map Z.of_nat s) with (Z.of_nat <$> s).
      rewrite list_lookup_fmap, Hd. reflexivity. }
    destruct (Forall2_lookup_l _ _ _ _ _ Hrs Himap) as (r & Hr & Hres).
    rewrite resolve_dim_nat in Hres.
    destruct (Nat.eqb_spec d 0) as [->|Hne].
    - destruct (xs !! i) as [v|]; [|discriminate].
      simpl in Hres. inversion Hres; subst r. split; [exact Hr|eauto].
    - inversion Hres; subst r. split; [exact Hr|]. intros; contradiction. }
  assert (Hall : Forall (fun r => is_Some r) rs).
  { apply Forall_forall. intros r Hr. apply list_elem_of_lookup in Hr.
    destruct Hr as (i & Hi).
    destruct (lookup_lt_is_Some_2 s i) as [d Hd];
      [rewrite <- Hlen; apply lookup_lt_Some in Hi; exact Hi|].
    destruct (Hent i d Hd) as [Hri _]. rewrite Hi in Hri. inversion Hri. eauto. }
  pose proof (known_dims_all_Some rs Hall) as Hk.
  assert (Hklen : length (known_dims rs) = length rs).
  { rewrite <- Hk at 2. rewrite length_map. reflexivity. }
  rewrite Hklen, Nat.sub_diag in Hs.
  destruct (Nat.eqb (numel xs) (numel (known_dims rs))); [|discriminate].
  inversion Hs; subst s'. split; [lia|].
  intros i d Hd. destruct (Hent i d Hd) as [Hri Hz]. split; [|exact Hz].
  rewrite <- Hk in Hri.
  change (map Some (known_dims rs)) with (Some <$> known_dims rs) in Hri.
  rewrite list_lookup_fmap in Hri.
  destruct (known_dims rs !! i) as [v|]; [|discriminate].
  simpl in Hri. inversion Hri. reflexivity.
Qed.

Lemma reshape_inv {A} (t t' : tensor A) (tgt : list Z) :
  reshape t tgt = Some t' ->
  reshape_shape (shape t) tgt = Some (shape t') /\ data t' = data t.
Proof.
  unfold reshape. intros Ht.
  destruct (reshape_shape (shape t) tgt) as [s|]; [|discriminate].
  inversion Ht; subst t'. auto.
Qed.






(** ** Softmax *)







(** ** Blocks of a buffer *)

Lemma chunk_0 {A} (n : nat) (l : list A) : chunk 0 n l = take n l.
Proof. reflexivity. Qed.

Lemma chunk_S {A} (r n : nat) (l : list A) : chunk (S r) n l = chunk r n (drop n l).
Proof.
  unfold chunk. rewrite drop_drop. reflexivity.
Qed.

Lemma chunk_app_r {A} (r n : nat) (l1 l2 : list A) :
  length l1 = n -> chunk (S r) n (l1 ++ l2) = chunk r n l2.
Proof.
  intros Hl. rewrite chunk_S. subst n. rewrite drop_app_length. reflexivity.
Qed.

Lemma chunk_concat_map {A} (f : nat -> list A) (d N r : nat) :
  (forall i, i < N -> length (f i) = d) -> r < N ->
  chunk r d (concat (map f (seq 0 N))) = f r.
Proof.
  revert f N. induction r as [|r IH]; intros f N Hf Hr.
  - destruct N as [|N]; [lia|]. simpl. rewrite chunk_0.
    rewrite <- (Hf 0) by lia. apply take_app_length.
  - destruct N as [|N]; [lia|]. simpl.
    rewrite chunk_app_r by (apply Hf; lia).
    rewrite <- seq_shift, map_map.
    apply (IH (fun i => f (S i)) N); [intros; apply Hf; lia|lia].
Qed.


Lemma chunk_lookups {A} `{Inhabited A} (r W : nat) (l : list A) :
  S r * W <= length l ->
  map (fun x => l !!! (r * W + x)) (seq 0 W) = chunk r W l.
Proof.
  intros Hl. apply list_eq. intros i. unfold chunk.
  change (map (fun x => l !!! (r * W + x)) (seq 0 W))
    with ((fun x => l !!! (r * W + x)) <$> seq 0 W).
  rewrite list_lookup_fmap.
  destruct (decide (i < W)) as [Hi|Hi].
  - rewrite lookup_seq_lt by exact Hi. simpl.
    rewrite lookup_take_lt by exact Hi. rewrite lookup_drop.
    symmetry. apply list_lookup_lookup_total_lt. simpl in Hl. lia.
  - rewrite lookup_seq_ge by lia. rewrite lookup_take_ge by lia. reflexivity.
Qed.




Lemma softmax_last_data (t : tensor R) (pre : list nat) (d : nat) :
  shape t = pre ++ [d] ->
  softmax_last t
  = Some (Tensor (shape t)
            (concat (map (fun r => softmax_row (chunk r d (data t)))
                       (seq 0 (numel pre))))).
Proof.
  intros Hs. unfold softmax_last. rewrite Hs, split_last_snoc. reflexivity.
Qed.


(** ** The attention map *)


(** The weights before dropout for inputs of the documented shapes: they
    exist, have shape [B, Q, heads, H, W], and are the row-wise softmax of
    some buffer [pre] split into blocks of [H * W] elements. *)
Lemma MultiHeadAttentionMap_weights_softmax
    (query_dim hidden heads : nat) (p : R) (use_bias : bool)
    (pq : LinearParams) (pk : ConvParams) (m : MultiHeadAttentionMap)
    (B Q H W : nat) (q k : tensor R) (mask : option (tensor R)) :
  MultiHeadAttentionMap_init query_dim hidden heads p use_bias pq pk = Some m ->
  hidden mod heads = 0 ->
  0 < B -> 0 < Q -> 0 < H -> 0 < W ->
  shape q = [B; Q; query_dim] ->
  shape k = [B; query_dim; H; W] ->
  (forall mk, mask = Some mk ->
     broadcast_shape [B; Q; heads; H; W] (shape mk) = Some [B; Q; heads; H; W]) ->
  exists pre : list R,
    length pre = B * Q * heads * (H * W)
    /\ MultiHeadAttentionMap_weights m q k mask
       = Some (Tensor [B; Q; heads; H; W]
                 (concat (map (fun r => softmax_row (chunk r (H * W) pre))
                            (seq 0 (B * Q * heads))))).
Proof.
  intros Hinit Hdiv HB HQ HH HW Hq Hk Hmask.
  unfold MultiHeadAttentionMap_init in Hinit.
  destruct (Nat.eqb_spec heads 0) as [|Hheads]; [discriminate|].
  destruct (Nat.eqb_spec hidden 0) as [|Hhidden]; [discriminate|].
  simpl in Hinit. inversion Hinit; subst m; clear Hinit.
  set (c := hidden / heads).
  assert (Hc : hidden = heads * c).
  { unfold c. apply Nat.Div0.div_exact. exact Hdiv. }
  assert (Hcpos : 0 < c) by nia.
  unfold MultiHeadAttentionMap_weights. cbn [q_proj k_proj mha_num_heads mha_hidden_dim normalize_fact].
  destruct (Linear_forward_shape (mkLinear query_dim hidden use_bias pq) q [B; Q] Hq)
    as (q1 & -> & Hq1 & _).
  cbn [mbind option_bind].
  destruct (Conv2D_forward_shape (mkConv2D query_dim hidden 1 0 use_bias pk) k B H W Hk)
    as (k1 & -> & Hk1 & _); [simpl; lia|simpl; lia|].
  cbn [mbind option_bind].
  simpl in Hq1, Hk1.
  replace (H + 0 + 1 - 1) with H in Hk1 by lia.
  replace (W + 0 + 1 - 1) with W in Hk1 by lia.
  rewrite Hq1, Hk1.
  change (py_index [B; Q; hidden] 0) with (Some B).
  change (py_index [B; Q; hidden] 1) with (Some Q).
  change (py_index [B; hidden; H; W] (-2)) with (Some H).
  change (py_index [B; hidden; H; W] (-1)) with (Some W).
  unfold floordiv. destruct (Nat.eqb_spec heads 0) as [|_]; [contradiction|].
  fold c. cbn [mbind option_bind].
  assert (Hheadspos : 0 < heads) by lia.
  rewrite (reshape_pos q1 [B; Q; heads; c])
    by (first [pos_dims | rewrite Hq1; simpl; nia]).
  cbn [mbind option_bind].
  rewrite (reshape_pos k1 [B; heads; c; H; W])
    by (first [pos_dims | rewrite Hk1; simpl; nia]).
  cbn [mbind option_bind].
  destruct (transpose_shape (Tensor [B; Q; heads; c] (data q1)) [0; 2; 1; 3] eq_refl)
    as (qh & -> & Hqh & _).
  cbn [mbind option_bind]. simpl in Hqh.
  rewrite (reshape_infer qh (B * heads) [Q; c])
    by (first [pos_dims | rewrite Hqh; simpl; nia]).
  cbn [mbind option_bind].
  assert (HHW : 0 < H * W) by nia.
  rewrite (reshape_infer (Tensor [B; heads; c; H; W] (data k1)) (B * heads) [c; H * W])
    by (first [pos_dims | simpl; nia]).
  cbn [mbind option_bind].
  match goal with
  | |- context [bmm ?x ?y] =>
      destruct (bmm_shape x y (B * heads) Q c (H * W) eq_refl eq_refl)
        as (w0 & -> & Hw0 & _)
  end.
  cbn [mbind option_bind].
  rewrite (reshape_pos w0 [B; heads; Q; H; W])
    by (first [pos_dims | rewrite Hw0; simpl; nia]).
  cbn [mbind option_bind].
  destruct (transpose_shape (Tensor [B; heads; Q; H; W] (data w0)) [0; 2; 1; 3; 4] eq_refl)
    as (w1 & -> & Hw1 & Hw1wf).
  cbn [mbind option_bind]. simpl in Hw1.
  assert (Hw2 : exists w2,
             match mask with Some mk => add w1 mk | None => Some w1 end = Some w2
             /\ shape w2 = [B; Q; heads; H; W] /\ wf w2).
  { destruct mask as [mk|].
    - destruct (add_onto_shape w1 mk) as (w2 & Hw2 & Hs2 & Hwf2).
      + rewrite Hw1. apply Hmask. reflexivity.
      + exists w2. rewrite Hs2, Hw1. auto.
    - exists w1. auto. }
  destruct Hw2 as (w2 & -> & Hw2 & Hw2wf).
  cbn [mbind option_bind].
  exists (data w2). split.
  { rewrite Hw2wf, Hw2. simpl. nia. }
  unfold flatten. rewrite Hw2.
  change (norm_index (length [B; Q; heads; H; W]) 3) with (Some 3).
  change (norm_index (length [B; Q; heads; H; W]) (-1)) with (Some 4).
  cbn [Nat.leb mbind option_bind take drop app Nat.sub].
  rewrite (softmax_last_data _ [B; Q; heads] (H * W))
    by (simpl; rewrite Nat.mul_1_r; reflexivity).
  cbn [mbind option_bind shape data].
  rewrite reshape_pos by (first [pos_dims | simpl; nia]).
  cbn [data]. do 5 f_equal. simpl. lia.
Qed.

Lemma lookup_total_chunk {A} `{Inhabited A} (r W j : nat) (l : list A) :
  S r * W <= length l -> j < W -> chunk r W l !!! j = l !!! (r * W + j).
Proof.
  intros Hl Hj. rewrite <- (chunk_lookups r W l Hl).
  apply (lookup_total_map_seq (fun x => l !!! (r * W + x))). exact Hj.
Qed.


Lemma list5_of_length {A} (l : list A) :
  length l = 5 -> exists a b c d e, l = [a; b; c; d; e].
Proof.
  destruct l as [|a [|b [|c [|d [|e [|? ?]]]]]]; try discriminate. eauto 10.
Qed.






(** ** The mask head *)

(** C3 (defect). With two images and two queries the fused tensor has one
    row per (image, query) pair, in the order (0,0), (0,1), (1,0), (1,1) of
    the flattened attention maps, but [tile] repeats the whole batch, so
    the rows hold the images 0, 1, 0, 1: the row of (0,1) pairs the
    attention map of query (0,1), the value 2, with image 1, the value 20. *)
Theorem MaskHeadFPNConv_fuse_two_images :
  MaskHeadFPNConv_fuse two_images two_by_two_attention
  = Some (Tensor [4; 2; 1; 1] [10; 1; 20; 2; 10; 3; 20; 4]%Z).
Proof. reflexivity. Qed.

(** *** Construction *)

Lemma kaiming_uniform_Some (c k : nat) :
  is_Some (kaiming_uniform c k) <-> 0 < c /\ 0 < k.
Proof.
  unfold kaiming_uniform. destruct (Nat.eqb_spec (c * k * k) 0) as [E|E]; split.
  - intros [u Hu]. discriminate.
  - intros [Hc Hk]. nia.
  - intros _. nia.
  - eauto.
Qed.

(** What a successful construction tells: no convolution lacks input
    channels, there are at most four pyramid depths, and the layers are
    the ones [__init__] lists. *)
Lemma MaskHeadFPNConv_init_fields
    (input_dim : nat) (fpn_dims : list nat) (context_dim num_groups : nat)
    (p : MaskHeadParams) (m : MaskHeadFPNConv) :
  MaskHeadFPNConv_init input_dim fpn_dims context_dim num_groups p = Some m ->
  (0 < input_dim /\ 16 <= context_dim)
  /\ conv0 m = make_layers input_dim input_dim 3 num_groups (mp_conv0 p)
  /\ conv_inter m
     = [make_layers input_dim (context_dim / 2) 3 num_groups (mp_inter p 0);
        make_layers (context_dim / 2) (context_dim / 4) 3 num_groups (mp_inter p 1);
        make_layers (context_dim / 4) (context_dim / 8) 3 num_groups (mp_inter p 2);
        make_layers (context_dim / 8) (context_dim / 16) 3 num_groups (mp_inter p 3)]
  /\ conv_out m = mkConv2D (context_dim / 16) 1 3 1 true (mp_out p)
  /\ nearest m = mp_nearest p
  /\ Forall2 (fun i cv =>
                exists fd od,
                  fpn_dims !! i = Some fd /\ 0 < fd
                  /\ [context_dim / 2; context_dim / 4; context_dim / 8;
                      context_dim / 16] !! i = Some od
                  /\ cv = mkConv2D fd od 1 0 true (mp_adapter p i))
       (seq 0 (length fpn_dims)) (adapter m).
Proof.
  intros Hinit. unfold MaskHeadFPNConv_init in Hinit.
  destruct (kaiming_uniform input_dim 3) as [u0|] eqn:K0; [|discriminate].
  cbn [mbind option_bind] in Hinit.
  destruct (mapM _ (take _ _)) as [us|]; [|discriminate].
  cbn [mbind option_bind] in Hinit.
  change (py_index (inter_dims input_dim context_dim) (-1))
    with (Some (context_dim / 16)) in Hinit.
  cbn [mbind option_bind] in Hinit.
  destruct (kaiming_uniform (context_dim / 16) 3) as [u1|] eqn:K1; [|discriminate].
  cbn [mbind option_bind] in Hinit.
  destruct (mapM _ (seq 0 (length fpn_dims))) as [adapters|] eqn:Had; [|discriminate].
  cbn [mbind option_bind] in Hinit.
  inversion Hinit; subst m; clear Hinit. cbn [conv0 conv_inter conv_out adapter nearest].
  assert (H0 : 0 < input_dim) by (apply (kaiming_uniform_Some input_dim 3); eauto).
  assert (H1 : 0 < context_dim / 16) by (apply (kaiming_uniform_Some _ 3); eauto).
  split.
  { split; [exact H0|].
    destruct (Nat.le_gt_cases 16 context_dim) as [Hle|Hlt]; [exact Hle|].
    rewrite Nat.div_small in H1 by exact Hlt. lia. }
  split; [reflexivity|]. split; [reflexivity|]. split; [reflexivity|].
  split; [reflexivity|].
  apply mapM_Some_1 in Had.
  eapply Forall2_impl; [exact Had|].
  intros i cv Hf. cbn beta in Hf.
  destruct (fpn_dims !! i) as [fd|]; [|discriminate]. cbn [mbind option_bind] in Hf.
  replace (i + 1) with (S i) in Hf by lia.
  change (inter_dims input_dim context_dim !! S i)
    with ([context_dim / 2; context_dim / 4; context_dim / 8; context_dim / 16] !! i)
    in Hf.
  destruct ([context_dim / 2; context_dim / 4; context_dim / 8; context_dim / 16] !! i)
    as [od|] eqn:Eod; [|discriminate].
  cbn [mbind option_bind] in Hf.
  destruct (kaiming_uniform fd 1) as [u|] eqn:Kf; [|discriminate].
  cbn [mbind option_bind] in Hf. inversion Hf.
  exists fd, od. split; [reflexivity|]. split; [|auto].
  apply (kaiming_uniform_Some fd 1). eauto.
Qed.

(** Construction succeeds when every convolution has input channels and
    there are at most four pyramid depths. *)
Lemma MaskHeadFPNConv_init_returns
    (input_dim : nat) (fpn_dims : list nat) (context_dim num_groups : nat)
    (p : MaskHeadParams) :
  0 < input_dim -> 16 <= context_dim ->
  Forall (fun d => 0 < d) fpn_dims -> length fpn_dims <= 4 ->
  is_Some (MaskHeadFPNConv_init input_dim fpn_dims context_dim num_groups p).
Proof.
  intros H0 Hc Hpos Hlen. unfold MaskHeadFPNConv_init.
  assert (Hd16 : 0 < context_dim / 16).
  { apply Nat.div_str_pos. lia. }
  assert (Hd8 : 0 < context_dim / 8) by (apply Nat.div_str_pos; lia).
  assert (Hd4 : 0 < context_dim / 4) by (apply Nat.div_str_pos; lia).
  assert (Hd2 : 0 < context_dim / 2) by (apply Nat.div_str_pos; lia).
  assert (Hk : forall c, 0 < c -> forall k, 0 < k -> kaiming_uniform c k = Some tt).
  { intros c Hcp k Hkp. unfold kaiming_uniform.
    destruct (Nat.eqb_spec (c * k * k) 0); [nia|reflexivity]. }
  rewrite (Hk input_dim H0 3) by lia. cbn [mbind option_bind].
  assert (Hin : is_Some (mapM (fun in_dims => kaiming_uniform in_dims 3)
                           (take (length (inter_dims input_dim context_dim) - 1)
                              (inter_dims input_dim context_dim)))).
  { change (take _ _)
      with [input_dim; context_dim / 2; context_dim / 4; context_dim / 8].
    apply mapM_is_Some_2.
    repeat (apply List.Forall_cons; [unfold compose; rewrite Hk by lia; eauto|]).
    apply List.Forall_nil. }
  destruct Hin as [us ->]. cbn [mbind option_bind].
  change (py_index (inter_dims input_dim context_dim) (-1))
    with (Some (context_dim / 16)).
  cbn [mbind option_bind]. rewrite (Hk _ Hd16 3) by lia. cbn [mbind option_bind].
  match goal with
  | |- is_Some (mapM ?f ?l ≫= _) => assert (Had : is_Some (mapM f l))
  end.
  { apply mapM_is_Some_2, Forall_forall. intros i Hi.
    apply list_elem_of_In, in_seq in Hi.
    destruct (lookup_lt_is_Some_2 fpn_dims i) as [fd Hfd]; [lia|].
    unfold compose. rewrite Hfd. cbn [mbind option_bind].
    assert (Hfdpos : 0 < fd).
    { rewrite Forall_forall in Hpos. apply Hpos.
      apply list_elem_of_lookup. eauto. }
    destruct i as [|[|[|[|i]]]]; cbn; try lia;
      rewrite (Hk fd Hfdpos 1) by lia; cbn; eauto. }
  destruct Had as [adapters ->]. cbn [mbind option_bind]. eauto.
Qed.

(** C4, as stated, fails for the default [context_dim = 256]: the four
    intermediate blocks write 128, 64, 32 and 16 channels, not 256, 128,
    64 and 32. *)
Lemma MaskHeadFPNConv_depths_counterexample :
  (fun m => map stage_out (conv_inter m))
    <$> MaskHeadFPNConv_init 264 [1024; 512; 256] 256 8 zero_mask_params
  = Some [128; 64; 32; 16]
  /\ [128; 64; 32; 16] <> [256; 256 / 2; 256 / 4; 256 / 8].
Proof. split; [reflexivity|discriminate]. Qed.

(** C4 (amended). A constructed mask head has four intermediate blocks;
    they read [input_dim], [context_dim // 2], [// 4], [// 8] channels and
    write [context_dim // 2], [// 4], [// 8], [// 16], each output depth
    being half of the previous one, and the final convolution is 3x3 with
    padding 1 from [context_dim // 16] channels to one. *)
Theorem MaskHeadFPNConv_init_depths
    (input_dim : nat) (fpn_dims : list nat) (context_dim num_groups : nat)
    (p : MaskHeadParams) (m : MaskHeadFPNConv) :
  MaskHeadFPNConv_init input_dim fpn_dims context_dim num_groups p = Some m ->
  map stage_in (conv_inter m)
  = [input_dim; context_dim / 2; context_dim / 4; context_dim / 8]
  /\ map stage_out (conv_inter m)
     = [context_dim / 2; context_dim / 4; context_dim / 8; context_dim / 16]
  /\ (context_dim / 4 = context_dim / 2 / 2
      /\ context_dim / 8 = context_dim / 4 / 2
      /\ context_dim / 16 = context_dim / 8 / 2)
  /\ c_in (conv_out m) = context_dim / 16
  /\ c_out (conv_out m) = 1
  /\ ksize (conv_out m) = 3
  /\ cpad (conv_out m) = 1.
Proof.
  intros Hinit.
  destruct (MaskHeadFPNConv_init_fields _ _ _ _ _ _ Hinit)
    as (_ & _ & Hci & Hco & _).
  rewrite Hci, Hco.
  repeat split; try reflexivity.
  all: rewrite Nat.Div0.div_div; reflexivity.
Qed.

Lemma MaskHeadFPNConv_init_length
    (input_dim : nat) (fpn_dims : list nat) (context_dim num_groups : nat)
    (p : MaskHeadParams) (m : MaskHeadFPNConv) :
  MaskHeadFPNConv_init input_dim fpn_dims context_dim num_groups p = Some m ->
  length fpn_dims <= 4 /\ Forall (fun d => 0 < d) fpn_dims.
Proof.
  intros Hinit.
  destruct (MaskHeadFPNConv_init_fields _ _ _ _ _ _ Hinit) as (_ & _ & _ & _ & _ & Had).
  split.
  - destruct (decide (length fpn_dims <= 4)) as [Hle|Hgt]; [exact Hle|exfalso].
    destruct (Forall2_lookup_l _ _ _ 4 4 Had) as (cv & _ & fd & od & _ & _ & Hod & _).
    { apply lookup_seq. lia. }
    discriminate Hod.
  - apply Forall_forall. intros d Hd. apply list_elem_of_lookup in Hd.
    destruct Hd as (i & Hi).
    destruct (Forall2_lookup_l _ _ _ i i Had) as (cv & _ & fd & od & Hfd & Hpos & _).
    { apply lookup_seq. apply lookup_lt_Some in Hi. lia. }
    rewrite Hi in Hfd. inversion Hfd. subst fd. exact Hpos.
Qed.

(** *** Shapes through the layers of the mask head *)

Lemma Conv2D_forward_inv (cv : Conv2D) (x y : tensor R) :
  Conv2D_forward cv x = Some y ->
  exists n h w,
    shape x = [n; c_in cv; h; w]
    /\ shape y = [n; c_out cv; h + 2 * cpad cv + 1 - ksize cv;
                  w + 2 * cpad cv + 1 - ksize cv].
Proof.
  unfold Conv2D_forward. intros Hy.
  destruct (shape x) as [|n [|ci [|h [|w [|? ?]]]]]; try discriminate.
  destruct (Nat.eqb_spec ci (c_in cv)) as [->|]; [|discriminate].
  destruct (_ && _); [|discriminate].
  inversion Hy; subst y. exists n, h, w. split; reflexivity.
Qed.

Lemma GroupNorm_forward_inv (gn : GroupNorm) (x y : tensor R) :
  GroupNorm_forward gn x = Some y -> shape y = shape x.
Proof.
  unfold GroupNorm_forward. intros Hy.
  destruct (shape x) as [|n [|c [|h [|w [|? ?]]]]]; try discriminate.
  destruct (_ && _); [|discriminate].
  inversion Hy; subst y. reflexivity.
Qed.

Lemma ConvBlock_forward_inv (b : ConvBlock) (x y : tensor R) :
  ConvBlock_forward b x = Some y ->
  exists n h w h' w',
    shape x = [n; stage_in b; h; w] /\ shape y = [n; stage_out b; h'; w'].
Proof.
  unfold ConvBlock_forward. intros Hy. bind_inv Hy.
  inversion Hy; subst y; clear Hy.
  apply Conv2D_forward_inv in E. destruct E as (n & h & w & Hx & Ht).
  apply GroupNorm_forward_inv in E0.
  exists n, h, w. eexists. eexists. split; [exact Hx|].
  unfold relu, tmap; simpl. rewrite E0. exact Ht.
Qed.

Lemma tile_shape4 {A} `{Inhabited A} (t : tensor A) (q n c h w : nat) :
  shape t = [n; c; h; w] ->
  shape (tile t [q; 1; 1; 1]) = [n * q; c * 1; h * 1; w * 1].
Proof. intros Hs. unfold tile. rewrite Hs. reflexivity. Qed.

Lemma interpolate_inv (src : nat -> nat -> nat -> nat) (x y : tensor R)
    (size : list nat) :
  interpolate src x size = Some y ->
  exists n c h w h2 w2,
    shape x = [n; c; h; w] /\ size = [h2; w2] /\ shape y = [n; c; h2; w2].
Proof.
  unfold interpolate. intros Hy.
  destruct (shape x) as [|n [|c [|h [|w [|? ?]]]]]; try discriminate.
  destruct size as [|h2 [|w2 [|? ?]]]; try discriminate.
  inversion Hy; subst y. exists n, c, h, w, h2, w2. auto.
Qed.

Lemma add_inv (a b y : tensor R) :
  add a b = Some y -> broadcast_shape (shape a) (shape b) = Some (shape y).
Proof.
  unfold add. intros Hy. destruct (broadcast_shape _ _) as [s|]; [|discriminate].
  inversion Hy; subst y. reflexivity.
Qed.

Lemma broadcast4_channel (n1 n2 c h1 h2 w1 w2 : nat) (s : list nat) :
  broadcast_shape [n1; c; h1; w1] [n2; c; h2; w2] = Some s ->
  exists n h w, s = [n; c; h; w].
Proof.
  unfold broadcast_shape.
  change (reverse [n1; c; h1; w1]) with [w1; h1; c; n1].
  change (reverse [n2; c; h2; w2]) with [w2; h2; c; n2].
  simpl. rewrite broadcast_dim_same.
  destruct (broadcast_dim w1 w2) as [w|]; [|discriminate].
  destruct (broadcast_dim h1 h2) as [h|]; [|discriminate].
  destruct (broadcast_dim n1 n2) as [n|]; [|discriminate].
  simpl. intros Hs. inversion Hs. exists n, h, w. reflexivity.
Qed.

(** One fusion step leaves as many channels as its conv block writes. *)
Lemma MaskHeadFPNConv_step_channels (src : nat -> nat -> nat -> nat) (nq : nat)
    (inter_layer : ConvBlock)
    (adapter_layer : Conv2D) (feat x y : tensor R) :
  c_out adapter_layer = stage_out inter_layer ->
  MaskHeadFPNConv_step src nq inter_layer adapter_layer feat x = Some y ->
  exists n h w, shape y = [n; stage_out inter_layer; h; w].
Proof.
  intros Hc Hy. unfold MaskHeadFPNConv_step in Hy. bind_inv Hy.
  apply Conv2D_forward_inv in E. destruct E as (n & h & w & _ & Ht).
  rewrite (tile_shape4 t nq _ _ _ _ Ht) in *.
  apply ConvBlock_forward_inv in E0.
  destruct E0 as (n' & h0 & w0 & h' & w' & _ & Ht0).
  apply interpolate_inv in E1.
  destruct E1 as (n1 & c1 & h1 & w1 & h2 & w2 & Hs1 & Hsize & Ht1).
  rewrite Ht0 in Hs1. inversion Hs1; subst n1 c1 h1 w1; clear Hs1.
  apply add_inv in Hy.
  rewrite (tile_shape4 t nq _ _ _ _ Ht), Ht1, Hc, Nat.mul_1_r in Hy.
  apply broadcast4_channel in Hy. exact Hy.
Qed.

(** The loop ignores adapters and pyramid levels beyond the number of
    stages it is given. *)
Lemma MaskHeadFPNConv_loop_take (src : nat -> nat -> nat -> nat) (nq : nat)
    (inters : list ConvBlock) :
  forall (adapters : list Conv2D) (fpns : list (tensor R)) (x : tensor R),
    MaskHeadFPNConv_loop src nq inters adapters fpns x
    = MaskHeadFPNConv_loop src nq inters (take (length inters) adapters)
        (take (length inters) fpns) x.
Proof.
  induction inters as [|b inters IH]; intros adapters fpns x.
  - destruct adapters, fpns; reflexivity.
  - destruct adapters as [|cv adapters], fpns as [|feat fpns]; try reflexivity.
    simpl. destruct (MaskHeadFPNConv_step src nq b cv feat x) as [x'|]; [|reflexivity].
    simpl. apply IH.
Qed.

(** The loop returns its input unchanged or a tensor with as many channels
    as one of the stages that has an adapter writes. *)
Lemma MaskHeadFPNConv_loop_channels (src : nat -> nat -> nat -> nat) (nq : nat)
    (inters : list ConvBlock) :
  forall (adapters : list Conv2D) (fpns : list (tensor R)) (x y : tensor R),
    MaskHeadFPNConv_loop src nq inters adapters fpns x = Some y ->
    (forall i b cv, inters !! i = Some b -> adapters !! i = Some cv ->
                    c_out cv = stage_out b) ->
    y = x
    \/ exists i b n h w,
         i < length adapters /\ inters !! i = Some b
         /\ shape y = [n; stage_out b; h; w].
Proof.
  induction inters as [|b inters IH]; intros adapters fpns x y Hy Hc.
  - destruct adapters, fpns; inversion Hy; auto.
  - destruct adapters as [|cv adapters]; [inversion Hy; auto|].
    destruct fpns as [|feat fpns]; [inversion Hy; auto|].
    simpl in Hy.
    destruct (MaskHeadFPNConv_step src nq b cv feat x) as [x'|] eqn:Ex; [|discriminate].
    simpl in Hy. right.
    destruct (IH adapters fpns x' y Hy) as [->|(i & b' & n & h & w & Hi & Hb & Hs)].
    + intros i b' cv' Hb' Hcv'. apply (Hc (S i)); assumption.
    + apply MaskHeadFPNConv_step_channels in Ex; [|apply (Hc 0); reflexivity].
      destruct Ex as (n & h & w & Hs).
      exists 0, b, n, h, w. simpl. split; [lia|]. auto.
    + exists (S i), b', n, h, w. simpl. split; [lia|]. auto.
Qed.

(** With fewer than three pyramid depths the forward pass fails at the last
    intermediate block, unless the running tensor happens to have the
    [context_dim // 8] channels that block reads. *)
Lemma MaskHeadFPNConv_forward_short
    (input_dim : nat) (fpn_dims : list nat) (context_dim num_groups : nat)
    (p : MaskHeadParams) (m : MaskHeadFPNConv) :
  MaskHeadFPNConv_init input_dim fpn_dims context_dim num_groups p = Some m ->
  length fpn_dims < 3 ->
  Forall (fun d => d <> context_dim / 8)
    (take (S (length fpn_dims)) (inter_dims input_dim context_dim)) ->
  forall x att fpns, MaskHeadFPNConv_forward m x att fpns = None.
Proof.
  intros Hinit Hlen Hne x att fpns.
  destruct (MaskHeadFPNConv_init_fields _ _ _ _ _ _ Hinit)
    as (_ & Hc0 & Hci & _ & _ & Had).
  destruct (MaskHeadFPNConv_forward m x att fpns) as [y|] eqn:E; [exfalso|reflexivity].
  unfold MaskHeadFPNConv_forward in E. rewrite Hc0, Hci in E. bind_inv E.
  match goal with
  | H : ConvBlock_forward (make_layers input_dim input_dim _ _ _) _ = Some _ |- _ =>
      rename H into Hconv0
  end.
  match goal with
  | H : MaskHeadFPNConv_loop _ _ _ _ _ _ = Some _ |- _ => rename H into Hloop
  end.
  match goal with
  | H : py_index _ _ = Some ?c, H' : ConvBlock_forward ?c _ = Some _ |- _ =>
      rename H into Hlast; rename H' into Hblk
  end.
  cbn in Hlast. inversion Hlast; subst c; clear Hlast.
  apply ConvBlock_forward_inv in Hblk.
  destruct Hblk as (n4 & h4 & w4 & _ & _ & Ht1 & _).
  unfold stage_in in Ht1; cbn in Ht1.
  apply ConvBlock_forward_inv in Hconv0.
  destruct Hconv0 as (n1 & _ & _ & h1 & w1 & _ & Ht0).
  unfold stage_out in Ht0; cbn in Ht0.
  pose proof (Forall2_length _ _ _ Had) as Hadlen. rewrite length_seq in Hadlen.
  apply MaskHeadFPNConv_loop_channels in Hloop.
  - destruct Hloop as [->|(i & b & n' & h & w & Hi & Hb & Hs)].
    + rewrite Ht0 in Ht1. inversion Ht1 as [[Hn Hch]].
      apply Forall_cons in Hne. destruct Hne as [Hne _]. simpl in Hne. lia.
    + rewrite Hs in Ht1. inversion Ht1 as [[Hn Hch]].
      rewrite <- Hadlen in Hi.
      rewrite Forall_forall in Hne.
      apply (Hne (stage_out b)); [|exact Hch].
      apply list_elem_of_lookup. exists (S i).
      rewrite lookup_take_lt by lia.
      destruct i as [|[|i]]; [| |lia]; cbn in Hb; inversion Hb; reflexivity.
  - intros i b cv Hb Hcv.
    destruct (Forall2_lookup_r _ _ _ _ _ Had Hcv) as (j & Hj & fd & od & _ & _ & Hod & ->).
    assert (j = i) by (apply lookup_seq in Hj; lia). subst j.
    destruct i as [|[|[|i]]]; cbn in Hb, Hod; inversion Hb; inversion Hod;
      reflexivity.
Qed.

(** A list of four depths behaves as its first three entries. *)
Lemma MaskHeadFPNConv_forward_four
    (input_dim : nat) (fpn_dims : list nat) (context_dim num_groups : nat)
    (p : MaskHeadParams) (m4 m3 : MaskHeadFPNConv) :
  length fpn_dims = 4 ->
  MaskHeadFPNConv_init input_dim fpn_dims context_dim num_groups p = Some m4 ->
  MaskHeadFPNConv_init input_dim (take 3 fpn_dims) context_dim num_groups p = Some m3 ->
  forall x att fpns,
    MaskHeadFPNConv_forward m4 x att fpns = MaskHeadFPNConv_forward m3 x att fpns.
Proof.
  intros Hlen H4 H3 x att fpns.
  destruct fpn_dims as [|d0 [|d1 [|d2 [|d3 [|? ?]]]]]; try discriminate.
  destruct (MaskHeadFPNConv_init_fields _ _ _ _ _ _ H4)
    as (_ & Hc04 & Hci4 & Hco4 & Hn4 & Had4).
  destruct (MaskHeadFPNConv_init_fields _ _ _ _ _ _ H3)
    as (_ & Hc03 & Hci3 & Hco3 & Hn3 & Had3).
  cbn [length seq take] in Had4, Had3.
  apply Forall2_cons_inv_l in Had4.
  destruct Had4 as (a0 & l0 & (f0 & o0 & Hf0 & _ & Ho0 & ->) & Had4 & Hl4).
  apply Forall2_cons_inv_l in Had4.
  destruct Had4 as (a1 & l1 & (f1 & o1 & Hf1 & _ & Ho1 & ->) & Had4 & ->).
  apply Forall2_cons_inv_l in Had4.
  destruct Had4 as (a2 & l2 & (f2 & o2 & Hf2 & _ & Ho2 & ->) & Had4 & ->).
  apply Forall2_cons_inv_l in Had3.
  destruct Had3 as (b0 & k0 & (g0 & q0 & Hg0 & _ & Hq0 & ->) & Had3 & Hl3).
  apply Forall2_cons_inv_l in Had3.
  destruct Had3 as (b1 & k1 & (g1 & q1 & Hg1 & _ & Hq1 & ->) & Had3 & ->).
  apply Forall2_cons_inv_l in Had3.
  destruct Had3 as (b2 & k2 & (g2 & q2 & Hg2 & _ & Hq2 & ->) & Had3 & ->).
  apply Forall2_nil_inv_l in Had3. subst k2.
  cbn in Hf0, Hf1, Hf2, Hg0, Hg1, Hg2, Ho0, Ho1, Ho2, Hq0, Hq1, Hq2.
  inversion Hf0; inversion Hf1; inversion Hf2; inversion Hg0; inversion Hg1;
    inversion Hg2; inversion Ho0; inversion Ho1; inversion Ho2; inversion Hq0;
    inversion Hq1; inversion Hq2; subst.
  unfold MaskHeadFPNConv_forward.
  rewrite Hc04, Hci4, Hco4, Hn4, Hl4, Hc03, Hci3, Hco3, Hn3, Hl3.
  destruct (py_index (shape att) 1) as [nq|]; [|reflexivity].
  cbn [mbind option_bind].
  destruct (MaskHeadFPNConv_fuse x att) as [x1|]; [|reflexivity].
  cbn [mbind option_bind].
  destruct (ConvBlock_forward _ x1) as [x2|]; [|reflexivity].
  cbn [mbind option_bind].
  rewrite MaskHeadFPNConv_loop_take.
  rewrite (MaskHeadFPNConv_loop_take _ nq _ [_; _; _]).
  reflexivity.
Qed.

(** C5, as stated, fails for a list of four depths: construction succeeds
    and so does the forward pass, on four pyramid levels. *)
Lemma MaskHeadFPNConv_four_depths_accepted :
  length [1; 1; 1; 1] <> 3
  /\ exists m y,
       MaskHeadFPNConv_init 2 [1; 1; 1; 1] 16 1 zero_mask_params = Some m
       /\ MaskHeadFPNConv_forward m pixel pixel_attention [pixel; pixel; pixel; pixel]
          = Some y.
Proof.
  split; [discriminate|]. eexists. eexists. split; reflexivity.
Qed.

(** C5 (amended). Construction succeeds exactly when the depth list has
    at most four entries and no convolution lacks input channels, that is
    [input_dim] and every depth are positive and [context_dim >= 16]; it
    raises IndexError for a longer list and ZeroDivisionError for an empty
    fan-in.  A list of four entries behaves as its first three: the fourth
    adapter and any further pyramid level are never used.  A list of
    fewer than three entries is accepted too, and every forward pass of
    that head fails, provided none of the channel depths the running
    tensor can have after at most that many fusion steps is the
    [context_dim // 8] read by the last intermediate block. *)
Theorem MaskHeadFPNConv_pyramid_length
    (input_dim : nat) (fpn_dims : list nat) (context_dim num_groups : nat)
    (p : MaskHeadParams) :
  (is_Some (MaskHeadFPNConv_init input_dim fpn_dims context_dim num_groups p)
   <-> length fpn_dims <= 4
       /\ 0 < input_dim /\ 16 <= context_dim /\ Forall (fun d => 0 < d) fpn_dims)
  /\ (length fpn_dims = 4 ->
      forall m4 m3,
        MaskHeadFPNConv_init input_dim fpn_dims context_dim num_groups p = Some m4 ->
        MaskHeadFPNConv_init input_dim (take 3 fpn_dims) context_dim num_groups p
        = Some m3 ->
        forall x att fpns,
          MaskHeadFPNConv_forward m4 x att fpns
          = MaskHeadFPNConv_forward m3 x att fpns)
  /\ (length fpn_dims < 3 ->
      0 < input_dim -> 16 <= context_dim -> Forall (fun d => 0 < d) fpn_dims ->
      Forall (fun d => d <> context_dim / 8)
        (take (S (length fpn_dims)) (inter_dims input_dim context_dim)) ->
      exists m,
        MaskHeadFPNConv_init input_dim fpn_dims context_dim num_groups p = Some m
        /\ forall x att fpns, MaskHeadFPNConv_forward m x att fpns = None).
Proof.
  split; [|split].
  - split.
    + intros [m Hm].
      destruct (MaskHeadFPNConv_init_length _ _ _ _ _ _ Hm) as [Hlen Hpos].
      destruct (MaskHeadFPNConv_init_fields _ _ _ _ _ _ Hm) as ((H0 & Hc) & _).
      auto.
    + intros (Hlen & H0 & Hc & Hpos).
      apply MaskHeadFPNConv_init_returns; assumption.
  - intros Hlen m4 m3 H4 H3.
    exact (MaskHeadFPNConv_forward_four input_dim fpn_dims context_dim num_groups
             p m4 m3 Hlen H4 H3).
  - intros Hlen H0 Hc Hpos Hne.
    destruct (MaskHeadFPNConv_init_returns input_dim fpn_dims context_dim
                num_groups p H0 Hc Hpos) as [m Hm]; [lia|].
    exists m. split; [exact Hm|].
    exact (MaskHeadFPNConv_forward_short input_dim fpn_dims context_dim num_groups
             p m Hm Hlen Hne).
Qed.

(** ** The forward pass of the mask head on well-shaped inputs *)

Lemma tile_shape4_norm {A} `{Inhabited A} (t : tensor A) (q n c h w : nat) :
  shape t = [n; c; h; w] ->
  shape (tile t [q; 1; 1; 1]) = [n * q; c; h; w] /\ wf (tile t [q; 1; 1; 1]).
Proof.
  intros Hs. split.
  - rewrite (tile_shape4 t q n c h w Hs), !Nat.mul_1_r. reflexivity.
  - unfold tile. apply wf_tinit.
Qed.

Lemma MaskHeadFPNConv_fuse_shape {A} `{IA : Inhabited A} (x att : tensor A)
    (B Q C N H W : nat) :
  shape x = [B; C; H; W] -> shape att = [B; Q; N; H; W] ->
  exists y, MaskHeadFPNConv_fuse x att = Some y
            /\ shape y = [B * Q; C + N; H; W] /\ wf y.
Proof.
  intros Hx Hatt. unfold MaskHeadFPNConv_fuse. rewrite Hatt.
  change (py_index [B; Q; N; H; W] 1) with (Some Q). cbn [mbind option_bind].
  unfold flatten. rewrite Hatt.
  change (norm_index (length [B; Q; N; H; W]) 0) with (Some 0).
  change (norm_index (length [B; Q; N; H; W]) 1) with (Some 1).
  cbn [Nat.leb mbind option_bind take drop app Nat.sub].
  destruct (tile_shape4_norm x Q B C H W Hx) as [Ht _].
  unfold concat2. cbn [shape]. rewrite Ht.
  cbn [lookup list_lookup].
  unfold shapes_agree_except. cbn [length take drop].
  rewrite Nat.eqb_refl.
  rewrite (bool_decide_eq_true_2 ([B * Q] = [numel [B; Q]]))
    by (simpl; f_equal; lia).
  rewrite bool_decide_eq_true_2 by reflexivity.
  cbn [andb]. eexists. split; [reflexivity|]. split; [reflexivity|apply wf_tinit].
Qed.

Lemma GroupNorm_forward_shape (gn : GroupNorm) (x : tensor R) (n h w : nat) :
  shape x = [n; gn_channels gn; h; w] ->
  1 <= gn_groups gn -> gn_channels gn mod gn_groups gn = 0 ->
  exists y, GroupNorm_forward gn x = Some y /\ shape y = shape x /\ wf y.
Proof.
  intros Hs Hg Hdiv. unfold GroupNorm_forward. rewrite Hs, Nat.eqb_refl, Hdiv.
  apply Nat.leb_le in Hg. rewrite Hg. cbn [andb Nat.eqb].
  eexists. split; [reflexivity|]. split; [reflexivity|apply wf_tinit].
Qed.

Lemma ConvBlock_forward_shape (g : nat) (b : ConvBlock) (x : tensor R) (n h w : nat) :
  std_block g b -> 1 <= g -> stage_out b mod g = 0 ->
  0 < h -> 0 < w ->
  shape x = [n; stage_in b; h; w] ->
  exists y, ConvBlock_forward b x = Some y
            /\ shape y = [n; stage_out b; h; w] /\ wf y.
Proof.
  intros (Hk & Hp & Hch & Hgr) Hg Hdiv Hh Hw Hs. unfold ConvBlock_forward.
  destruct (Conv2D_forward_shape (blk_conv b) x n h w Hs) as (y & -> & Hys & _);
    [rewrite Hk, Hp; lia|rewrite Hk, Hp; lia|].
  cbn [mbind option_bind].
  rewrite Hk, Hp in Hys.
  replace (h + 2 * 1 + 1 - 3) with h in Hys by lia.
  replace (w + 2 * 1 + 1 - 3) with w in Hys by lia.
  destruct (GroupNorm_forward_shape (blk_norm b) y n h w) as (z & -> & Hzs & Hzwf).
  - rewrite Hch. exact Hys.
  - rewrite Hgr. exact Hg.
  - rewrite Hch, Hgr. exact Hdiv.
  - cbn [mbind option_bind]. eexists. split; [reflexivity|]. split.
    + unfold relu, tmap. cbn [shape]. rewrite Hzs. exact Hys.
    + apply wf_tmap. exact Hzwf.
Qed.

Lemma interpolate_shape (src : nat -> nat -> nat -> nat) (x : tensor R)
    (n c h w h2 w2 : nat) :
  shape x = [n; c; h; w] ->
  exists y, interpolate src x [h2; w2] = Some y /\ shape y = [n; c; h2; w2] /\ wf y.
Proof.
  intros Hs. unfold interpolate. rewrite Hs.
  eexists. split; [reflexivity|]. split; [reflexivity|apply wf_tinit].
Qed.

Lemma add_same_shape (a b : tensor R) :
  shape a = shape b ->
  exists y, add a b = Some y /\ shape y = shape a /\ wf y.
Proof.
  intros Hs. unfold add. rewrite <- Hs, broadcast_shape_refl.
  eexists. split; [reflexivity|]. split; [reflexivity|apply wf_tinit].
Qed.

Lemma MaskHeadFPNConv_step_shape (src : nat -> nat -> nat -> nat) (g nq : nat)
    (inter_layer : ConvBlock)
    (adapter_layer : Conv2D) (feat x : tensor R) (B h w Hf Wf : nat) :
  std_block g inter_layer -> pointwise adapter_layer ->
  1 <= g -> stage_out inter_layer mod g = 0 ->
  c_out adapter_layer = stage_out inter_layer ->
  0 < h -> 0 < w -> 0 < Hf -> 0 < Wf ->
  shape feat = [B; c_in adapter_layer; Hf; Wf] ->
  shape x = [B * nq; stage_in inter_layer; h; w] ->
  exists y, MaskHeadFPNConv_step src nq inter_layer adapter_layer feat x = Some y
            /\ shape y = [B * nq; stage_out inter_layer; Hf; Wf] /\ wf y.
Proof.
  intros Hstd [Hk Hp] Hg Hdiv Hc Hh Hw HHf HWf Hfeat Hx.
  unfold MaskHeadFPNConv_step.
  destruct (Conv2D_forward_shape adapter_layer feat B Hf Wf Hfeat)
    as (f1 & -> & Hf1 & _); [rewrite Hk, Hp; lia|rewrite Hk, Hp; lia|].
  cbn [mbind option_bind]. rewrite Hk, Hp in Hf1.
  replace (Hf + 2 * 0 + 1 - 1) with Hf in Hf1 by lia.
  replace (Wf + 2 * 0 + 1 - 1) with Wf in Hf1 by lia.
  destruct (tile_shape4_norm f1 nq _ _ _ _ Hf1) as [Hts _].
  destruct (ConvBlock_forward_shape g inter_layer x (B * nq) h w Hstd Hg Hdiv Hh Hw Hx)
    as (x1 & -> & Hx1 & _).
  cbn [mbind option_bind]. rewrite Hts. cbn [length Nat.sub drop].
  destruct (interpolate_shape src x1 _ _ _ _ Hf Wf Hx1) as (x2 & -> & Hx2 & _).
  cbn [mbind option_bind].
  destruct (add_same_shape (tile f1 [nq; 1; 1; 1]) x2) as (y & -> & Hys & Hywf).
  { rewrite Hts, Hx2, Hc. reflexivity. }
  exists y. split; [reflexivity|]. split; [|exact Hywf].
  rewrite Hys, Hts, Hc. reflexivity.
Qed.

(** What the fusion computes in general: row [r] of the result holds the
    channels of [x[r mod B]], the image that [tile] put there, followed
    by the attention maps of query [(r / Q, r mod Q)]. *)
Lemma MaskHeadFPNConv_fuse_rows {A} `{IA : Inhabited A} (x att : tensor A)
    (B Q C N H W : nat) :
  shape x = [B; C; H; W] -> shape att = [B; Q; N; H; W] ->
  exists y,
    MaskHeadFPNConv_fuse x att = Some y
    /\ shape y = [B * Q; C + N; H; W]
    /\ forall r ch i j,
         r < B * Q -> ch < C + N -> i < H -> j < W ->
         tget y [r; ch; i; j]
         = if ch <? C then tget x [r mod B; ch; i; j]
           else tget att [r / Q; r mod Q; ch - C; i; j].
Proof.
  intros Hx Hatt. unfold MaskHeadFPNConv_fuse. rewrite Hatt.
  change (py_index [B; Q; N; H; W] 1) with (Some Q). cbn [mbind option_bind].
  unfold flatten. rewrite Hatt.
  change (norm_index (length [B; Q; N; H; W]) 0) with (Some 0).
  change (norm_index (length [B; Q; N; H; W]) 1) with (Some 1).
  cbn [Nat.leb mbind option_bind take drop app Nat.sub].
  destruct (tile_shape4_norm x Q B C H W Hx) as [Ht _].
  unfold concat2. cbn [shape]. rewrite Ht.
  cbn [lookup list_lookup].
  unfold shapes_agree_except. cbn [length take drop].
  rewrite Nat.eqb_refl.
  rewrite (bool_decide_eq_true_2 ([B * Q] = [numel [B; Q]]))
    by (simpl; f_equal; lia).
  rewrite bool_decide_eq_true_2 by reflexivity.
  cbn [andb]. eexists. split; [reflexivity|]. split; [reflexivity|].
  intros r ch i j Hr Hch Hi Hj.
  assert (HB : 0 < B) by (destruct B; [simpl in Hr|]; lia).
  assert (HQ : 0 < Q) by (destruct Q; [rewrite Nat.mul_0_r in Hr|]; lia).
  rewrite tget_tinit by (cbn [list_insert insert]; in_bounds_tac).
  change ([r; ch; i; j] !!! 1) with ch.
  destruct (Nat.ltb_spec ch C) as [HchC|HchC].
  - unfold tile. rewrite Hx.
    rewrite tget_tinit
      by (cbn [length Nat.max pad_left Nat.sub replicate app zip_with];
          in_bounds_tac).
    cbn [length Nat.max pad_left Nat.sub replicate app zip_with].
    rewrite (Nat.mod_small ch C), (Nat.mod_small i H), (Nat.mod_small j W) by lia.
    unfold tget. rewrite Hx. reflexivity.
  - unfold tget. cbn [shape data list_insert insert].
    rewrite Hatt. f_equal. cbn [ravel numel foldr].
    pose proof (Nat.div_mod_eq r Q) as Hdm.
    set (u := r / Q) in *. set (v := r mod Q) in *.
    rewrite Hdm. nia.
Qed.

Lemma make_layers_std (i o g : nat) (p : BlockParams) :
  std_block g (make_layers i o 3 g p)
  /\ stage_in (make_layers i o 3 g p) = i
  /\ stage_out (make_layers i o 3 g p) = o.
Proof. repeat split; reflexivity. Qed.

(** Mask head shape law: with three pyramid depths and inputs of the
    documented shapes the forward pass returns one single-channel map
    per (image, query) pair, at the resolution of the last pyramid level
    used. *)
(** The head built from three pyramid depths. *)
Lemma MaskHeadFPNConv_init_three
    (input_dim f0 f1 f2 context_dim g : nat) (p : MaskHeadParams)
    (m : MaskHeadFPNConv) :
  MaskHeadFPNConv_init input_dim [f0; f1; f2] context_dim g p = Some m ->
  m = {| conv0 := make_layers input_dim input_dim 3 g (mp_conv0 p);
         conv_inter :=
           [make_layers input_dim (context_dim / 2) 3 g (mp_inter p 0);
            make_layers (context_dim / 2) (context_dim / 4) 3 g (mp_inter p 1);
            make_layers (context_dim / 4) (context_dim / 8) 3 g (mp_inter p 2);
            make_layers (context_dim / 8) (context_dim / 16) 3 g (mp_inter p 3)];
         conv_out := mkConv2D (context_dim / 16) 1 3 1 true (mp_out p);
         adapter :=
           [mkConv2D f0 (context_dim / 2) 1 0 true (mp_adapter p 0);
            mkConv2D f1 (context_dim / 4) 1 0 true (mp_adapter p 1);
            mkConv2D f2 (context_dim / 8) 1 0 true (mp_adapter p 2)];
         nearest := mp_nearest p |}.
Proof.
  intros Hinit.
  destruct (MaskHeadFPNConv_init_fields _ _ _ _ _ _ Hinit)
    as (_ & Hc0 & Hci & Hco & Hn & Had).
  cbn [length seq] in Had.
  apply Forall2_cons_inv_l in Had.
  destruct Had as (a0 & l0 & (g0 & o0 & Hg0 & _ & Ho0 & ->) & Had & Hl).
  apply Forall2_cons_inv_l in Had.
  destruct Had as (a1 & l1 & (g1 & o1 & Hg1 & _ & Ho1 & ->) & Had & ->).
  apply Forall2_cons_inv_l in Had.
  destruct Had as (a2 & l2 & (g2 & o2 & Hg2 & _ & Ho2 & ->) & Had & ->).
  apply Forall2_nil_inv_l in Had. subst l2.
  cbn in Hg0, Hg1, Hg2, Ho0, Ho1, Ho2.
  inversion Hg0; inversion Hg1; inversion Hg2; inversion Ho0; inversion Ho1;
    inversion Ho2; subst.
  destruct m as [c0 ci co ad nr]. cbn in Hc0, Hci, Hco, Hn, Hl. subst.
  reflexivity.
Qed.

Lemma MaskHeadFPNConv_forward_shape
    (input_dim f0 f1 f2 context_dim g : nat) (p : MaskHeadParams)
    (m : MaskHeadFPNConv) (x att t0 t1 t2 : tensor R) (more : list (tensor R))
    (B Q C N H W H0 W0 H1 W1 H2 W2 : nat) :
  MaskHeadFPNConv_init input_dim [f0; f1; f2] context_dim g p = Some m ->
  1 <= g ->
  input_dim mod g = 0 ->
  Forall (fun d => d mod g = 0)
    [context_dim / 2; context_dim / 4; context_dim / 8; context_dim / 16] ->
  Forall (fun d => 0 < d) [H; W; H0; W0; H1; W1; H2; W2] ->
  C + N = input_dim ->
  shape x = [B; C; H; W] -> shape att = [B; Q; N; H; W] ->
  shape t0 = [B; f0; H0; W0] -> shape t1 = [B; f1; H1; W1] ->
  shape t2 = [B; f2; H2; W2] ->
  exists y,
    MaskHeadFPNConv_forward m x att (t0 :: t1 :: t2 :: more) = Some y
    /\ shape y = [B * Q; 1; H2; W2] /\ wf y.
Proof.
  intros Hinit Hg Hdin Hdiv Hpos HCN Hx Hatt Ht0 Ht1 Ht2.
  rewrite (MaskHeadFPNConv_init_three _ _ _ _ _ _ _ _ Hinit). clear Hinit.
  apply Forall_cons in Hdiv. destruct Hdiv as [Hd2 Hdiv].
  apply Forall_cons in Hdiv. destruct Hdiv as [Hd4 Hdiv].
  apply Forall_cons in Hdiv. destruct Hdiv as [Hd8 Hdiv].
  apply Forall_cons in Hdiv. destruct Hdiv as [Hd16 _].
  repeat (apply Forall_cons in Hpos; destruct Hpos as [? Hpos]).
  unfold MaskHeadFPNConv_forward. cbn [conv0 conv_inter conv_out adapter nearest].
  rewrite Hatt. change (py_index [B; Q; N; H; W] 1) with (Some Q).
  cbn [mbind option_bind].
  destruct (MaskHeadFPNConv_fuse_shape x att B Q C N H W Hx Hatt)
    as (x1 & -> & Hx1 & _).
  cbn [mbind option_bind]. rewrite HCN in Hx1.
  destruct (make_layers_std input_dim input_dim g (mp_conv0 p)) as (Hs0 & Hi0 & Ho0).
  destruct (ConvBlock_forward_shape g _ x1 (B * Q) H W Hs0 Hg) as (x2 & -> & Hx2 & _);
    [rewrite Ho0; exact Hdin|lia|lia|rewrite Hi0; exact Hx1|].
  cbn [mbind option_bind]. rewrite Ho0 in Hx2.
  cbn [length Nat.sub take MaskHeadFPNConv_loop].
  (* first fusion step *)
  match goal with
  | |- context [MaskHeadFPNConv_step ?sr Q ?b ?cv t0 x2] =>
      destruct (MaskHeadFPNConv_step_shape sr g Q b cv t0 x2 B H W H0 W0)
        as (x3 & -> & Hx3 & _);
      [apply make_layers_std|split; reflexivity|exact Hg|exact Hd2|reflexivity
      |lia|lia|lia|lia|exact Ht0|exact Hx2|]
  end.
  cbn [mbind option_bind].
  change (stage_out (make_layers input_dim (context_dim / 2) 3 g (mp_inter p 0)))
    with (context_dim / 2) in Hx3.
  match goal with
  | |- context [MaskHeadFPNConv_step ?sr Q ?b ?cv t1 x3] =>
      destruct (MaskHeadFPNConv_step_shape sr g Q b cv t1 x3 B H0 W0 H1 W1)
        as (x4 & -> & Hx4 & _);
      [apply make_layers_std|split; reflexivity|exact Hg|exact Hd4|reflexivity
      |lia|lia|lia|lia|exact Ht1|exact Hx3|]
  end.
  cbn [mbind option_bind].
  change (stage_out (make_layers (context_dim / 2) (context_dim / 4) 3 g
                       (mp_inter p 1)))
    with (context_dim / 4) in Hx4.
  match goal with
  | |- context [MaskHeadFPNConv_step ?sr Q ?b ?cv t2 x4] =>
      destruct (MaskHeadFPNConv_step_shape sr g Q b cv t2 x4 B H1 W1 H2 W2)
        as (x5 & -> & Hx5 & _);
      [apply make_layers_std|split; reflexivity|exact Hg|exact Hd8|reflexivity
      |lia|lia|lia|lia|exact Ht2|exact Hx4|]
  end.
  cbn [mbind option_bind].
  change (stage_out (make_layers (context_dim / 4) (context_dim / 8) 3 g
                       (mp_inter p 2)))
    with (context_dim / 8) in Hx5.
  match goal with
  | |- context [py_index ?l (-1)] =>
      change (py_index l (-1))
        with (Some (make_layers (context_dim / 8) (context_dim / 16) 3 g
                      (mp_inter p 3)))
  end.
  cbn [mbind option_bind].
  match goal with
  | |- context [ConvBlock_forward ?b x5] =>
      destruct (ConvBlock_forward_shape g b x5 (B * Q) H2 W2)
        as (x6 & -> & Hx6 & _);
      [apply make_layers_std|exact Hg|exact Hd16|lia|lia|exact Hx5|]
  end.
  cbn [mbind option_bind].
  change (stage_out (make_layers (context_dim / 8) (context_dim / 16) 3 g
                       (mp_inter p 3)))
    with (context_dim / 16) in Hx6.
  match goal with
  | |- context [Conv2D_forward ?cv x6] =>
      destruct (Conv2D_forward_shape cv x6 (B * Q) H2 W2 Hx6)
        as (y & -> & Hy & Hywf); [simpl; lia|simpl; lia|]
  end.
  exists y. split; [reflexivity|]. split; [|exact Hywf].
  rewrite Hy. cbn [c_out ksize cpad mkConv2D]. f_equal. f_equal. f_equal; [lia|].
  f_equal. lia.
Qed.


(** ** The last decoder layer *)

(** A block of a block. *)
Lemma chunk_nested {A} (a k r d : nat) (l : list A) :
  r < k -> chunk r d (chunk a (k * d) l) = chunk (a * k + r) d l.
Proof.
  intros Hr. unfold chunk.
  rewrite skipn_firstn_comm, take_take, drop_drop.
  f_equal; [nia|]. f_equal. nia.
Qed.

Lemma concat_map_seq_app {A} (f : nat -> list A) (a n : nat) :
  concat (map f (seq 0 (a + n)))
  = concat (map f (seq 0 a)) ++ concat (map f (seq a n)).
Proof. rewrite seq_app, map_app, concat_app. reflexivity. Qed.

(** The last block of [k] rows of a buffer of [S L * k] rows. *)
Lemma chunk_last_rows {A} (f : nat -> list A) (L k d : nat) :
  (forall r, length (f r) = d) ->
  chunk L (k * d) (concat (map f (seq 0 (S L * k))))
  = concat (map f (seq (L * k) k)).
Proof.
  intros Hf. replace (S L * k) with (L * k + k) by lia.
  rewrite concat_map_seq_app. unfold chunk.
  rewrite drop_app_length'.
  - apply take_ge.
    rewrite (length_concat_const f d) by (intros; apply Hf).
    rewrite length_seq. lia.
  - rewrite (length_concat_const f d) by (intros; apply Hf).
    rewrite length_seq. lia.
Qed.

Lemma index_last_cons {A} (t : tensor A) (L : nat) (rest : list nat) :
  shape t = S L :: rest ->
  index_last t = Some (Tensor rest (chunk L (numel rest) (data t))).
Proof. intros Hs. unfold index_last. rewrite Hs. reflexivity. Qed.

(** A linear layer acts on the rows of its input, so it commutes with
    taking the last slice. *)
Lemma Linear_forward_last (l : Linear) (x : tensor R) (L : nat) (rest : list nat) :
  shape x = S L :: rest -> rest <> [] ->
  Linear_forward l x ≫= index_last = index_last x ≫= Linear_forward l.
Proof.
  intros Hs Hrest.
  destruct (split_last rest) as [[pre d]|] eqn:Hsl.
  2:{ destruct rest as [|e rest]; [congruence|]. exfalso.
      clear -Hsl. revert e Hsl. induction rest as [|e' rest IH]; intros e Hsl.
      - discriminate.
      - simpl in Hsl. destruct rest as [|e'' rest'].
        + discriminate.
        + destruct (split_last (e'' :: rest')) as [[p q]|] eqn:E; [discriminate|].
          apply (IH e'). simpl. simpl in E. rewrite E. reflexivity. }
  apply split_last_Some in Hsl. subst rest.
  rewrite (index_last_cons x L _ Hs). cbn [mbind option_bind].
  unfold Linear_forward. cbn [shape data]. rewrite Hs.
  change (S L :: pre ++ [d]) with ((S L :: pre) ++ [d]).
  rewrite !split_last_snoc.
  destruct (Nat.eqb d (in_features l)); [|reflexivity].
  cbn [mbind option_bind]. unfold index_last. cbn [shape data app].
  f_equal. f_equal.
  rewrite !numel_app. simpl numel at 1 2 4. rewrite !Nat.mul_1_r.
  change (numel (S L :: pre)) with (S L * numel pre).
  rewrite (chunk_last_rows _ L (numel pre) (out_features l))
    by (intros; apply length_linear_row).
  apply (f_equal (@concat R)).
  replace (seq (L * numel pre) (numel pre))
    with (map (Nat.add (L * numel pre)) (seq 0 (numel pre)))
    by (rewrite <- (Nat.add_0_r (L * numel pre)) at 2; apply fmap_add_seq).
  rewrite map_map. apply map_ext_in. intros r Hr. apply in_seq in Hr.
  change (numel [d]) with (d * 1). rewrite Nat.mul_1_r.
  rewrite chunk_nested by lia. reflexivity.
Qed.

Lemma Linear_forward_inv (l : Linear) (x y : tensor R) :
  Linear_forward l x = Some y ->
  exists pre, shape x = pre ++ [in_features l] /\ shape y = pre ++ [out_features l].
Proof.
  unfold Linear_forward. intros Hy.
  destruct (split_last (shape x)) as [[pre d]|] eqn:Hsl; [|discriminate].
  apply split_last_Some in Hsl.
  destruct (Nat.eqb_spec d (in_features l)) as [->|]; [|discriminate].
  inversion Hy; subst y. exists pre. auto.
Qed.

(** The output of a linear layer keeps the leading axis of its input. *)
Lemma Linear_forward_leading (l : Linear) (x y : tensor R) (L : nat) (rest : list nat) :
  shape x = S L :: rest -> rest <> [] -> Linear_forward l x = Some y ->
  exists rest', shape y = S L :: rest' /\ rest' <> [].
Proof.
  intros Hs Hrest Hy. apply Linear_forward_inv in Hy.
  destruct Hy as (pre & Hx & Hy). rewrite Hs in Hx.
  destruct pre as [|e pre].
  - simpl in Hx. inversion Hx; subst. congruence.
  - simpl in Hx. inversion Hx; subst e rest.
    exists (pre ++ [out_features l]). split; [exact Hy|].
    destruct pre; discriminate.
Qed.

Lemma chunk_map {A B} (f : A -> B) (r n : nat) (l : list A) :
  chunk r n (map f l) = map f (chunk r n l).
Proof.
  unfold chunk. change (map f) with (fmap (M:=list) f).
  rewrite fmap_take, fmap_drop. reflexivity.
Qed.

Lemma index_last_tmap {A B} (f : A -> B) (t : tensor A) :
  index_last (tmap f t) = tmap f <$> index_last t.
Proof.
  unfold index_last, tmap. cbn [shape data].
  destruct (shape t) as [|[|n] rest]; try reflexivity.
  simpl. rewrite chunk_map. reflexivity.
Qed.

Lemma MLP_loop_last (n : Z) (ls : list Linear) :
  forall (i : nat) (x : tensor R) (L : nat) (rest : list nat),
    shape x = S L :: rest -> rest <> [] ->
    MLP_loop n i ls x ≫= index_last = index_last x ≫= MLP_loop n i ls.
Proof.
  induction ls as [|l ls IH]; intros i x L rest Hs Hrest.
  - simpl. destruct (index_last x); reflexivity.
  - pose proof (Linear_forward_last l x L rest Hs Hrest) as Hcomm.
    rewrite (index_last_cons x L rest Hs) in Hcomm |- *.
    cbn [mbind option_bind] in Hcomm |- *.
    cbn [MLP_loop].
    destruct (Linear_forward l x) as [y|] eqn:Hy.
    + destruct (Linear_forward_leading l x y L rest Hs Hrest Hy)
        as (rest' & Hys & Hrest').
      cbn [mbind option_bind] in Hcomm. rewrite <- Hcomm.
      rewrite (index_last_cons y L rest' Hys).
      set (act := fun t : tensor R => if (Z.of_nat i <? n - 1)%Z then relu t else t).
      change (if (Z.of_nat i <? n - 1)%Z then relu y else y) with (act y).
      change (if (Z.of_nat i <? n - 1)%Z
              then relu (Tensor rest' (chunk L (numel rest') (data y)))
              else Tensor rest' (chunk L (numel rest') (data y)))
        with (act (Tensor rest' (chunk L (numel rest') (data y)))).
      assert (Hact : shape (act y) = S L :: rest')
        by (unfold act; destruct (Z.of_nat i <? n - 1)%Z; exact Hys).
      rewrite (IH (S i) (act y) L rest' Hact Hrest').
      rewrite (index_last_cons (act y) L rest' Hact). cbn [mbind option_bind].
      f_equal. unfold act. destruct (Z.of_nat i <? n - 1)%Z; [|reflexivity].
      unfold relu, tmap. cbn [shape data]. rewrite chunk_map. reflexivity.
    + cbn [mbind option_bind] in Hcomm. rewrite <- Hcomm. reflexivity.
Qed.

Lemma MLP_forward_last (m : MLP) (x : tensor R) (L : nat) (rest : list nat) :
  shape x = S L :: rest -> rest <> [] ->
  MLP_forward m x ≫= index_last = index_last x ≫= MLP_forward m.
Proof. intros Hs Hrest. apply (MLP_loop_last _ _ 0 x L rest Hs Hrest). Qed.

Lemma MLP_loop_leading (n : Z) (ls : list Linear) :
  forall (i : nat) (x y : tensor R) (L : nat) (rest : list nat),
    shape x = S L :: rest -> rest <> [] -> MLP_loop n i ls x = Some y ->
    exists rest', shape y = S L :: rest' /\ rest' <> [].
Proof.
  induction ls as [|l ls IH]; intros i x y L rest Hs Hrest Hy.
  - inversion Hy; subst y. eauto.
  - simpl in Hy. destruct (Linear_forward l x) as [z|] eqn:Hz; [|discriminate].
    destruct (Linear_forward_leading l x z L rest Hs Hrest Hz)
      as (rest' & Hzs & Hrest').
    apply (IH (S i) _ y L rest') in Hy; auto.
    destruct (Z.of_nat i <? n - 1)%Z; exact Hzs.
Qed.

(** ** The detection head *)

Section DetectionHead.

Context `{MU : MaskUtil} `{LF : LossFn}.

Lemma py_index_cons_1 {A} (a : A) (l : list A) : py_index (a :: l) 1 = l !! 0.
Proof.
  unfold py_index, norm_index. simpl length.
  destruct (Z.ltb_spec 1 (Z.of_nat (S (length l)))) as [Hlt|Hge]; simpl.
  - reflexivity.
  - destruct l; [reflexivity|simpl in Hge; lia].
Qed.

Lemma py_index_cons_2 {A} (a : A) (l : list A) : py_index (a :: l) 2 = l !! 1.
Proof.
  unfold py_index, norm_index. simpl length.
  destruct (Z.ltb_spec 2 (Z.of_nat (S (length l)))) as [Hlt|Hge]; simpl.
  - reflexivity.
  - destruct l as [|b [|c l]]; try reflexivity. simpl in Hge. lia.
Qed.

(** The mask branch reads [feats] only through its last slice and its
    second and third extents. *)
Lemma DETRHead_masks_last (hd : DETRHead) (training : bool) (keep : nat -> bool)
    (feats1 feats2 memory src_proj src_mask : tensor R)
    (body_feats : list (tensor R)) (L1 L2 : nat) (rest : list nat) :
  shape feats1 = S L1 :: rest -> shape feats2 = S L2 :: rest ->
  last_slice L1 rest feats1 = last_slice L2 rest feats2 ->
  DETRHead_masks hd training keep feats1 memory src_proj src_mask body_feats
  = DETRHead_masks hd training keep feats2 memory src_proj src_mask body_feats.
Proof.
  intros H1 H2 Hlast. unfold DETRHead_masks.
  destruct (mask_branch hd) as [[att mh]|]; [|reflexivity].
  rewrite (index_last_cons feats1 L1 rest H1), (index_last_cons feats2 L2 rest H2).
  fold (last_slice L1 rest feats1). fold (last_slice L2 rest feats2).
  rewrite Hlast, H1, H2, !py_index_cons_1, !py_index_cons_2. reflexivity.
Qed.

(** In inference mode [forward] computes the score head and the box head
    of the last slice, and returns them with the masks. *)
Lemma DETRHead_forward_inference (hd : DETRHead)
    (keep : nat -> bool) (feats memory src_proj src_mask : tensor R)
    (body_feats : list (tensor R)) (inputs : option (gmap string pyval))
    (L : nat) (rest : list nat) :
  shape feats = S L :: rest -> rest <> [] ->
  DETRHead_forward hd false keep (feats, memory, src_proj, src_mask) body_feats inputs
  = match Linear_forward (score_head hd) (last_slice L rest feats) with
    | None => ([EvScoreHead], inl CallError)
    | Some logit =>
        match MLP_forward (bbox_head hd) (last_slice L rest feats) with
        | None => ([EvScoreHead; EvBBoxHead], inl CallError)
        | Some raw =>
            let '(t, r) := DETRHead_masks hd false keep feats memory src_proj
                             src_mask body_feats in
            ([EvScoreHead; EvBBoxHead; EvSigmoid] ++ t,
             match r with
             | inl e => inl e
             | inr seg => inr (OutPred (sigmoid raw) logit seg)
             end)
        end
    end.
Proof.
  intros Hs Hrest.
  pose proof (Linear_forward_last (score_head hd) feats L rest Hs Hrest) as Hc1.
  pose proof (MLP_forward_last (bbox_head hd) feats L rest Hs Hrest) as Hc2.
  rewrite (index_last_cons feats L rest Hs) in Hc1, Hc2.
  cbn [mbind option_bind] in Hc1, Hc2. fold (last_slice L rest feats) in Hc1, Hc2.
  rewrite <- Hc1, <- Hc2. clear Hc1 Hc2.
  unfold DETRHead_forward, DETRHead_predict.
  destruct (Linear_forward (score_head hd) feats) as [y|] eqn:Hy; [|reflexivity].
  destruct (Linear_forward_leading _ _ _ L rest Hs Hrest Hy) as (r1 & Hys & _).
  cbn [mbind option_bind]. rewrite (index_last_cons y L r1 Hys).
  destruct (MLP_forward (bbox_head hd) feats) as [raw|] eqn:Hraw; [|reflexivity].
  destruct (MLP_loop_leading _ _ 0 feats raw L rest Hs Hrest Hraw) as (r2 & Hrs & _).
  cbn [mbind option_bind].
  rewrite (index_last_cons raw L r2 Hrs).
  destruct (DETRHead_masks hd false keep feats memory src_proj src_mask body_feats)
    as [t [e|seg]] eqn:Hm.
  - reflexivity.
  - unfold DETRHead_infer, bind, call, ret, lift.
    assert (Hsig : index_last (sigmoid raw)
                   = Some (sigmoid (Tensor r2 (chunk L (numel r2) (data raw))))).
    { unfold sigmoid. rewrite index_last_tmap, (index_last_cons raw L r2 Hrs).
      reflexivity. }
    rewrite Hsig, (index_last_cons y L r1 Hys). unfold ret. simpl.
    rewrite !app_nil_r. reflexivity.
Qed.

Lemma DETRHead_masks_trace (hd : DETRHead) (training : bool) (keep : nat -> bool)
    (feats memory src_proj src_mask : tensor R) (body_feats : list (tensor R)) :
  Forall head_event
    (trace_of (DETRHead_masks hd training keep feats memory src_proj src_mask body_feats)).
Proof.
  unfold DETRHead_masks.
  destruct (mask_branch hd) as [[att mh]|]; [|constructor].
  destruct (index_last feats) as [lf|]; [|constructor].
  unfold bind at 1. cbn [lift ret].
  destruct (MultiHeadAttentionMap_forward att training keep lf memory (Some src_mask))
    as [bam|]; [|repeat constructor].
  unfold bind at 1. cbn [call].
  destruct (MaskHeadFPNConv_forward mh src_proj bam (drop 1 (reverse body_feats)))
    as [seg|]; [|repeat constructor].
  unfold bind at 1. cbn [call].
  repeat match goal with
         | |- context [lift ?o] => destruct o; cbn [lift ret raise bind]
         end;
    repeat constructor.
Qed.

Lemma DETRHead_masks_kind (hd : DETRHead) (training : bool) (keep : nat -> bool)
    (feats memory src_proj src_mask : tensor R) (body_feats : list (tensor R))
    (seg : option (tensor R)) :
  outcome_of (DETRHead_masks hd training keep feats memory src_proj src_mask body_feats)
  = inr seg ->
  (with_mask_head hd = false -> seg = None)
  /\ (with_mask_head hd = true -> is_Some seg).
Proof.
  unfold DETRHead_masks, with_mask_head.
  destruct (mask_branch hd) as [[att mh]|].
  - intros Hr. split; [discriminate|]. intros _.
    destruct (index_last feats) as [lf|]; [|discriminate].
    unfold bind at 1 in Hr. cbn [lift ret] in Hr.
    destruct (MultiHeadAttentionMap_forward att training keep lf memory (Some src_mask))
      as [bam|]; [|discriminate].
    unfold bind at 1 in Hr. cbn [call] in Hr.
    destruct (MaskHeadFPNConv_forward mh src_proj bam (drop 1 (reverse body_feats)))
      as [sg|]; [|discriminate].
    unfold bind at 1 in Hr. cbn [call] in Hr.
    repeat match type of Hr with
           | context [lift ?o] => destruct o; cbn [lift ret raise bind] in Hr
           end;
      try discriminate.
    cbn in Hr. inversion Hr. eauto.
  - intros Hr. inversion Hr. split; [reflexivity|discriminate].
Qed.

(** Masks that are returned at inference are the reshaped output of the
    mask head. *)
Lemma DETRHead_masks_inv (hd : DETRHead) (keep : nat -> bool)
    (feats memory src_proj src_mask : tensor R) (body_feats : list (tensor R))
    (seg : option (tensor R)) :
  outcome_of (DETRHead_masks hd false keep feats memory src_proj src_mask body_feats)
  = inr seg ->
  mask_logits hd feats memory src_proj src_mask body_feats seg.
Proof.
  unfold DETRHead_masks, mask_logits.
  destruct (mask_branch hd) as [[att mh]|]; [|intros Hr; inversion Hr; reflexivity].
  intros Hr.
  destruct (index_last feats) as [lf|] eqn:El; [|discriminate].
  unfold bind at 1 in Hr. cbn [lift ret] in Hr.
  unfold MultiHeadAttentionMap_forward in Hr.
  destruct (MultiHeadAttentionMap_weights att lf memory (Some src_mask))
    as [bam|] eqn:Ea; [|discriminate].
  cbn [mbind option_bind dropout] in Hr.
  unfold bind at 1 in Hr. cbn [call] in Hr.
  destruct (MaskHeadFPNConv_forward mh src_proj bam (drop 1 (reverse body_feats)))
    as [out|] eqn:Eo; [|discriminate].
  unfold bind at 1 in Hr. cbn [call] in Hr.
  destruct (py_index (shape feats) 1) as [d1|] eqn:E1;
    cbn -[py_index reshape dimsZ] in Hr; [|discriminate].
  destruct (py_index (shape feats) 2) as [d2|] eqn:E2;
    cbn -[py_index reshape dimsZ] in Hr; [|discriminate].
  destruct (py_index (shape out) (-2)) as [h|] eqn:E3;
    cbn -[py_index reshape dimsZ] in Hr; [|discriminate].
  destruct (py_index (shape out) (-1)) as [w|] eqn:E4;
    cbn -[py_index reshape dimsZ] in Hr; [|discriminate].
  destruct (reshape out (dimsZ [d1; d2; h; w])) as [s|] eqn:Es;
    cbn -[py_index reshape dimsZ] in Hr; [|discriminate].
  inversion Hr; subst seg.
  exists lf, bam, out, d1, d2, h, w, s.
  split; [reflexivity|]. split; [exact Ea|]. split; [exact Eo|].
  split; [reflexivity|]. split; [reflexivity|]. split; [exact E3|].
  split; [exact E4|]. split; [exact Es|reflexivity].
Qed.

(** What the prediction phase logs and returns. *)
Lemma DETRHead_predict_inv (hd : DETRHead) (training : bool) (keep : nat -> bool)
    (feats memory src_proj src_mask : tensor R) (body_feats : list (tensor R)) :
  Forall head_event
    (trace_of (DETRHead_predict hd training keep (feats, memory, src_proj, src_mask)
                 body_feats))
  /\ forall bbox logit seg,
       outcome_of (DETRHead_predict hd training keep (feats, memory, src_proj, src_mask)
                     body_feats) = inr (bbox, logit, seg) ->
       exists raw,
         Linear_forward (score_head hd) feats = Some logit
         /\ MLP_forward (bbox_head hd) feats = Some raw
         /\ bbox = sigmoid raw
         /\ outcome_of (DETRHead_masks hd training keep feats memory src_proj
                          src_mask body_feats) = inr seg.
Proof.
  unfold DETRHead_predict.
  pose proof (DETRHead_masks_trace hd training keep feats memory src_proj src_mask
                body_feats) as Ht.
  destruct (Linear_forward (score_head hd) feats) as [logit0|].
  2:{ split; [repeat constructor|]. intros ? ? ? Hr. discriminate. }
  destruct (MLP_forward (bbox_head hd) feats) as [raw0|].
  2:{ split; [repeat constructor|]. intros ? ? ? Hr. discriminate. }
  destruct (DETRHead_masks hd training keep feats memory src_proj src_mask body_feats)
    as [t [e|seg0]].
  - split.
    + cbn. repeat (constructor; [exact I|]). exact Ht.
    + intros ? ? ? Hr. discriminate.
  - split.
    + cbn. repeat (constructor; [exact I|]). rewrite app_nil_r. exact Ht.
    + intros bbox logit seg Hr. cbn in Hr. inversion Hr; subst.
      exists raw0. auto.
Qed.




(** Without the required ground truth the training branch raises the
    assertion failure before anything else happens. *)
Lemma DETRHead_train_missing
    (inputs : option (gmap string pyval))
    (bbox logit : tensor R) (seg : option (tensor R)) :
  missing_supervision inputs ->
  DETRHead_train inputs bbox logit seg = ([], inl AssertionError).
Proof.
  intros [->|(i & -> & Hi)]; [reflexivity|].
  unfold DETRHead_train.
  rewrite bool_decide_eq_true_2 by eauto.
  change (default ∅ (Some i)) with i.
  assert (Hhas : dict_has i "gt_bbox" && dict_has i "gt_class" = false).
  { unfold dict_has. destruct Hi as [Hi|Hi]; rewrite Hi.
    - rewrite (bool_decide_eq_false_2 (is_Some None)) by (intros [? ?]; discriminate).
      reflexivity.
    - rewrite (bool_decide_eq_false_2 (is_Some None)) by (intros [? ?]; discriminate).
      apply andb_false_r. }
  rewrite Hhas. reflexivity.
Qed.

(** C2, as stated, fails: with [inputs = None] in training mode the
    assertion is raised only after the score head, the box head and the
    sigmoid have run. *)
Lemma DETRHead_assertion_after_heads :
  exists hd,
    DETRHead_init 1 1 1 1 [] false false zero_head_params = Some hd
    /\ @DETRHead_forward full_mask_util unit_loss hd true (fun _ => true)
         (pixel, pixel, pixel, pixel) [] None
       = ([EvScoreHead; EvBBoxHead; EvSigmoid], inl AssertionError).
Proof. eexists. split; reflexivity. Qed.

(** C2 (amended). In training mode without the required ground truth,
    [forward] first runs the prediction heads (score head, box head and,
    when enabled, attention map and mask head); if one of them raises, that
    exception is the outcome; otherwise the outcome is the assertion
    failure.  Nothing else runs: neither the rasterisation of the ground
    truth nor the loss is called, and the call never returns. *)
Theorem DETRHead_training_requires_ground_truth
    (hd : DETRHead) (keep : nat -> bool) (out : out_transformer)
    (body_feats : list (tensor R)) (inputs : option (gmap string pyval)) :
  missing_supervision inputs ->
  let pred := DETRHead_predict hd true keep out body_feats in
  let run := DETRHead_forward hd true keep out body_feats inputs in
  trace_of run = trace_of pred
  /\ Forall head_event (trace_of run)
  /\ outcome_of run = match outcome_of pred with
                      | inl e => inl e
                      | inr _ => inl AssertionError
                      end.
Proof.
  intros Hmiss pred run.
  destruct out as [[[feats memory] src_proj] src_mask].
  pose proof (proj1 (DETRHead_predict_inv hd true keep feats memory src_proj src_mask
                       body_feats)) as Htr.
  fold pred in Htr.
  assert (Hrun : run = (trace_of pred,
                        match outcome_of pred with
                        | inl e => inl e
                        | inr _ => inl AssertionError
                        end)).
  { unfold run, DETRHead_forward. fold pred.
    destruct pred as [t [e|[[bbox logit] seg]]]; [reflexivity|].
    unfold bind at 1. cbv beta iota.
    rewrite (DETRHead_train_missing inputs bbox logit seg Hmiss).
    cbn. rewrite app_nil_r. reflexivity. }
  rewrite Hrun. cbn [trace_of outcome_of fst snd].
  split; [reflexivity|]. split; [exact Htr|reflexivity].
Qed.

(** With boxes and classes but no polygons, the training branch calls the
    loss on the predictions and returns its result. *)
Lemma DETRHead_train_supervised
    (i : gmap string pyval) (gtb gtc : pyval)
    (bbox logit : tensor R) (seg : option (tensor R)) :
  i !! "gt_bbox" = Some gtb -> i !! "gt_class" = Some gtc -> i !! "gt_poly" = None ->
  DETRHead_train (Some i) bbox logit seg
  = ([EvLoss],
     match loss_call bbox logit gtb gtc seg None with
     | Some l => inr (OutLoss l)
     | None => inl CallError
     end).
Proof.
  intros Hb Hc Hp. unfold DETRHead_train.
  rewrite bool_decide_eq_true_2 by eauto.
  change (default ∅ (Some i)) with i.
  unfold DETRHead_gt_mask, dict_has, dict_get. rewrite Hb, Hc, Hp.
  rewrite !(bool_decide_eq_true_2 (is_Some (Some _))) by eauto.
  rewrite (bool_decide_eq_false_2 (is_Some None)) by (intros [? ?]; discriminate).
  cbn. destruct (loss_call bbox logit gtb gtc seg None); reflexivity.
Qed.


Lemma wf_last_slice {A} (t : tensor A) (L : nat) (rest : list nat) :
  shape t = S L :: rest -> wf t -> wf (last_slice L rest t).
Proof.
  intros Hs Hwf. unfold wf, last_slice in *. cbn [shape data].
  apply length_chunk_le. rewrite Hwf, Hs. simpl. lia.
Qed.

(** Laws of the effect monad. *)
Lemma bind_lift_Some {A B} (a : A) (f : A -> M B) : bind (lift (Some a)) f = f a.
Proof. unfold bind, lift, ret. destruct (f a) as [t r]. reflexivity. Qed.

Lemma bind_call_Some {A B} (ev : event) (a : A) (f : A -> M B) :
  bind (call ev (Some a)) f = (ev :: fst (f a), snd (f a)).
Proof. unfold bind, call. destruct (f a) as [t r]. reflexivity. Qed.

Lemma bind_ret_l {A B} (a : A) (f : A -> M B) : bind (ret a) f = f a.
Proof. unfold bind, ret. destruct (f a) as [t r]. reflexivity. Qed.

(** The two prediction heads of a constructed detection head return on the
    last slice of well-shaped query features. *)
Lemma DETRHead_heads_return
    (nc hidden nhead : nat) (nl : Z) (fpn_dims : list nat) (with_mask focal : bool)
    (p : DETRHeadParams) (hd : DETRHead) (last : tensor R) (B Q : nat) :
  DETRHead_init nc hidden nhead nl fpn_dims with_mask focal p = Some hd ->
  (1 <= nl)%Z ->
  shape last = [B; Q; hidden] -> wf last ->
  exists raw logit,
    MLP_forward (bbox_head hd) last = Some raw /\ shape raw = [B; Q; 4]
    /\ Linear_forward (score_head hd) last = Some logit
    /\ shape logit = [B; Q; num_classes hd].
Proof.
  intros Hinit Hnl Hlast Hlwf.
  unfold DETRHead_init in Hinit.
  match type of Hinit with
  | (?o ≫= _) = Some _ => destruct o as [branch|]; [|discriminate]
  end.
  cbn [mbind option_bind] in Hinit. inversion Hinit; subst hd; clear Hinit.
  cbn [bbox_head score_head num_classes].
  destruct (MLP_loop_chained nl
              (layers (MLP_init hidden hidden 4 nl (dp_bbox p))) 0 last [B; Q]
              hidden 4)
    as (tr & raw & _ & Hraw & _ & _ & Hrs & _); [|exact Hlast|exact Hlwf|].
  { unfold MLP_init, MLP_dims; simpl. apply MLP_dims_chained.
    intros i nk. simpl. auto. }
  set (nc' := if focal then nc else nc + 1).
  destruct (Linear_forward_shape (mkLinear hidden nc' true (dp_score p)) last [B; Q])
    as (logit & Hlogit & Hls & _); [exact Hlast|].
  exists raw, logit. repeat split; assumption.
Qed.

(** With the mask branch, inference on inputs of the documented shapes
    returns masks of shape [B, Q, H2, W2], the resolution of the finest
    pyramid level used. *)
Lemma DETRHead_forward_inference_masks
    (nc hidden nhead : nat) (nl : Z) (f0 f1 f2 : nat) (focal : bool)
    (p : DETRHeadParams) (hd : DETRHead) (keep : nat -> bool)
    (feats memory src_proj src_mask t0 t1 t2 top : tensor R)
    (inputs : option (gmap string pyval))
    (L B Q H W H0 W0 H1 W1 H2 W2 : nat) :
  DETRHead_init nc hidden nhead nl [f0; f1; f2] true focal p = Some hd ->
  (1 <= nl)%Z ->
  hidden mod nhead = 0 ->
  (hidden + nhead) mod 8 = 0 ->
  Forall (fun d => d mod 8 = 0) [hidden / 2; hidden / 4; hidden / 8; hidden / 16] ->
  Forall (fun d => 0 < d) [H; W; H0; W0; H1; W1; H2; W2] ->
  0 < B -> 0 < Q ->
  shape feats = [S L; B; Q; hidden] -> wf feats ->
  shape memory = [B; hidden; H; W] ->
  shape src_proj = [B; hidden; H; W] ->
  broadcast_shape [B; Q; nhead; H; W] (shape src_mask) = Some [B; Q; nhead; H; W] ->
  shape t0 = [B; f0; H0; W0] -> shape t1 = [B; f1; H1; W1] ->
  shape t2 = [B; f2; H2; W2] ->
  exists raw logit seg,
    shape raw = [B; Q; 4] /\ shape logit = [B; Q; num_classes hd]
    /\ shape seg = [B; Q; H2; W2]
    /\ DETRHead_forward hd false keep (feats, memory, src_proj, src_mask)
         [t2; t1; t0; top] inputs
       = ([EvScoreHead; EvBBoxHead; EvSigmoid; EvAttention; EvMaskHead],
          inr (OutPred (sigmoid raw) logit (Some seg))).
Proof.
  intros Hinit Hnl Hdiv Hd0 Hd8 Hpos HB HQ Hs Hwf Hmem Hproj Hmask Ht0 Ht1 Ht2.
  set (last := last_slice L [B; Q; hidden] feats).
  assert (Hlast : shape last = [B; Q; hidden]) by reflexivity.
  assert (Hlwf : wf last) by (apply wf_last_slice; assumption).
  destruct (DETRHead_heads_return nc hidden nhead nl [f0; f1; f2] true focal p hd last
              B Q Hinit Hnl Hlast Hlwf)
    as (raw & logit & Hraw & Hrs & Hlogit & Hls).
  assert (Hbranch : exists att mh,
             mask_branch hd = Some (att, mh)
             /\ MultiHeadAttentionMap_init hidden hidden nhead 0 true
                  (dp_att_q p) (dp_att_k p) = Some att
             /\ MaskHeadFPNConv_init (hidden + nhead) [f0; f1; f2] hidden 8 (dp_mask p)
                = Some mh).
  { unfold DETRHead_init in Hinit.
    destruct (MultiHeadAttentionMap_init hidden hidden nhead 0 true
                (dp_att_q p) (dp_att_k p)) as [att|]; [|discriminate].
    cbn [mbind option_bind] in Hinit.
    destruct (MaskHeadFPNConv_init (hidden + nhead) [f0; f1; f2] hidden 8 (dp_mask p))
      as [mh|]; [|discriminate].
    cbn [mbind option_bind] in Hinit. inversion Hinit; subst hd.
    exists att, mh. auto. }
  destruct Hbranch as (att & mh & Hbr & Hatt & Hmh).
  assert (HH : 0 < H /\ 0 < W /\ 0 < H2 /\ 0 < W2).
  { rewrite Forall_forall in Hpos.
    repeat split; apply Hpos; apply list_elem_of_In; simpl; tauto. }
  destruct HH as (HH & HW & HH2 & HW2).
  destruct (MultiHeadAttentionMap_weights_softmax hidden hidden nhead 0 true
              (dp_att_q p) (dp_att_k p) att B Q H W last memory (Some src_mask)
              Hatt Hdiv HB HQ HH HW Hlast Hmem)
    as (pre & _ & Hw).
  { intros mk Hmk. inversion Hmk; subst mk. exact Hmask. }
  set (bam := Tensor [B; Q; nhead; H; W]
                (concat (map (fun r => softmax_row (chunk r (H * W) pre))
                           (seq 0 (B * Q * nhead))))) in *.
  destruct (MaskHeadFPNConv_forward_shape (hidden + nhead) f0 f1 f2 hidden 8
              (dp_mask p) mh src_proj bam t0 t1 t2 [] B Q hidden nhead
              H W H0 W0 H1 W1 H2 W2 Hmh ltac:(lia) Hd0 Hd8 Hpos eq_refl Hproj eq_refl
              Ht0 Ht1 Ht2)
    as (seg0 & Hseg0 & Hseg0s & _).
  exists raw, logit, (Tensor [B; Q; H2; W2] (data seg0)).
  split; [exact Hrs|]. split; [exact Hls|]. split; [reflexivity|].
  rewrite (DETRHead_forward_inference hd keep feats memory src_proj src_mask
             [t2; t1; t0; top] inputs L [B; Q; hidden] Hs) by discriminate.
  fold last. rewrite Hlogit, Hraw.
  unfold DETRHead_masks. rewrite Hbr.
  rewrite (index_last_cons feats L [B; Q; hidden] Hs).
  change (Tensor [B; Q; hidden] (chunk L (numel [B; Q; hidden]) (data feats)))
    with last.
  rewrite bind_lift_Some.
  unfold MultiHeadAttentionMap_forward. rewrite Hw.
  cbn [mbind option_bind dropout].
  rewrite bind_call_Some.
  change (drop 1 (reverse [t2; t1; t0; top])) with [t0; t1; t2].
  rewrite Hseg0, bind_call_Some, Hs, Hseg0s.
  change (py_index [S L; B; Q; hidden] 1) with (Some B).
  change (py_index [S L; B; Q; hidden] 2) with (Some Q).
  change (py_index [B * Q; 1; H2; W2] (-2)) with (Some H2).
  change (py_index [B * Q; 1; H2; W2] (-1)) with (Some W2).
  rewrite !bind_lift_Some.
  rewrite (reshape_pos seg0 [B; Q; H2; W2])
    by (first [pos_dims | rewrite Hseg0s; simpl; lia]).
  rewrite bind_lift_Some.
  reflexivity.
Qed.

(** Without the mask branch, inference on well-shaped query features
    returns. *)
Lemma DETRHead_forward_inference_returns
    (nc hidden nhead : nat) (nl : Z) (fpn_dims : list nat) (focal : bool)
    (p : DETRHeadParams) (hd : DETRHead) (keep : nat -> bool)
    (feats memory src_proj src_mask : tensor R) (body_feats : list (tensor R))
    (inputs : option (gmap string pyval)) (L B Q : nat) :
  DETRHead_init nc hidden nhead nl fpn_dims false focal p = Some hd ->
  (1 <= nl)%Z ->
  shape feats = [S L; B; Q; hidden] -> wf feats ->
  exists raw logit,
    MLP_forward (bbox_head hd) (last_slice L [B; Q; hidden] feats) = Some raw
    /\ shape raw = [B; Q; 4]
    /\ Linear_forward (score_head hd) (last_slice L [B; Q; hidden] feats) = Some logit
    /\ shape logit = [B; Q; num_classes hd]
    /\ DETRHead_forward hd false keep (feats, memory, src_proj, src_mask)
         body_feats inputs
       = ([EvScoreHead; EvBBoxHead; EvSigmoid], inr (OutPred (sigmoid raw) logit None)).
Proof.
  intros Hinit Hnl Hs Hwf.
  unfold DETRHead_init in Hinit. cbn [mbind option_bind] in Hinit.
  inversion Hinit; subst hd; clear Hinit.
  set (last := last_slice L [B; Q; hidden] feats).
  assert (Hlast : shape last = [B; Q] ++ [hidden]) by reflexivity.
  assert (Hlwf : wf last) by (apply wf_last_slice; assumption).
  destruct (MLP_loop_chained nl
              (layers (MLP_init hidden hidden 4 nl (dp_bbox p))) 0 last [B; Q]
              hidden 4)
    as (tr & raw & _ & Hraw & _ & _ & Hrs & _); [|exact Hlast|exact Hlwf|].
  { unfold MLP_init, MLP_dims; simpl. apply MLP_dims_chained.
    intros i nk. simpl. auto. }
  set (nc' := if focal then nc else nc + 1).
  destruct (Linear_forward_shape (mkLinear hidden nc' true (dp_score p)) last [B; Q])
    as (logit & Hlogit & Hls & _); [exact Hlast|].
  exists raw, logit.
  split; [exact Hraw|]. split; [exact Hrs|]. split; [exact Hlogit|].
  split; [exact Hls|].
  rewrite (DETRHead_forward_inference _ keep feats memory src_proj src_mask body_feats
             inputs L [B; Q; hidden] Hs) by discriminate.
  cbn [score_head bbox_head]. fold last. fold nc'.
  rewrite Hlogit. unfold MLP_forward at 1.
  change (num_layers (MLP_init hidden hidden 4 nl (dp_bbox p))) with nl.
  rewrite Hraw. reflexivity.
Qed.

(** C7. In inference mode, whenever [forward] returns, it returns the
    3-tuple of the sigmoid of the box head on the last decoder layer, the
    score head on the last decoder layer, and the masks; the masks are
    [None] when the mask branch is disabled and, when it is enabled, the
    output of the mask head (on the projected memory, the attention maps
    of the last decoder layer and the pyramid levels) reshaped to
    [B, Q, H_out, W_out].  A head built without the mask branch does
    return on query features of shape [layers, B, Q, hidden_dim], with
    boxes of shape [B, Q, 4] and logits of shape [B, Q, num_classes], and
    a head built with the mask branch and three pyramid depths returns, on
    inputs of the documented shapes, also these masks, of shape
    [B, Q, H2, W2]. *)
Theorem DETRHead_inference_output
    (hd : DETRHead) (keep : nat -> bool)
    (feats memory src_proj src_mask : tensor R) (body_feats : list (tensor R))
    (inputs : option (gmap string pyval)) (L : nat) (rest : list nat) :
  shape feats = S L :: rest -> rest <> [] ->
  let run := DETRHead_forward hd false keep (feats, memory, src_proj, src_mask)
               body_feats inputs in
  let last := last_slice L rest feats in
  (forall r,
     outcome_of run = inr r ->
     exists raw logit seg,
       MLP_forward (bbox_head hd) last = Some raw
       /\ Linear_forward (score_head hd) last = Some logit
       /\ r = OutPred (sigmoid raw) logit seg
       /\ mask_logits hd feats memory src_proj src_mask body_feats seg
       /\ (with_mask_head hd = false -> seg = None)
       /\ (with_mask_head hd = true -> is_Some seg))
  /\ (forall nc hidden nhead nl fpn_dims focal p B Q,
        DETRHead_init nc hidden nhead nl fpn_dims false focal p = Some hd ->
        (1 <= nl)%Z -> rest = [B; Q; hidden] -> wf feats ->
        exists raw logit,
          shape raw = [B; Q; 4] /\ shape logit = [B; Q; num_classes hd]
          /\ run = ([EvScoreHead; EvBBoxHead; EvSigmoid],
                    inr (OutPred (sigmoid raw) logit None)))
  /\ (forall nc hidden nhead nl f0 f1 f2 focal p t0 t1 t2 top
             B Q Hm Wm H0 W0 H1 W1 H2 W2,
        DETRHead_init nc hidden nhead nl [f0; f1; f2] true focal p = Some hd ->
        (1 <= nl)%Z ->
        hidden mod nhead = 0 ->
        (hidden + nhead) mod 8 = 0 ->
        Forall (fun d => d mod 8 = 0)
          [hidden / 2; hidden / 4; hidden / 8; hidden / 16] ->
        Forall (fun d => 0 < d) [Hm; Wm; H0; W0; H1; W1; H2; W2] ->
        0 < B -> 0 < Q ->
        rest = [B; Q; hidden] -> wf feats ->
        shape memory = [B; hidden; Hm; Wm] ->
        shape src_proj = [B; hidden; Hm; Wm] ->
        broadcast_shape [B; Q; nhead; Hm; Wm] (shape src_mask)
        = Some [B; Q; nhead; Hm; Wm] ->
        body_feats = [t2; t1; t0; top] ->
        shape t0 = [B; f0; H0; W0] -> shape t1 = [B; f1; H1; W1] ->
        shape t2 = [B; f2; H2; W2] ->
        exists raw logit seg,
          shape raw = [B; Q; 4] /\ shape logit = [B; Q; num_classes hd]
          /\ shape seg = [B; Q; H2; W2]
          /\ mask_logits hd feats memory src_proj src_mask body_feats (Some seg)
          /\ run = ([EvScoreHead; EvBBoxHead; EvSigmoid; EvAttention; EvMaskHead],
                    inr (OutPred (sigmoid raw) logit (Some seg)))).
Proof.
  intros Hs Hrest run last.
  assert (Hret : forall r,
            outcome_of run = inr r ->
            exists raw logit seg,
              MLP_forward (bbox_head hd) last = Some raw
              /\ Linear_forward (score_head hd) last = Some logit
              /\ r = OutPred (sigmoid raw) logit seg
              /\ mask_logits hd feats memory src_proj src_mask body_feats seg
              /\ (with_mask_head hd = false -> seg = None)
              /\ (with_mask_head hd = true -> is_Some seg)).
  { intros r Hr. unfold run in Hr.
    rewrite (DETRHead_forward_inference hd keep feats memory src_proj src_mask
               body_feats inputs L rest Hs Hrest) in Hr.
    fold last in Hr.
    destruct (Linear_forward (score_head hd) last) as [logit|]; [|discriminate].
    destruct (MLP_forward (bbox_head hd) last) as [raw|]; [|discriminate].
    pose proof (DETRHead_masks_kind hd false keep feats memory src_proj src_mask
                  body_feats) as Hk.
    pose proof (DETRHead_masks_inv hd keep feats memory src_proj src_mask
                  body_feats) as Hi.
    destruct (DETRHead_masks hd false keep feats memory src_proj src_mask body_feats)
      as [t [e|seg]]; [discriminate|].
    cbn in Hr. inversion Hr; subst r.
    exists raw, logit, seg.
    split; [reflexivity|]. split; [reflexivity|]. split; [reflexivity|].
    split; [apply Hi; reflexivity|]. apply (Hk seg eq_refl). }
  split; [exact Hret|]. split.
  - intros nc hidden nhead nl fpn_dims focal p B Q Hinit Hnl -> Hwf.
    destruct (DETRHead_forward_inference_returns nc hidden nhead nl fpn_dims focal p
                hd keep feats memory src_proj src_mask body_feats inputs L B Q
                Hinit Hnl Hs Hwf)
      as (raw & logit & _ & Hrs & _ & Hls & Hrun).
    exists raw, logit. auto.
  - intros nc hidden nhead nl f0 f1 f2 focal p t0 t1 t2 top
           B Q Hm Wm H0 W0 H1 W1 H2 W2
           Hinit Hnl Hdiv Hd0 Hd8 Hpos HB HQ -> Hwf Hmem Hproj Hmask Hbody Ht0 Ht1 Ht2.
    destruct (DETRHead_forward_inference_masks nc hidden nhead nl f0 f1 f2 focal p hd
                keep feats memory src_proj src_mask t0 t1 t2 top inputs
                L B Q Hm Wm H0 W0 H1 W1 H2 W2
                Hinit Hnl Hdiv Hd0 Hd8 Hpos HB HQ Hs Hwf Hmem Hproj Hmask Ht0 Ht1 Ht2)
      as (raw & logit & seg & Hrs & Hls & Hss & Hrun).
    rewrite <- Hbody in Hrun. fold run in Hrun.
    destruct (Hret (OutPred (sigmoid raw) logit (Some seg)))
      as (raw' & logit' & seg' & _ & _ & Heq & Hml & _).
    { rewrite Hrun. reflexivity. }
    inversion Heq; subst seg'.
    exists raw, logit, seg. auto.
Qed.

Lemma DETRHead_masks_keep (hd : DETRHead) (keep1 keep2 : nat -> bool)
    (feats memory src_proj src_mask : tensor R) (body_feats : list (tensor R)) :
  DETRHead_masks hd false keep1 feats memory src_proj src_mask body_feats
  = DETRHead_masks hd false keep2 feats memory src_proj src_mask body_feats.
Proof. reflexivity. Qed.

(** C10. In inference mode the whole outcome of [forward], the calls made
    and the tuple returned or the exception raised, depends on the query
    features only through their last decoder layer: two query-feature
    tensors with the same last slice (and the same per-layer shape) give
    the same outcome, whatever the earlier layers, the number of layers,
    the supervision inputs and the dropout draw are. *)
Theorem DETRHead_inference_depends_on_last_layer
    (hd : DETRHead) (keep1 keep2 : nat -> bool)
    (feats1 feats2 memory src_proj src_mask : tensor R)
    (body_feats : list (tensor R)) (inputs1 inputs2 : option (gmap string pyval))
    (L1 L2 : nat) (rest : list nat) :
  shape feats1 = S L1 :: rest -> shape feats2 = S L2 :: rest -> rest <> [] ->
  index_last feats1 = index_last feats2 ->
  DETRHead_forward hd false keep1 (feats1, memory, src_proj, src_mask) body_feats inputs1
  = DETRHead_forward hd false keep2 (feats2, memory, src_proj, src_mask) body_feats inputs2.
Proof.
  intros H1 H2 Hrest Hlast.
  rewrite (index_last_cons feats1 L1 rest H1), (index_last_cons feats2 L2 rest H2)
    in Hlast.
  inversion Hlast as [Hdata].
  assert (Hslice : last_slice L1 rest feats1 = last_slice L2 rest feats2)
    by (unfold last_slice; rewrite Hdata; reflexivity).
  rewrite (DETRHead_forward_inference hd keep1 feats1 memory src_proj src_mask
             body_feats inputs1 L1 rest H1 Hrest).
  rewrite (DETRHead_forward_inference hd keep2 feats2 memory src_proj src_mask
             body_feats inputs2 L2 rest H2 Hrest).
  rewrite Hslice.
  rewrite (DETRHead_masks_last hd false keep1 feats1 feats2 memory src_proj src_mask
             body_feats L1 L2 rest H1 H2 Hslice).
  rewrite (DETRHead_masks_keep hd keep1 keep2). reflexivity.
Qed.

End DetectionHead.

(** ** Ground-truth masks *)

Lemma bget_in_bounds {A} `{Inhabited A} (t : tensor A) (idx : list nat) :
  in_bounds (shape t) idx -> bget t idx = tget t idx.
Proof.
  intros Hb. unfold bget. f_equal.
  rewrite (Forall2_length _ _ _ Hb), Nat.sub_diag. simpl.
  unfold in_bounds in Hb. set (s := shape t) in *. clearbody s.
  induction Hb as [|i d idx s Hi Hb IH]; simpl; [reflexivity|].
  change (drop 0 idx) with idx in IH. rewrite IH. destruct (Nat.eqb_spec d 1) as [->|]; [|reflexivity].
  f_equal. lia.
Qed.

Lemma lookup_total_concat {A} `{Inhabited A} (ls : list (list A)) (d o j : nat) :
  Forall (fun l => length l = d) ls -> o < length ls -> j < d ->
  concat ls !!! (o * d + j) = (ls !!! o) !!! j.
Proof.
  intros Hall. revert o. induction Hall as [|l ls Hl Hall IH]; intros o Ho Hj.
  - simpl in Ho. lia.
  - destruct o as [|o]; simpl.
    + rewrite lookup_total_app_l by lia. reflexivity.
    + rewrite lookup_total_app_r by lia.
      replace (d + o * d + j - length l) with (o * d + j) by lia.
      apply IH; [simpl in Ho; lia|exact Hj].
Qed.

Lemma sum_list_le_length (f : nat -> nat) (n : nat) :
  (forall r, r < n -> f r <= 1) -> sum_list (map f (seq 0 n)) <= n.
Proof.
  intros Hf. induction n as [|n IH]; [simpl; lia|].
  rewrite seq_S, map_app, sum_list_with_app. simpl.
  pose proof (Hf n ltac:(lia)).
  assert (IH' : sum_list (map f (seq 0 n)) <= n) by (apply IH; intros; apply Hf; lia).
  lia.
Qed.

Lemma mapM_total {A B} (f : A -> option B) (P : A -> B -> Prop) (l : list A) :
  (forall a, a ∈ l -> exists b, f a = Some b /\ P a b) ->
  exists k, mapM f l = Some k /\ Forall2 (fun a b => f a = Some b /\ P a b) l k.
Proof.
  induction l as [|a l IH]; intros Hf.
  - exists []. split; [reflexivity|constructor].
  - destruct (Hf a) as (b & Hb & HP); [left|].
    destruct IH as (k & Hk & Hall); [intros a' Ha'; apply Hf; right; exact Ha'|].
    exists (b :: k). split.
    + simpl. rewrite Hb. simpl. rewrite Hk. reflexivity.
    + constructor; auto.
Qed.

Lemma tget_zeros (s idx : list nat) : in_bounds s idx -> tget (zeros s) idx = 0%R.
Proof.
  intros Hb. unfold tget, zeros. cbn [shape data].
  apply lookup_total_replicate_2. apply ravel_lt. exact Hb.
Qed.

Lemma tget_le_1 (t : tensor nat) (idx : list nat) :
  wf t -> in_bounds (shape t) idx -> Forall (fun v => v <= 1) (data t) ->
  tget t idx <= 1.
Proof.
  intros Hwf Hb Hall. unfold tget.
  apply (Forall_lookup_total_1 _ _ _ Hall).
  rewrite Hwf. apply ravel_lt. exact Hb.
Qed.

Section GroundTruth.

Context `{MU : MaskUtil}.

(** One image: the rasters of its objects, computed at the unpadded
    height and width, pasted into the top-left corner of a zero tensor of
    the padded extent. *)
Lemma gt_mask_of_image_spec (pad_mask padding : tensor nat)
    (polygons : list (list (list R))) (B Hp Wp : nat) :
  shape pad_mask = [B; Hp; Wp] ->
  shape padding = [Hp; Wp] -> wf padding ->
  0 < Hp -> 0 < Wp ->
  Forall (fun v => v <= 1) (data padding) ->
  polygons <> [] ->
  let height := sum_list (map (fun r => tget padding [r; 0]) (seq 0 Hp)) in
  let width := sum_list (map (fun c => tget padding [0; c]) (seq 0 Wp)) in
  (forall obj, obj ∈ polygons ->
     exists r, rasterize obj height width = Some r
               /\ shape r = [height; width] /\ wf r) ->
  exists masks_pad,
    gt_mask_of_image pad_mask polygons padding = Some masks_pad
    /\ height <= Hp /\ width <= Wp
    /\ shape masks_pad = [length polygons; Hp; Wp] /\ wf masks_pad
    /\ forall o obj y x,
         polygons !! o = Some obj -> y < Hp -> x < Wp ->
         exists r,
           rasterize obj height width = Some r
           /\ tget masks_pad [o; y; x]
              = if (y <? height) && (x <? width) then tget r [y; x] else 0%R.
Proof.
  intros Hpm Hps Hpwf HHp HWp Hbin Hne height width Hras.
  assert (Hh : height <= Hp).
  { apply sum_list_le_length. intros r Hr.
    apply tget_le_1; [exact Hpwf| |exact Hbin]. rewrite Hps. in_bounds_tac. }
  assert (Hw : width <= Wp).
  { apply sum_list_le_length. intros c Hc.
    apply tget_le_1; [exact Hpwf| |exact Hbin]. rewrite Hps. in_bounds_tac. }
  unfold gt_mask_of_image, first_col_sum, first_row_sum. rewrite Hps.
  destruct (Nat.eqb_spec Wp 0) as [|_]; [lia|].
  destruct (Nat.eqb_spec Hp 0) as [|_]; [lia|].
  cbn [mbind option_bind]. fold height. fold width.
  destruct (mapM_total (fun obj => rasterize obj height width)
              (fun _ r => shape r = [height; width] /\ wf r) polygons)
    as (masks & -> & Hall).
  { intros obj Hobj. apply Hras. exact Hobj. }
  cbn [mbind option_bind].
  assert (Hlen : length polygons = length masks) by (eapply Forall2_length; eauto).
  assert (Hshapes : Forall (fun r => shape r = [height; width] /\ wf r) masks).
  { clear -Hall. induction Hall as [|a b l k [_ Hb] _ IH]; constructor; auto. }
  destruct masks as [|r0 masks'] eqn:Hmasks.
  { destruct polygons; [congruence|discriminate]. }
  rewrite <- Hmasks in *.
  assert (Hr0 : shape r0 = [height; width]).
  { rewrite Hmasks in Hshapes. apply Forall_cons in Hshapes. tauto. }
  assert (Hstack : stack masks
                   = Some (Tensor (length masks :: [height; width])
                             (concat (map data masks)))).
  { rewrite Hmasks at 1. unfold stack. rewrite <- Hmasks.
    replace (forallb (fun u => bool_decide (shape u = shape r0)) masks) with true.
    - rewrite Hr0. reflexivity.
    - symmetry. apply forallb_forall. intros u Hu.
      apply bool_decide_eq_true_2. rewrite Hr0.
      rewrite Forall_forall in Hshapes. apply Hshapes, list_elem_of_In. exact Hu. }
  rewrite Hstack. cbn [mbind option_bind shape]. rewrite Hpm.
  cbn [lookup list_lookup mbind option_bind].
  unfold set_top_left. cbn [shape zeros].
  rewrite (Nat.min_l height Hp Hh), (Nat.min_l width Wp Hw).
  rewrite broadcast_shape_refl, bool_decide_eq_true_2 by reflexivity.
  eexists. split; [reflexivity|].
  split; [exact Hh|]. split; [exact Hw|].
  split; [cbn [shape tinit]; rewrite Hlen; reflexivity|].
  split; [apply wf_tinit|].
  intros o obj y x Hobj Hy Hx.
  destruct (Forall2_lookup_l _ _ _ _ _ Hall Hobj) as (r & Hr & Hras_r & Hrs & Hrwf).
  exists r. split; [exact Hras_r|].
  assert (Ho : o < length masks) by (apply lookup_lt_Some in Hr; exact Hr).
  rewrite tget_tinit by in_bounds_tac.
  cbn [lookup_total list_lookup_total].
  change ([o; y; x] !!! 1) with y. change ([o; y; x] !!! 2) with x.
  destruct (Nat.ltb_spec y height) as [Hyh|Hyh];
    destruct (Nat.ltb_spec x width) as [Hxw|Hxw]; cbn [andb];
    try (apply tget_zeros; in_bounds_tac).
  rewrite bget_in_bounds by (cbn [shape]; in_bounds_tac).
  unfold tget. cbn [shape data].
  change (ravel [length masks; height; width] [o; y; x])
    with (o * numel [height; width] + ravel [height; width] [y; x]).
  rewrite (lookup_total_concat (map data masks) (numel [height; width])).
  - rewrite Hrs. f_equal.
    apply list_lookup_total_correct.
    change (map data masks) with (data <$> masks).
    rewrite list_lookup_fmap, Hr. reflexivity.
  - apply Forall_forall. intros l Hl.
    apply list_elem_of_In, in_map_iff in Hl. destruct Hl as (u & <- & Hu).
    rewrite Forall_forall in Hshapes.
    destruct (Hshapes u) as [Hus Huwf]; [apply list_elem_of_In; exact Hu|].
    rewrite Huwf, Hus. reflexivity.
  - rewrite length_map. exact Ho.
  - apply ravel_lt. in_bounds_tac.
Qed.

Lemma unstack_lookup {A} (t : tensor A) (B : nat) (rest : list nat) (i : nat) :
  shape t = B :: rest -> i < B -> unstack t !! i = Some (slice_at i t).
Proof.
  intros Hs Hi. unfold unstack, slice_at. rewrite Hs. cbn [drop].
  change (map ?f (seq 0 B)) with (f <$> seq 0 B).
  rewrite list_lookup_fmap, lookup_seq_lt by exact Hi. reflexivity.
Qed.

Lemma length_unstack {A} (t : tensor A) (B : nat) (rest : list nat) :
  shape t = B :: rest -> length (unstack t) = B.
Proof.
  intros Hs. unfold unstack. rewrite Hs, length_map, length_seq. reflexivity.
Qed.

(** C9, as stated, fails for an image without objects: stacking an empty
    list of rasters raises, so no tensor is returned. *)
Lemma get_gt_mask_no_objects :
  @get_gt_mask_from_polygons full_mask_util [[]] one_padding = None.
Proof. reflexivity. Qed.

(** C9 (amended). For a binary padding mask [B, Hp, Wp] with a non-empty
    canvas, when every image that is visited has at least one object and
    the rasteriser turns the polygons of each of its objects, at the
    height and width of that image, into a raster of that size,
    [get_gt_mask_from_polygons] returns one tensor per (image, padding)
    pair; for image [i] the height is the sum of the first column of
    [pad_mask[i]], the width the sum of its first row, and the tensor has
    shape [objects, Hp, Wp], holds the raster of each object at that
    height and width in its top-left corner and is zero everywhere else. *)
Theorem get_gt_mask_from_polygons_pasted
    (gt_poly : list (list (list (list R)))) (pad_mask : tensor nat)
    (B Hp Wp : nat) :
  shape pad_mask = [B; Hp; Wp] -> wf pad_mask ->
  0 < Hp -> 0 < Wp ->
  Forall (fun v => v <= 1) (data pad_mask) ->
  (forall i polygons,
     gt_poly !! i = Some polygons -> i < B ->
     polygons <> []
     /\ forall obj height width,
          obj ∈ polygons ->
          first_col_sum (slice_at i pad_mask) = Some height ->
          first_row_sum (slice_at i pad_mask) = Some width ->
          exists r, rasterize obj height width = Some r
                    /\ shape r = [height; width] /\ wf r) ->
  exists out,
    get_gt_mask_from_polygons gt_poly pad_mask = Some out
    /\ length out = Nat.min (length gt_poly) B
    /\ forall i polygons,
         gt_poly !! i = Some polygons -> i < B ->
         exists masks_pad,
           out !! i = Some masks_pad
           /\ pasted_masks Hp Wp polygons (slice_at i pad_mask) masks_pad.
Proof.
  intros Hs Hwf HHp HWp Hbin Hras.
  unfold get_gt_mask_from_polygons.
  destruct (mapM_total
              (fun pp => gt_mask_of_image pad_mask (fst pp) (snd pp))
              (fun pp m => pasted_masks Hp Wp (fst pp) (snd pp) m)
              (zip gt_poly (unstack pad_mask)))
    as (out & Hout & Hall).
  { intros [polygons padding] Hin.
    apply list_elem_of_lookup in Hin. destruct Hin as (i & Hi).
    apply lookup_zip_Some in Hi. destruct Hi as [Hpoly Hpad].
    assert (HiB : i < B).
    { apply lookup_lt_Some in Hpad.
      rewrite (length_unstack pad_mask B [Hp; Wp] Hs) in Hpad. exact Hpad. }
    rewrite (unstack_lookup pad_mask B [Hp; Wp] i Hs HiB) in Hpad.
    inversion Hpad; subst padding; clear Hpad.
    destruct (Hras i polygons Hpoly HiB) as [Hne Hobj].
    cbn [fst snd]. unfold pasted_masks.
    apply (gt_mask_of_image_spec pad_mask (slice_at i pad_mask) polygons B Hp Wp Hs).
    - unfold slice_at. rewrite Hs. reflexivity.
    - unfold wf, slice_at. rewrite Hs. cbn [shape data drop].
      apply length_chunk_le. rewrite Hwf, Hs. simpl. nia.
    - exact HHp.
    - exact HWp.
    - unfold slice_at, chunk. cbn [data].
      apply Forall_take, Forall_drop. exact Hbin.
    - exact Hne.
    - intros obj Hin. apply (Hobj obj); [exact Hin| |].
      + unfold first_col_sum. unfold slice_at at 1. cbn [shape]. rewrite Hs.
        cbn [drop]. destruct (Nat.eqb_spec Wp 0) as [|_]; [lia|reflexivity].
      + unfold first_row_sum. unfold slice_at at 1. cbn [shape]. rewrite Hs.
        cbn [drop]. destruct (Nat.eqb_spec Hp 0) as [|_]; [lia|reflexivity]. }
  exists out. split; [exact Hout|]. split.
  - rewrite <- (Forall2_length _ _ _ Hall), length_zip.
    rewrite (length_unstack pad_mask B [Hp; Wp] Hs). reflexivity.
  - intros i polygons Hpoly HiB.
    assert (Hz : zip gt_poly (unstack pad_mask) !! i
                 = Some (polygons, slice_at i pad_mask)).
    { apply lookup_zip_Some. split; [exact Hpoly|].
      apply (unstack_lookup pad_mask B [Hp; Wp] i Hs HiB). }
    destruct (Forall2_lookup_l _ _ _ _ _ Hall Hz) as (m & Hm & _ & HP).
    exists m. split; [exact Hm|exact HP].
Qed.

End GroundTruth.

(** ** Further properties of the multilayer perceptron *)

(** X1. [MLP] with [num_layers <= 1], zero and negative counts included, is
    one linear layer from [input_dim] to [output_dim]: [hidden_dim] is not
    used and [forward] applies no ReLU. *)
Theorem MLP_without_hidden_layers
    (input hidden output : nat) (n : Z)
    (params : nat -> (nat -> nat -> R) * (nat -> R)) (x : tensor R) :
  (n <= 1)%Z ->
  let l := {| in_features := input; out_features := output;
              weight := fst (params 0); bias := Some (snd (params 0)) |} in
  layers (MLP_init input hidden output n params) = [l]
  /\ MLP_forward (MLP_init input hidden output n params) x = Linear_forward l x.
Proof.
  intros Hn l.
  assert (Hl : layers (MLP_init input hidden output n params) = [l]).
  { unfold MLP_init, MLP_dims; simpl.
    replace (Z.to_nat (n - 1)) with 0 by lia. reflexivity. }
  split; [exact Hl|].
  unfold MLP_forward. rewrite Hl.
  change (num_layers (MLP_init input hidden output n params)) with n.
  simpl. destruct (Linear_forward l x) as [y|]; [|reflexivity].
  replace (Z.of_nat 0 <? n - 1)%Z with false by (symmetry; apply Z.ltb_ge; lia).
  reflexivity.
Qed.

Lemma MLP_loop_returns (n : Z) (ls : list Linear) :
  forall (i : nat) (x : tensor R) (d_in d_out : nat),
    ls <> [] -> chained d_in ls d_out ->
    (is_Some (MLP_loop n i ls x) <-> exists pre, shape x = pre ++ [d_in]).
Proof.
  induction ls as [|l ls IH]; intros i x d_in d_out Hne Hch; [contradiction|].
  destruct Hch as [Hin Hch]. simpl.
  split.
  - intros [y Hy].
    destruct (Linear_forward l x) as [z|] eqn:Ez; [|discriminate].
    apply Linear_forward_inv in Ez. destruct Ez as (pre & Hs & _).
    exists pre. rewrite <- Hin. exact Hs.
  - intros [pre Hs]. rewrite <- Hin in Hs.
    destruct (Linear_forward_shape l x pre Hs) as (z & Ez & Hz & _).
    rewrite Ez.
    destruct ls as [|l' ls']; [simpl; eauto|].
    apply (IH (S i) _ (out_features l) d_out); [discriminate|exact Hch|].
    exists pre.
    destruct (Z.of_nat i <? n - 1)%Z; [|exact Hz]. exact Hz.
Qed.

(** X2. [MLP.forward] returns exactly on the tensors whose last axis has
    [input_dim] entries; on every other tensor, a tensor without axes
    included, it raises. *)
Theorem MLP_forward_returns_iff
    (input hidden output : nat) (n : Z)
    (params : nat -> (nat -> nat -> R) * (nat -> R)) (x : tensor R) :
  is_Some (MLP_forward (MLP_init input hidden output n params) x)
  <-> exists pre, shape x = pre ++ [input].
Proof.
  unfold MLP_forward.
  apply (MLP_loop_returns _ _ 0 x input output).
  - intros E. apply (f_equal length) in E. unfold MLP_init, MLP_dims in E.
    cbn [layers] in E. rewrite length_imap, length_zip, !length_app in E.
    cbn [length] in E. lia.
  - unfold MLP_init, MLP_dims; simpl. apply MLP_dims_chained.
    intros i nk. simpl. auto.
Qed.

(** The [r]-th output vector of a linear layer is computed from the [r]-th
    input vector alone. *)
Lemma Linear_forward_row (l : Linear) (x y : tensor R) (pre : list nat) (r : nat) :
  shape x = pre ++ [in_features l] -> Linear_forward l x = Some y -> r < numel pre ->
  shape y = pre ++ [out_features l]
  /\ chunk r (out_features l) (data y)
     = linear_row l (chunk r (in_features l) (data x)).
Proof.
  intros Hs Hy Hr. unfold Linear_forward in Hy.
  rewrite Hs, split_last_snoc, Nat.eqb_refl in Hy.
  inversion Hy; subst y; clear Hy. simpl. split; [reflexivity|].
  apply (chunk_concat_map
           (fun r => linear_row l (chunk r (in_features l) (data x)))).
  - intros i _. apply length_linear_row.
  - exact Hr.
Qed.

Lemma MLP_loop_rows (n : Z) (ls : list Linear) :
  forall (i : nat) (x1 x2 y1 y2 : tensor R) (pre1 pre2 : list nat) (d r1 r2 : nat),
    shape x1 = pre1 ++ [d] -> shape x2 = pre2 ++ [d] ->
    r1 < numel pre1 -> r2 < numel pre2 ->
    chunk r1 d (data x1) = chunk r2 d (data x2) ->
    MLP_loop n i ls x1 = Some y1 -> MLP_loop n i ls x2 = Some y2 ->
    exists d',
      shape y1 = pre1 ++ [d'] /\ shape y2 = pre2 ++ [d']
      /\ chunk r1 d' (data y1) = chunk r2 d' (data y2).
Proof.
  induction ls as [|l ls IH]; intros i x1 x2 y1 y2 pre1 pre2 d r1 r2
                                     Hs1 Hs2 Hr1 Hr2 Hrow Hy1 Hy2.
  - simpl in Hy1, Hy2. inversion Hy1; inversion Hy2; subst. eauto.
  - simpl in Hy1, Hy2.
    destruct (Linear_forward l x1) as [z1|] eqn:E1; [|discriminate].
    destruct (Linear_forward l x2) as [z2|] eqn:E2; [|discriminate].
    assert (Hd : d = in_features l).
    { destruct (Linear_forward_inv _ _ _ E1) as (pre & Hpre & _).
      rewrite Hs1 in Hpre. apply app_inj_tail in Hpre. tauto. }
    subst d.
    destruct (Linear_forward_row l x1 z1 pre1 r1 Hs1 E1 Hr1) as [Hz1 Hc1].
    destruct (Linear_forward_row l x2 z2 pre2 r2 Hs2 E2 Hr2) as [Hz2 Hc2].
    assert (Hz : chunk r1 (out_features l) (data z1)
                 = chunk r2 (out_features l) (data z2)).
    { rewrite Hc1, Hc2, Hrow. reflexivity. }
    destruct (Z.of_nat i <? n - 1)%Z.
    + apply (IH (S i) (relu z1) (relu z2) y1 y2 pre1 pre2 (out_features l) r1 r2);
        try assumption.
      unfold relu, tmap; simpl. rewrite !chunk_map, Hz. reflexivity.
    + apply (IH (S i) z1 z2 y1 y2 pre1 pre2 (out_features l) r1 r2);
        assumption.
Qed.

(** ** Further properties of the attention map *)

Lemma length_known_dims (rs : list (option nat)) :
  length (known_dims rs) <= length rs.
Proof.
  induction rs as [|[v|] rs IH].
  - reflexivity.
  - change (known_dims (Some v :: rs)) with (v :: known_dims rs). simpl. lia.
  - change (known_dims (None :: rs)) with (known_dims rs). simpl. lia.
Qed.

Lemma known_dims_full (v : nat) (rs : list (option nat)) :
  length (known_dims rs) = length rs -> map (default v) rs = known_dims rs.
Proof.
  induction rs as [|[a|] rs IH]; intros Hl.
  - reflexivity.
  - change (known_dims (Some a :: rs)) with (a :: known_dims rs) in *.
    simpl in Hl. simpl map. f_equal. apply IH. lia.
  - change (known_dims (None :: rs)) with (known_dims rs) in *.
    pose proof (length_known_dims rs) as Hle. simpl in Hl. lia.
Qed.

Lemma numel_one_hole (v : nat) (rs : list (option nat)) :
  length rs - length (known_dims rs) = 1 ->
  numel (map (default v) rs) = numel (known_dims rs) * v.
Proof.
  induction rs as [|[a|] rs IH]; intros Hl.
  - discriminate.
  - change (known_dims (Some a :: rs)) with (a :: known_dims rs) in *.
    simpl in Hl. simpl map. rewrite !numel_cons, IH by exact Hl. simpl. lia.
  - change (known_dims (None :: rs)) with (known_dims rs) in *.
    pose proof (length_known_dims rs) as Hle. simpl in Hl.
    simpl map. rewrite numel_cons, (known_dims_full v rs) by lia. simpl. lia.
Qed.

(** A reshape keeps the number of elements. *)
Lemma reshape_shape_numel (xs s' : list nat) (tgt : list Z) :
  reshape_shape xs tgt = Some s' -> numel s' = numel xs.
Proof.
  unfold reshape_shape. intros Hs.
  destruct (mapM (fun o => o) (imap (resolve_dim xs) tgt)) as [rs|]; [|discriminate].
  destruct (length rs - length (known_dims rs)) as [|[|k]] eqn:Hk; [| |discriminate].
  - destruct (Nat.eqb_spec (numel xs) (numel (known_dims rs))) as [E|]; [|discriminate].
    inversion Hs; subst s'. symmetry. exact E.
  - destruct (Nat.eqb_spec (numel (known_dims rs)) 0) as [|Hnz]; [discriminate|].
    destruct (Nat.eqb_spec (numel xs mod numel (known_dims rs)) 0) as [Hm|];
      [|discriminate].
    inversion Hs; subst s'. rewrite numel_one_hole by exact Hk.
    pose proof (Nat.div_mod (numel xs) (numel (known_dims rs)) Hnz). lia.
Qed.

Lemma list4_shape {A} (l : list A) :
  length l = length [0; 0; 0; 0] -> exists a b c d, l = [a; b; c; d].
Proof.
  destruct l as [|a [|b [|c [|d [|e l]]]]]; try discriminate. eauto.
Qed.

(** X4. When [hidden_dim] is not a multiple of [num_heads],
    [MultiHeadAttentionMap.forward] raises on every non-empty query tensor
    [B, Q, query_dim]: the projected queries cannot be split into
    [num_heads] heads of [hidden_dim // num_heads] channels. *)
Theorem MultiHeadAttentionMap_heads_must_divide
    (query_dim hidden heads : nat) (p : R) (use_bias : bool)
    (pq : LinearParams) (pk : ConvParams) (m : MultiHeadAttentionMap)
    (B Q : nat) (training : bool) (keep : nat -> bool)
    (q k : tensor R) (mask : option (tensor R)) :
  MultiHeadAttentionMap_init query_dim hidden heads p use_bias pq pk = Some m ->
  hidden mod heads <> 0 ->
  0 < B -> 0 < Q ->
  shape q = [B; Q; query_dim] ->
  MultiHeadAttentionMap_forward m training keep q k mask = None.
Proof.
  intros Hinit Hmod HB HQ Hq.
  unfold MultiHeadAttentionMap_init in Hinit.
  destruct (Nat.eqb heads 0 || Nat.eqb hidden 0) eqn:Hz; [discriminate|].
  apply orb_false_iff in Hz. destruct Hz as [Hh0 Hd0].
  apply Nat.eqb_neq in Hh0. apply Nat.eqb_neq in Hd0.
  inversion Hinit; subst m; clear Hinit.
  unfold MultiHeadAttentionMap_forward.
  destruct (MultiHeadAttentionMap_weights _ q k mask) as [w|] eqn:E; [exfalso|reflexivity].
  unfold MultiHeadAttentionMap_weights in E.
  cbn [q_proj k_proj mha_num_heads mha_hidden_dim normalize_fact] in E.
  destruct (Linear_forward_shape (mkLinear query_dim hidden use_bias pq) q [B; Q] Hq)
    as (q' & Eq' & Hq' & _).
  rewrite Eq' in E. cbn [mbind option_bind] in E.
  destruct (Conv2D_forward _ k) as [k'|]; [|discriminate].
  cbn [mbind option_bind] in E.
  change (out_features (mkLinear query_dim hidden use_bias pq)) with hidden in Hq'.
  simpl app in Hq'. rewrite Hq' in E.
  change (py_index [B; Q; hidden] 0) with (Some B) in E.
  change (py_index [B; Q; hidden] 1) with (Some Q) in E.
  cbn [mbind option_bind] in E.
  unfold floordiv in E.
  destruct (Nat.eqb_spec heads 0) as [|_]; [contradiction|].
  cbn [mbind option_bind] in E.
  destruct (py_index (shape k') (-2)) as [h|]; [|discriminate].
  destruct (py_index (shape k') (-1)) as [w0|]; [|discriminate].
  cbn [mbind option_bind] in E.
  destruct (reshape q' (dimsZ [B; Q; heads; hidden / heads])) as [qh|] eqn:Er;
    [|discriminate].
  apply reshape_inv in Er. destruct Er as [Er _]. rewrite Hq' in Er.
  pose proof (reshape_shape_numel _ _ _ Er) as Hn.
  destruct (reshape_shape_dimsZ_inv _ _ _ Er) as [Hlen Hent].
  destruct (list4_shape (shape qh) Hlen) as (a & b & c & d & Hqh).
  rewrite Hqh in Hent, Hn.
  destruct (Hent 0 B eq_refl) as [H0 _].
  destruct (Hent 1 Q eq_refl) as [H1 _].
  destruct (Hent 2 heads eq_refl) as [H2 _].
  destruct (Hent 3 (hidden / heads) eq_refl) as [H3 H3z].
  destruct (Nat.eqb_spec B 0) as [|_]; [lia|].
  destruct (Nat.eqb_spec Q 0) as [|_]; [lia|].
  destruct (Nat.eqb_spec heads 0) as [|_]; [lia|].
  destruct (Nat.eqb_spec (hidden / heads) 0) as [Hc0|_].
  - destruct (H3z Hc0) as [v Hv]. discriminate.
  - simpl in H0, H1, H2, H3. inversion H0; inversion H1; inversion H2; inversion H3.
    subst a b c d. simpl in Hn.
    pose proof (Nat.div_mod hidden heads Hh0) as Hdm.
    assert (Hmul : heads * (hidden / heads) = hidden) by nia.
    lia.
Qed.

(** X5. [MultiHeadAttentionMap.forward] raises when the queries and the
    keys come from batches of different sizes: the projected keys cannot be
    split into the heads of [B] images. *)
Theorem MultiHeadAttentionMap_batches_must_agree
    (query_dim hidden heads : nat) (p : R) (use_bias : bool)
    (pq : LinearParams) (pk : ConvParams) (m : MultiHeadAttentionMap)
    (B B' Q H W : nat) (training : bool) (keep : nat -> bool)
    (q k : tensor R) (mask : option (tensor R)) :
  MultiHeadAttentionMap_init query_dim hidden heads p use_bias pq pk = Some m ->
  0 < B -> 0 < Q -> 0 < H -> 0 < W ->
  shape q = [B; Q; query_dim] ->
  shape k = [B'; query_dim; H; W] ->
  B' <> B ->
  MultiHeadAttentionMap_forward m training keep q k mask = None.
Proof.
  intros Hinit HB HQ HH HW Hq Hk Hne.
  unfold MultiHeadAttentionMap_init in Hinit.
  destruct (Nat.eqb heads 0 || Nat.eqb hidden 0) eqn:Hz; [discriminate|].
  apply orb_false_iff in Hz. destruct Hz as [Hh0 Hd0].
  apply Nat.eqb_neq in Hh0. apply Nat.eqb_neq in Hd0.
  inversion Hinit; subst m; clear Hinit.
  unfold MultiHeadAttentionMap_forward.
  destruct (MultiHeadAttentionMap_weights _ q k mask) as [w|] eqn:E; [exfalso|reflexivity].
  unfold MultiHeadAttentionMap_weights in E.
  cbn [q_proj k_proj mha_num_heads mha_hidden_dim normalize_fact] in E.
  destruct (Linear_forward_shape (mkLinear query_dim hidden use_bias pq) q [B; Q] Hq)
    as (q' & Eq' & Hq' & _).
  rewrite Eq' in E. cbn [mbind option_bind] in E.
  destruct (Conv2D_forward _ k) as [k'|] eqn:Ek; [|discriminate].
  cbn [mbind option_bind] in E.
  apply Conv2D_forward_inv in Ek. destruct Ek as (n0 & h0 & w0 & Hk0 & Hk').
  rewrite Hk in Hk0. inversion Hk0; subst n0 h0 w0; clear Hk0.
  cbn [c_out cpad ksize mkConv2D] in Hk'.
  replace (H + 2 * 0 + 1 - 1) with H in Hk' by lia.
  replace (W + 2 * 0 + 1 - 1) with W in Hk' by lia.
  change (out_features (mkLinear query_dim hidden use_bias pq)) with hidden in Hq'.
  simpl app in Hq'. rewrite Hq', Hk' in E.
  change (py_index [B; Q; hidden] 0) with (Some B) in E.
  change (py_index [B; Q; hidden] 1) with (Some Q) in E.
  change (py_index [B'; hidden; H; W] (-2)) with (Some H) in E.
  change (py_index [B'; hidden; H; W] (-1)) with (Some W) in E.
  cbn [mbind option_bind] in E.
  unfold floordiv in E.
  destruct (Nat.eqb_spec heads 0) as [|_]; [contradiction|].
  cbn [mbind option_bind] in E.
  destruct (reshape q' (dimsZ [B; Q; heads; hidden / heads])) as [qh|] eqn:Er;
    [|discriminate].
  cbn [mbind option_bind] in E.
  destruct (reshape k' (dimsZ [B; heads; hidden / heads; H; W])) as [kh|] eqn:Erk;
    [|discriminate].
  apply reshape_inv in Er. destruct Er as [Er _]. rewrite Hq' in Er.
  apply reshape_inv in Erk. destruct Erk as [Erk _]. rewrite Hk' in Erk.
  pose proof (reshape_shape_numel _ _ _ Er) as Hn.
  pose proof (reshape_shape_numel _ _ _ Erk) as Hnk.
  destruct (reshape_shape_dimsZ_inv _ _ _ Er) as [Hlen Hent].
  destruct (reshape_shape_dimsZ_inv _ _ _ Erk) as [Hlenk Hentk].
  destruct (list4_shape (shape qh) Hlen) as (a & b & c & d & Hqh).
  destruct (list5_of_length (shape kh) Hlenk) as (a' & b' & c' & d' & e' & Hkh).
  rewrite Hqh in Hent, Hn. rewrite Hkh in Hentk, Hnk.
  destruct (Hent 0 B eq_refl) as [H0 _].
  destruct (Hent 1 Q eq_refl) as [H1 _].
  destruct (Hent 2 heads eq_refl) as [H2 _].
  destruct (Hent 3 (hidden / heads) eq_refl) as [H3 H3z].
  destruct (Hentk 0 B eq_refl) as [K0 _].
  destruct (Hentk 1 heads eq_refl) as [K1 _].
  destruct (Hentk 2 (hidden / heads) eq_refl) as [K2 _].
  destruct (Hentk 3 H eq_refl) as [K3 _].
  destruct (Hentk 4 W eq_refl) as [K4 _].
  destruct (Nat.eqb_spec B 0) as [|_]; [lia|].
  destruct (Nat.eqb_spec Q 0) as [|_]; [lia|].
  destruct (Nat.eqb_spec heads 0) as [|_]; [lia|].
  destruct (Nat.eqb_spec H 0) as [|_]; [lia|].
  destruct (Nat.eqb_spec W 0) as [|_]; [lia|].
  destruct (Nat.eqb_spec (hidden / heads) 0) as [Hc0|_].
  - destruct (H3z Hc0) as [v Hv]. discriminate.
  - simpl in H0, H1, H2, H3, K0, K1, K2, K3, K4.
    inversion H0; inversion H1; inversion H2; inversion H3.
    inversion K0; inversion K1; inversion K2; inversion K3; inversion K4.
    subst a b c d a' b' c' d' e'. simpl in Hn, Hnk.
    assert (Hmul : heads * (hidden / heads) = hidden) by nia.
    assert (HHW : 0 < H * W) by nia.
    assert (Hhd : 0 < hidden) by lia.
    assert (Heq : B * (hidden * (H * W)) = B' * (hidden * (H * W))) by nia.
    assert (Hpos : 0 < hidden * (H * W)) by nia.
    apply Nat.mul_cancel_r in Heq; lia.
Qed.

(** ** Further properties of the mask head *)

(** X6. [MaskHeadFPNConv.__init__] builds one adapter per pyramid depth:
    adapter [i] is a 1x1 convolution without padding from [fpn_dims[i]]
    channels to [context_dim // 2**(i+1)] channels, which is the number of
    channels that intermediate block [i] writes, so the two tensors added in
    the loop of [forward] have the same depth. *)
Theorem MaskHeadFPNConv_adapters_match_stages
    (input_dim : nat) (fpn_dims : list nat) (context_dim num_groups : nat)
    (p : MaskHeadParams) (m : MaskHeadFPNConv) :
  MaskHeadFPNConv_init input_dim fpn_dims context_dim num_groups p = Some m ->
  length (adapter m) = length fpn_dims
  /\ forall i cv,
       adapter m !! i = Some cv ->
       ksize cv = 1 /\ cpad cv = 0
       /\ fpn_dims !! i = Some (c_in cv)
       /\ c_out cv = context_dim / 2 ^ (i + 1)
       /\ exists b, conv_inter m !! i = Some b /\ stage_out b = c_out cv.
Proof.
  intros Hinit.
  destruct (MaskHeadFPNConv_init_fields _ _ _ _ _ _ Hinit)
    as (_ & _ & Hci & _ & _ & Had).
  split.
  - rewrite <- (Forall2_length _ _ _ Had), length_seq. reflexivity.
  - intros i cv Hcv.
    destruct (Forall2_lookup_r _ _ _ _ _ Had Hcv)
      as (j & Hj & fd & od & Hfd & _ & Hod & ->).
    assert (j = i) by (apply lookup_seq in Hj; lia). subst j.
    cbn [ksize cpad c_in c_out mkConv2D].
    split; [reflexivity|]. split; [reflexivity|]. split; [exact Hfd|].
    rewrite Hci.
    destruct i as [|[|[|[|i]]]]; cbn in Hod; try discriminate;
      inversion Hod; subst od;
      (split; [reflexivity|eexists; split; reflexivity]).
Qed.

(** X7. With one image in the batch, or one query per image, the first
    fusion step of [MaskHeadFPNConv.forward] pairs every query with its own
    image: row [b * Q + q] of the fused tensor holds the channels of [x[b]]
    followed by the attention maps of query [(b, q)]. *)
Theorem MaskHeadFPNConv_fuse_single_image_or_query {A} `{IA : Inhabited A}
    (x att : tensor A) (B Q C N H W : nat) :
  shape x = [B; C; H; W] -> shape att = [B; Q; N; H; W] ->
  B = 1 \/ Q = 1 ->
  exists y,
    MaskHeadFPNConv_fuse x att = Some y
    /\ shape y = [B * Q; C + N; H; W]
    /\ forall b q ch i j,
         b < B -> q < Q -> ch < C + N -> i < H -> j < W ->
         tget y [b * Q + q; ch; i; j]
         = if ch <? C then tget x [b; ch; i; j]
           else tget att [b; q; ch - C; i; j].
Proof.
  intros Hx Hatt Hone.
  destruct (MaskHeadFPNConv_fuse_rows x att B Q C N H W Hx Hatt) as (y & Hy & Hs & Hrows).
  exists y. split; [exact Hy|]. split; [exact Hs|].
  intros b q ch i j Hb Hq Hch Hi Hj.
  rewrite Hrows by (try assumption; nia).
  assert (Hdiv : (b * Q + q) / Q = b).
  { rewrite Nat.div_add_l by lia. rewrite Nat.div_small by lia. lia. }
  assert (Hmod : (b * Q + q) mod Q = q).
  { rewrite Nat.add_comm, Nat.Div0.mod_add. apply Nat.mod_small. lia. }
  assert (HmodB : (b * Q + q) mod B = b).
  { destruct Hone as [-> | ->].
    - rewrite Nat.mod_1_r. lia.
    - replace (b * 1 + q) with b by lia. apply Nat.mod_small. lia. }
  rewrite Hdiv, Hmod, HmodB. reflexivity.
Qed.

(** X8. [MaskHeadFPNConv.forward] needs its first argument as
    [B, C, H, W]: on a tensor of shape [B, H*W, C], the shape that the
    docstring of [DETRHead.forward] gives for [src_proj], with more than
    one channel, the concatenation with the attention maps raises. *)
Theorem MaskHeadFPNConv_forward_flat_memory
    (m : MaskHeadFPNConv) (x att : tensor R) (fpns : list (tensor R))
    (B Q C N H W : nat) :
  shape x = [B; H * W; C] -> shape att = [B; Q; N; H; W] ->
  1 < C -> 0 < H ->
  MaskHeadFPNConv_forward m x att fpns = None.
Proof.
  intros Hx Hatt HC HH.
  assert (Hf : MaskHeadFPNConv_fuse x att = None).
  { destruct (MaskHeadFPNConv_fuse x att) as [y|] eqn:E; [exfalso|reflexivity].
    unfold MaskHeadFPNConv_fuse in E. rewrite Hatt in E.
    change (py_index [B; Q; N; H; W] 1) with (Some Q) in E.
    cbn [mbind option_bind] in E.
    destruct (flatten att 0 1) as [a|] eqn:Ea; [|discriminate].
    cbn [mbind option_bind] in E.
    unfold flatten in Ea. rewrite Hatt in Ea. cbn -[numel] in Ea.
    inversion Ea; subst a; clear Ea.
    assert (Ht : shape (tile x [Q; 1; 1; 1]) = [1 * Q; B * 1; H * W * 1; C * 1]).
    { unfold tile. rewrite Hx. reflexivity. }
    unfold concat2 in E. rewrite Ht in E. cbn [shape] in E.
    cbn [lookup list_lookup] in E.
    destruct (shapes_agree_except 1 _ _) eqn:Eag; [|discriminate].
    unfold shapes_agree_except in Eag.
    apply andb_true_iff in Eag. destruct Eag as [_ Ed].
    apply bool_decide_eq_true_1 in Ed. cbn [drop] in Ed.
    inversion Ed as [[Hhw Hc]]. nia. }
  unfold MaskHeadFPNConv_forward. rewrite Hatt, Hf.
  reflexivity.
Qed.

(** The forward pass reads at most three pyramid levels. *)
Lemma MaskHeadFPNConv_forward_three
    (input_dim : nat) (fpn_dims : list nat) (context_dim num_groups : nat)
    (p : MaskHeadParams) (m : MaskHeadFPNConv) (x att : tensor R)
    (fpns : list (tensor R)) :
  MaskHeadFPNConv_init input_dim fpn_dims context_dim num_groups p = Some m ->
  MaskHeadFPNConv_forward m x att fpns = MaskHeadFPNConv_forward m x att (take 3 fpns).
Proof.
  intros Hinit.
  destruct (MaskHeadFPNConv_init_fields _ _ _ _ _ _ Hinit) as (_ & _ & Hci & _).
  unfold MaskHeadFPNConv_forward. rewrite Hci.
  destruct (py_index (shape att) 1) as [nq|]; [|reflexivity].
  cbn [mbind option_bind].
  destruct (MaskHeadFPNConv_fuse x att) as [x1|]; [|reflexivity].
  cbn [mbind option_bind].
  destruct (ConvBlock_forward _ x1) as [x2|]; [|reflexivity].
  cbn [mbind option_bind].
  match goal with
  | |- context [MaskHeadFPNConv_loop _ nq ?i _ fpns _] => set (inters := i)
  end.
  assert (Hl : length inters = 3) by reflexivity.
  rewrite (MaskHeadFPNConv_loop_take _ nq inters (adapter m) fpns).
  rewrite (MaskHeadFPNConv_loop_take _ nq inters (adapter m) (take 3 fpns)).
  rewrite Hl, take_take. reflexivity.
Qed.

(** The loop runs one step per pyramid level it is given, at most. *)
Lemma MaskHeadFPNConv_loop_take_levels (src : nat -> nat -> nat -> nat) (nq : nat)
    (inters : list ConvBlock) :
  forall (adapters : list Conv2D) (fpns : list (tensor R)) (x : tensor R),
    MaskHeadFPNConv_loop src nq inters adapters fpns x
    = MaskHeadFPNConv_loop src nq inters (take (length fpns) adapters) fpns x.
Proof.
  induction inters as [|b inters IH]; intros adapters fpns x.
  - destruct adapters, fpns; reflexivity.
  - destruct adapters as [|cv adapters], fpns as [|feat fpns]; try reflexivity.
    simpl. destruct (MaskHeadFPNConv_step src nq b cv feat x) as [x'|]; [|reflexivity].
    simpl. apply IH.
Qed.

(** With fewer than three pyramid levels the running tensor reaches the
    last intermediate block with the channels of an earlier stage. *)
Lemma MaskHeadFPNConv_forward_few_levels
    (input_dim : nat) (fpn_dims : list nat) (context_dim num_groups : nat)
    (p : MaskHeadParams) (m : MaskHeadFPNConv) (x att : tensor R)
    (fpns : list (tensor R)) :
  MaskHeadFPNConv_init input_dim fpn_dims context_dim num_groups p = Some m ->
  length fpns < 3 ->
  input_dim <> context_dim / 8 ->
  context_dim / 2 <> context_dim / 8 ->
  context_dim / 4 <> context_dim / 8 ->
  MaskHeadFPNConv_forward m x att fpns = None.
Proof.
  intros Hinit Hlen Hne0 Hne1 Hne2.
  destruct (MaskHeadFPNConv_init_fields _ _ _ _ _ _ Hinit)
    as (_ & Hc0 & Hci & _ & _ & Had).
  destruct (MaskHeadFPNConv_forward m x att fpns) as [y|] eqn:E; [exfalso|reflexivity].
  unfold MaskHeadFPNConv_forward in E. rewrite Hc0, Hci in E. bind_inv E.
  match goal with
  | H : ConvBlock_forward (make_layers input_dim input_dim _ _ _) _ = Some _ |- _ =>
      rename H into Hconv0
  end.
  match goal with
  | H : MaskHeadFPNConv_loop _ _ _ _ _ _ = Some _ |- _ => rename H into Hloop
  end.
  match goal with
  | H : py_index _ _ = Some ?c, H' : ConvBlock_forward ?c _ = Some _ |- _ =>
      rename H into Hlast; rename H' into Hblk
  end.
  cbn in Hlast. inversion Hlast; subst c; clear Hlast.
  apply ConvBlock_forward_inv in Hblk.
  destruct Hblk as (n4 & h4 & w4 & _ & _ & Ht1 & _).
  unfold stage_in in Ht1; cbn in Ht1.
  apply ConvBlock_forward_inv in Hconv0.
  destruct Hconv0 as (n1 & _ & _ & h1 & w1 & _ & Ht0).
  unfold stage_out in Ht0; cbn in Ht0.
  rewrite MaskHeadFPNConv_loop_take_levels in Hloop.
  apply MaskHeadFPNConv_loop_channels in Hloop.
  - destruct Hloop as [->|(i & b & n' & h & w & Hi & Hb & Hs)].
    + rewrite Ht0 in Ht1. inversion Ht1. contradiction.
    + rewrite Hs in Ht1. inversion Ht1 as [[Hn Hch]].
      rewrite length_take in Hi.
      destruct i as [|[|i]]; [| |lia]; cbn in Hb; inversion Hb; subst b;
        unfold stage_out in Hch; cbn in Hch; contradiction.
  - intros i b cv Hb Hcv.
    apply lookup_take_Some in Hcv. destruct Hcv as [Hcv Hi].
    destruct (Forall2_lookup_r _ _ _ _ _ Had Hcv)
      as (j & Hj & fd & od & _ & _ & Hod & ->).
    assert (j = i) by (apply lookup_seq in Hj; lia). subst j.
    destruct i as [|[|i]]; [| |lia]; cbn in Hb, Hod; inversion Hb; inversion Hod;
      reflexivity.
Qed.

(** ** Further properties of the detection head *)

(** X3. The box and the class logits that [DETRHead.forward] computes for a
    position (decoder layer, image, query) depend on the feature vector at
    that position only: two calls whose query features hold the same vector
    at positions [r1] and [r2] compute the same box and the same logits
    there, whatever the other positions, the other inputs and the shapes of
    the leading axes are. *)
Theorem DETRHead_predictions_per_position
    (hd : DETRHead) (training1 training2 : bool) (keep1 keep2 : nat -> bool)
    (feats1 feats2 memory1 memory2 src_proj1 src_proj2 src_mask1 src_mask2 : tensor R)
    (body_feats1 body_feats2 : list (tensor R))
    (pre1 pre2 : list nat) (d r1 r2 : nat)
    (bbox1 logit1 bbox2 logit2 : tensor R) (seg1 seg2 : option (tensor R)) :
  shape feats1 = pre1 ++ [d] -> shape feats2 = pre2 ++ [d] ->
  r1 < numel pre1 -> r2 < numel pre2 ->
  chunk r1 d (data feats1) = chunk r2 d (data feats2) ->
  outcome_of (DETRHead_predict hd training1 keep1
                (feats1, memory1, src_proj1, src_mask1) body_feats1)
  = inr (bbox1, logit1, seg1) ->
  outcome_of (DETRHead_predict hd training2 keep2
                (feats2, memory2, src_proj2, src_mask2) body_feats2)
  = inr (bbox2, logit2, seg2) ->
  exists nb nc,
    shape bbox1 = pre1 ++ [nb] /\ shape bbox2 = pre2 ++ [nb]
    /\ chunk r1 nb (data bbox1) = chunk r2 nb (data bbox2)
    /\ shape logit1 = pre1 ++ [nc] /\ shape logit2 = pre2 ++ [nc]
    /\ chunk r1 nc (data logit1) = chunk r2 nc (data logit2).
Proof.
  intros Hs1 Hs2 Hr1 Hr2 Hrow H1 H2.
  destruct (DETRHead_predict_inv hd training1 keep1 feats1 memory1 src_proj1
              src_mask1 body_feats1) as [_ Hp1].
  destruct (DETRHead_predict_inv hd training2 keep2 feats2 memory2 src_proj2
              src_mask2 body_feats2) as [_ Hp2].
  destruct (Hp1 _ _ _ H1) as (raw1 & Hl1 & Hm1 & -> & _).
  destruct (Hp2 _ _ _ H2) as (raw2 & Hl2 & Hm2 & -> & _).
  destruct (MLP_loop_rows _ _ 0 feats1 feats2 raw1 raw2 pre1 pre2 d r1 r2
              Hs1 Hs2 Hr1 Hr2 Hrow Hm1 Hm2) as (nb & Hb1 & Hb2 & Hb).
  assert (Hd : d = in_features (score_head hd)).
  { destruct (Linear_forward_inv _ _ _ Hl1) as (pre & Hpre & _).
    rewrite Hs1 in Hpre. apply app_inj_tail in Hpre. tauto. }
  subst d.
  destruct (Linear_forward_row _ _ _ pre1 r1 Hs1 Hl1 Hr1) as [Hsl1 Hc1].
  destruct (Linear_forward_row _ _ _ pre2 r2 Hs2 Hl2 Hr2) as [Hsl2 Hc2].
  exists nb, (out_features (score_head hd)).
  repeat split; try assumption.
  - unfold sigmoid, tmap; simpl. rewrite !chunk_map, Hb. reflexivity.
  - rewrite Hc1, Hc2, Hrow. reflexivity.
Qed.

Lemma DETRHead_init_branch
    (nc hidden nhead : nat) (nl : Z) (fpn_dims : list nat) (focal : bool)
    (p : DETRHeadParams) (hd : DETRHead) :
  DETRHead_init nc hidden nhead nl fpn_dims true focal p = Some hd ->
  exists att mh,
    mask_branch hd = Some (att, mh)
    /\ MultiHeadAttentionMap_init hidden hidden nhead 0 true (dp_att_q p) (dp_att_k p)
       = Some att
    /\ MaskHeadFPNConv_init (hidden + nhead) fpn_dims hidden 8 (dp_mask p) = Some mh.
Proof.
  intros Hinit. unfold DETRHead_init in Hinit.
  destruct (MultiHeadAttentionMap_init hidden hidden nhead 0 true _ _) as [att|];
    [|discriminate].
  cbn [mbind option_bind] in Hinit.
  destruct (MaskHeadFPNConv_init (hidden + nhead) fpn_dims hidden 8 _) as [mh|];
    [|discriminate].
  cbn [mbind option_bind] in Hinit. inversion Hinit; subst hd. simpl. eauto.
Qed.

Lemma DETRHead_init_no_branch
    (nc hidden nhead : nat) (nl : Z) (fpn_dims : list nat) (focal : bool)
    (p : DETRHeadParams) (hd : DETRHead) :
  DETRHead_init nc hidden nhead nl fpn_dims false focal p = Some hd ->
  mask_branch hd = None.
Proof. intros Hinit. inversion Hinit. reflexivity. Qed.

Section PyramidLevels.

Context `{MU : MaskUtil} `{LF : LossFn}.

(** X9. The mask branch of [DETRHead.forward] reads the backbone features
    only through [body_feats[::-1][1:4]]: the last level and every level
    before the fourth from the end are never read, in either mode. *)
Theorem DETRHead_reads_three_pyramid_levels
    (nc hidden nhead : nat) (nl : Z) (fpn_dims : list nat) (with_mask focal : bool)
    (p : DETRHeadParams) (hd : DETRHead) (training : bool) (keep : nat -> bool)
    (out : out_transformer) (body_feats1 body_feats2 : list (tensor R))
    (inputs : option (gmap string pyval)) :
  DETRHead_init nc hidden nhead nl fpn_dims with_mask focal p = Some hd ->
  take 3 (drop 1 (reverse body_feats1)) = take 3 (drop 1 (reverse body_feats2)) ->
  DETRHead_forward hd training keep out body_feats1 inputs
  = DETRHead_forward hd training keep out body_feats2 inputs.
Proof.
  intros Hinit Hlv.
  assert (Hm : forall feats memory src_proj src_mask,
             DETRHead_masks hd training keep feats memory src_proj src_mask body_feats1
             = DETRHead_masks hd training keep feats memory src_proj src_mask
                 body_feats2).
  { intros feats memory src_proj src_mask. unfold DETRHead_masks.
    destruct with_mask.
    - destruct (DETRHead_init_branch _ _ _ _ _ _ _ _ Hinit) as (att & mh & -> & _ & Hmh).
      destruct (index_last feats) as [lf|]; [|reflexivity].
      rewrite !bind_lift_Some.
      destruct (MultiHeadAttentionMap_forward att training keep lf memory
                  (Some src_mask)) as [a|]; [|reflexivity].
      rewrite !bind_call_Some.
      rewrite (MaskHeadFPNConv_forward_three _ _ _ _ _ _ _ _
                 (drop 1 (reverse body_feats1)) Hmh).
      rewrite (MaskHeadFPNConv_forward_three _ _ _ _ _ _ _ _
                 (drop 1 (reverse body_feats2)) Hmh).
      rewrite Hlv. reflexivity.
    - rewrite (DETRHead_init_no_branch _ _ _ _ _ _ _ _ Hinit). reflexivity. }
  unfold DETRHead_forward, DETRHead_predict.
  destruct out as [[[feats memory] src_proj] src_mask].
  rewrite Hm. reflexivity.
Qed.

(** X10. A head with the mask branch needs four backbone levels: with fewer
    than four entries in [body_feats] and [hidden_dim >= 4], [forward]
    raises in either mode, before the supervision is looked at and before
    the loss is called. *)
Theorem DETRHead_mask_branch_needs_four_levels
    (nc hidden nhead : nat) (nl : Z) (fpn_dims : list nat) (focal : bool)
    (p : DETRHeadParams) (hd : DETRHead) (training : bool) (keep : nat -> bool)
    (out : out_transformer) (body_feats : list (tensor R))
    (inputs : option (gmap string pyval)) :
  DETRHead_init nc hidden nhead nl fpn_dims true focal p = Some hd ->
  4 <= hidden ->
  length body_feats < 4 ->
  let run := DETRHead_forward hd training keep out body_feats inputs in
  outcome_of run = inl CallError /\ Forall head_event (trace_of run).
Proof.
  intros Hinit Hh Hlen run.
  destruct (DETRHead_init_branch _ _ _ _ _ _ _ _ Hinit) as (att & mh & Hbr & _ & Hmh).
  destruct out as [[[feats memory] src_proj] src_mask].
  assert (Hnone : forall a, MaskHeadFPNConv_forward mh src_proj a
                              (drop 1 (reverse body_feats)) = None).
  { intros a. apply (MaskHeadFPNConv_forward_few_levels _ _ _ _ _ _ _ _ _ Hmh).
    - rewrite length_drop, length_reverse. lia.
    - assert (hidden / 8 < hidden) by (apply Nat.div_lt; lia). lia.
    - assert (hidden / 8 < hidden / 2); [|lia].
      apply Nat.Div0.div_lt_upper_bound.
      pose proof (Nat.div_mod hidden 2 ltac:(lia)) as H2.
      pose proof (Nat.mod_upper_bound hidden 2 ltac:(lia)). lia.
    - assert (hidden / 8 < hidden / 4); [|lia].
      apply Nat.Div0.div_lt_upper_bound.
      pose proof (Nat.div_mod hidden 4 ltac:(lia)) as H4.
      pose proof (Nat.mod_upper_bound hidden 4 ltac:(lia)). lia. }
  destruct (DETRHead_predict_inv hd training keep feats memory src_proj src_mask
              body_feats) as [Htr Hout].
  assert (Hpred : outcome_of (DETRHead_predict hd training keep
                                (feats, memory, src_proj, src_mask) body_feats)
                  = inl CallError).
  { unfold DETRHead_predict, DETRHead_masks. rewrite Hbr.
    destruct (Linear_forward (score_head hd) feats) as [lg|]; [|reflexivity].
    rewrite bind_call_Some.
    destruct (MLP_forward (bbox_head hd) feats) as [raw|]; [|reflexivity].
    rewrite !bind_call_Some.
    destruct (index_last feats) as [lf|]; [|reflexivity].
    rewrite bind_lift_Some.
    destruct (MultiHeadAttentionMap_forward att training keep lf memory (Some src_mask))
      as [a|]; [|reflexivity].
    rewrite bind_call_Some, Hnone. reflexivity. }
  subst run. unfold DETRHead_forward.
  destruct (DETRHead_predict hd training keep (feats, memory, src_proj, src_mask)
              body_feats) as [t [e|v]] eqn:Ep.
  - simpl in Hpred. inversion Hpred; subst e. simpl. split; [reflexivity|exact Htr].
  - discriminate Hpred.
Qed.

End PyramidLevels.

Section TrainingMode.

Context `{MU : MaskUtil} `{LF : LossFn}.

(** In training mode [forward] runs the prediction heads and then the
    training branch on their results. *)
Lemma DETRHead_forward_training_split
    (hd : DETRHead) (keep : nat -> bool) (out : out_transformer)
    (body_feats : list (tensor R)) (inputs : option (gmap string pyval))
    (bbox logit : tensor R) (seg : option (tensor R)) :
  outcome_of (DETRHead_predict hd true keep out body_feats) = inr (bbox, logit, seg) ->
  DETRHead_forward hd true keep out body_feats inputs
  = (trace_of (DETRHead_predict hd true keep out body_feats)
       ++ trace_of (DETRHead_train inputs bbox logit seg),
     outcome_of (DETRHead_train inputs bbox logit seg)).
Proof.
  intros Hp. unfold DETRHead_forward.
  destruct (DETRHead_predict hd true keep out body_feats) as [t [e|v]];
    [discriminate|].
  simpl in Hp. inversion Hp; subst v. unfold bind, trace_of, outcome_of.
  destruct (DETRHead_train inputs bbox logit seg) as [t' r]. reflexivity.
Qed.

(** X11. In training mode, with boxes and classes as the only supervision,
    a head without the mask branch hands the loss the predictions of all
    decoder layers, boxes [L, B, Q, 4] after the sigmoid and logits
    [L, B, Q, C] with [C = num_classes + 1] (or [num_classes] under focal
    loss), with no masks and no ground-truth masks, and returns what the
    loss returns; the rasteriser is not called. *)
Theorem DETRHead_training_returns_loss
    (nc hidden nhead : nat) (nl : Z) (fpn_dims : list nat) (focal : bool)
    (p : DETRHeadParams) (hd : DETRHead) (keep : nat -> bool)
    (feats memory src_proj src_mask : tensor R) (body_feats : list (tensor R))
    (i : gmap string pyval) (gtb gtc : pyval) (L B Q : nat) :
  DETRHead_init nc hidden nhead nl fpn_dims false focal p = Some hd ->
  shape feats = [L; B; Q; hidden] -> wf feats ->
  i !! "gt_bbox" = Some gtb -> i !! "gt_class" = Some gtc -> i !! "gt_poly" = None ->
  exists raw logit,
    MLP_forward (bbox_head hd) feats = Some raw
    /\ shape raw = [L; B; Q; 4]
    /\ Linear_forward (score_head hd) feats = Some logit
    /\ shape logit = [L; B; Q; if focal then nc else nc + 1]
    /\ DETRHead_forward hd true keep (feats, memory, src_proj, src_mask)
         body_feats (Some i)
       = ([EvScoreHead; EvBBoxHead; EvSigmoid; EvLoss],
          match loss_call (sigmoid raw) logit gtb gtc None None with
          | Some l => inr (OutLoss l)
          | None => inl CallError
          end).
Proof.
  intros Hinit Hs Hwf Hb Hc Hp.
  inversion Hinit; subst hd; clear Hinit.
  cbn [bbox_head score_head].
  destruct (MLP_loop_chained nl
              (layers (MLP_init hidden hidden 4 nl (dp_bbox p))) 0 feats [L; B; Q]
              hidden 4)
    as (tr & raw & _ & Hraw & _ & _ & Hrs & _); [|exact Hs|exact Hwf|].
  { unfold MLP_init, MLP_dims; simpl. apply MLP_dims_chained.
    intros j nk. simpl. auto. }
  set (nc' := if focal then nc else nc + 1).
  destruct (Linear_forward_shape (mkLinear hidden nc' true (dp_score p)) feats [L; B; Q])
    as (logit & Hlogit & Hls & _); [exact Hs|].
  exists raw, logit.
  split; [exact Hraw|]. split; [exact Hrs|]. split; [exact Hlogit|].
  split; [exact Hls|].
  match goal with
  | |- DETRHead_forward ?h _ _ _ _ _ = _ => set (hd := h)
  end.
  assert (Hpred : DETRHead_predict hd true keep (feats, memory, src_proj, src_mask)
                    body_feats
                  = ([EvScoreHead; EvBBoxHead; EvSigmoid],
                     inr (sigmoid raw, logit, None))).
  { unfold DETRHead_predict, DETRHead_masks, hd.
    cbn [bbox_head score_head mask_branch].
    rewrite Hlogit, bind_call_Some.
    unfold MLP_forward.
    change (num_layers (MLP_init hidden hidden 4 nl (dp_bbox p))) with nl.
    rewrite Hraw. reflexivity. }
  rewrite (DETRHead_forward_training_split hd keep _ body_feats (Some i)
             (sigmoid raw) logit None) by (rewrite Hpred; reflexivity).
  rewrite Hpred, (DETRHead_train_supervised i gtb gtc _ _ _ Hb Hc Hp).
  reflexivity.
Qed.

(** X12. In training mode, when [inputs] holds ['gt_poly'] but not
    ['pad_mask'], [forward] raises [KeyError('pad_mask')] after the
    prediction heads have run; neither the rasteriser nor the loss is
    called. *)
Theorem DETRHead_training_needs_pad_mask
    (hd : DETRHead) (keep : nat -> bool) (out : out_transformer)
    (body_feats : list (tensor R)) (i : gmap string pyval)
    (bbox logit : tensor R) (seg : option (tensor R)) :
  outcome_of (DETRHead_predict hd true keep out body_feats) = inr (bbox, logit, seg) ->
  is_Some (i !! "gt_bbox") -> is_Some (i !! "gt_class") ->
  is_Some (i !! "gt_poly") -> i !! "pad_mask" = None ->
  DETRHead_forward hd true keep out body_feats (Some i)
  = (trace_of (DETRHead_predict hd true keep out body_feats),
     inl (KeyError "pad_mask")).
Proof.
  intros Hpred Hb Hc [gp Hgp] Hpm.
  rewrite (DETRHead_forward_training_split _ _ _ _ _ _ _ _ Hpred).
  assert (Ht : DETRHead_train (Some i) bbox logit seg = ([], inl (KeyError "pad_mask"))).
  { unfold DETRHead_train.
    rewrite bool_decide_eq_true_2 by eauto.
    change (default ∅ (Some i)) with i.
    unfold DETRHead_gt_mask, dict_has, dict_get.
    rewrite !bool_decide_eq_true_2 by eauto.
    rewrite Hgp, Hpm. reflexivity. }
  rewrite Ht. unfold trace_of, outcome_of. simpl. rewrite app_nil_r. reflexivity.
Qed.

(** X13. In training mode, when [inputs] holds polygons under ['gt_poly']
    and a padding mask under ['pad_mask'], [forward] rasterises them after
    the prediction heads and hands the loss the list that
    [get_gt_mask_from_polygons] returns; when the rasterisation raises, the
    loss is not called. *)
Theorem DETRHead_training_with_polygons
    (hd : DETRHead) (keep : nat -> bool) (out : out_transformer)
    (body_feats : list (tensor R)) (i : gmap string pyval) (gtb gtc : pyval)
    (polys : list (list (list (list R)))) (pm : tensor nat)
    (bbox logit : tensor R) (seg : option (tensor R)) :
  outcome_of (DETRHead_predict hd true keep out body_feats) = inr (bbox, logit, seg) ->
  i !! "gt_bbox" = Some gtb -> i !! "gt_class" = Some gtc ->
  i !! "gt_poly" = Some (VPolys polys) -> i !! "pad_mask" = Some (VMask pm) ->
  DETRHead_forward hd true keep out body_feats (Some i)
  = match get_gt_mask_from_polygons polys pm with
    | None =>
        (trace_of (DETRHead_predict hd true keep out body_feats) ++ [EvRasterize],
         inl CallError)
    | Some gt_mask =>
        (trace_of (DETRHead_predict hd true keep out body_feats)
           ++ [EvRasterize; EvLoss],
         match loss_call bbox logit gtb gtc seg (Some gt_mask) with
         | Some l => inr (OutLoss l)
         | None => inl CallError
         end)
    end.
Proof.
  intros Hpred Hb Hc Hgp Hpm.
  rewrite (DETRHead_forward_training_split _ _ _ _ _ _ _ _ Hpred).
  unfold DETRHead_train.
  rewrite bool_decide_eq_true_2 by eauto.
  change (default ∅ (Some i)) with i.
  unfold DETRHead_gt_mask, dict_has, dict_get.
  rewrite Hb, Hc, Hgp, Hpm.
  rewrite !(bool_decide_eq_true_2 (is_Some (Some _))) by eauto.
  cbn.
  destruct (get_gt_mask_from_polygons polys pm) as [ms|]; [|reflexivity].
  cbn. destruct (loss_call bbox logit gtb gtc seg (Some ms)); reflexivity.
Qed.

End TrainingMode.

Section InferenceMode.

Context `{MU : MaskUtil} `{LF : LossFn}.

Lemma DETRHead_masks_error (hd : DETRHead) (training : bool) (keep : nat -> bool)
    (feats memory src_proj src_mask : tensor R) (body_feats : list (tensor R))
    (e : exn) :
  outcome_of (DETRHead_masks hd training keep feats memory src_proj src_mask body_feats)
  = inl e ->
  e = CallError.
Proof.
  unfold DETRHead_masks.
  destruct (mask_branch hd) as [[att mh]|]; [|discriminate].
  destruct (index_last feats) as [lf|];
    [rewrite bind_lift_Some|intros H; inversion H; reflexivity].
  destruct (MultiHeadAttentionMap_forward att training keep lf memory (Some src_mask))
    as [a|]; [rewrite bind_call_Some|intros H; inversion H; reflexivity].
  destruct (MaskHeadFPNConv_forward mh src_proj a (drop 1 (reverse body_feats)))
    as [seg|]; [rewrite bind_call_Some|intros H; inversion H; reflexivity].
  unfold outcome_of. cbn [snd].
  destruct (py_index (shape feats) 1) as [d1|];
    [rewrite bind_lift_Some|intros H; inversion H; reflexivity].
  destruct (py_index (shape feats) 2) as [d2|];
    [rewrite bind_lift_Some|intros H; inversion H; reflexivity].
  destruct (py_index (shape seg) (-2)) as [h|];
    [rewrite bind_lift_Some|intros H; inversion H; reflexivity].
  destruct (py_index (shape seg) (-1)) as [w|];
    [rewrite bind_lift_Some|intros H; inversion H; reflexivity].
  destruct (reshape seg (dimsZ [d1; d2; h; w])) as [seg'|];
    [rewrite bind_lift_Some|intros H; inversion H; reflexivity].
  discriminate.
Qed.

Lemma DETRHead_predict_error (hd : DETRHead) (training : bool) (keep : nat -> bool)
    (out : out_transformer) (body_feats : list (tensor R)) (e : exn) :
  outcome_of (DETRHead_predict hd training keep out body_feats) = inl e ->
  e = CallError.
Proof.
  destruct out as [[[feats memory] src_proj] src_mask]. unfold DETRHead_predict.
  destruct (Linear_forward (score_head hd) feats) as [lg|];
    [rewrite bind_call_Some|intros H; inversion H; reflexivity].
  destruct (MLP_forward (bbox_head hd) feats) as [raw|];
    [rewrite !bind_call_Some|intros H; inversion H; reflexivity].
  unfold outcome_of. cbn [snd].
  pose proof (DETRHead_masks_error hd training keep feats memory src_proj src_mask
                body_feats) as Hm.
  destruct (DETRHead_masks hd training keep feats memory src_proj src_mask body_feats)
    as [t [e'|seg]].
  - intros H. inversion H; subst e'. apply Hm. reflexivity.
  - discriminate.
Qed.

(** X14. In inference mode [forward] never looks at the supervision: it
    calls neither the rasteriser nor the loss, the only exception it can
    raise comes from inside a prediction head or from indexing the
    predictions, never from an assertion or a missing key, and what it
    returns is a tuple of predictions. *)
Theorem DETRHead_inference_needs_no_supervision
    (hd : DETRHead) (keep : nat -> bool) (out : out_transformer)
    (body_feats : list (tensor R)) (inputs : option (gmap string pyval)) :
  let run := DETRHead_forward hd false keep out body_feats inputs in
  Forall head_event (trace_of run)
  /\ (forall e, outcome_of run = inl e -> e = CallError)
  /\ (forall r, outcome_of run = inr r ->
        exists bbox logit seg, r = OutPred bbox logit seg).
Proof.
  intros run. subst run. unfold DETRHead_forward.
  destruct out as [[[feats memory] src_proj] src_mask].
  destruct (DETRHead_predict_inv hd false keep feats memory src_proj src_mask
              body_feats) as [Htr _].
  pose proof (DETRHead_predict_error hd false keep (feats, memory, src_proj, src_mask)
                body_feats) as Herr.
  destruct (DETRHead_predict hd false keep (feats, memory, src_proj, src_mask)
              body_feats) as [t [e|[[bbox logit] seg]]].
  - split; [exact Htr|]. split.
    + intros e' H. inversion H; subst e'. apply Herr. reflexivity.
    + intros r H. discriminate H.
  - unfold DETRHead_infer, bind, trace_of, outcome_of in *. cbn [fst snd] in *.
    destruct (index_last bbox) as [b|]; cbn.
    + destruct (index_last logit) as [l|]; cbn.
      * rewrite app_nil_r. split; [exact Htr|]. split; [discriminate|].
        intros r H. inversion H. eauto.
      * rewrite app_nil_r. split; [exact Htr|]. split; [|discriminate].
        intros e H. inversion H. reflexivity.
    + rewrite app_nil_r. split; [exact Htr|]. split; [|discriminate].
      intros e H. inversion H. reflexivity.
Qed.

End InferenceMode.

(** ** Further properties of the ground-truth masks *)

Lemma sum_list_indicator (h n : nat) :
  sum_list (map (fun i => if i <? h then 1 else 0) (seq 0 n)) = Nat.min h n.
Proof.
  induction n as [|n IH]; [simpl; lia|].
  rewrite seq_S, map_app, sum_list_with_app.
  change (sum_list_with (fun x => x) (map (fun i => if i <? h then 1 else 0) (seq 0 n)))
    with (sum_list (map (fun i => if i <? h then 1 else 0) (seq 0 n))).
  rewrite IH. simpl. destruct (Nat.ltb_spec n h); lia.
Qed.

(** X15. For a padding mask that marks the top-left [h] x [w] block of a
    non-empty canvas, the height and the width that
    [get_gt_mask_from_polygons] reads off the first column and the first
    row are [h] and [w]; when the block is empty both are zero. *)
Theorem block_padding_height_width (Hp Wp h w : nat) :
  0 < Hp -> 0 < Wp -> h <= Hp -> w <= Wp ->
  first_col_sum (block_padding Hp Wp h w) = Some (if Nat.eqb w 0 then 0 else h)
  /\ first_row_sum (block_padding Hp Wp h w) = Some (if Nat.eqb h 0 then 0 else w).
Proof.
  intros HHp HWp Hh Hw. unfold first_col_sum, first_row_sum, block_padding.
  cbn [shape tinit].
  destruct (Nat.eqb_spec Wp 0) as [|_]; [lia|].
  destruct (Nat.eqb_spec Hp 0) as [|_]; [lia|].
  split; f_equal.
  - rewrite (map_ext_in _ (fun i => if i <? (if Nat.eqb w 0 then 0 else h) then 1 else 0)).
    + rewrite sum_list_indicator. destruct (Nat.eqb w 0); lia.
    + intros i Hi. apply in_seq in Hi.
      rewrite tget_tinit by in_bounds_tac. cbn.
      destruct (Nat.eqb_spec w 0) as [->|Hw0].
      * rewrite andb_false_r. reflexivity.
      * destruct w; [contradiction|]. rewrite andb_true_r. reflexivity.
  - rewrite (map_ext_in _ (fun j => if j <? (if Nat.eqb h 0 then 0 else w) then 1 else 0)).
    + rewrite sum_list_indicator. destruct (Nat.eqb h 0); lia.
    + intros j Hj. apply in_seq in Hj.
      rewrite tget_tinit by in_bounds_tac. cbn.
      destruct (Nat.eqb_spec h 0) as [->|Hh0].
      * reflexivity.
      * destruct h; [contradiction|]. reflexivity.
Qed.

Section EmptyImages.

Context `{MU : MaskUtil}.

Lemma gt_mask_of_image_no_objects (pad_mask padding : tensor nat) :
  gt_mask_of_image pad_mask [] padding = None.
Proof.
  unfold gt_mask_of_image.
  destruct (first_col_sum padding); [|reflexivity].
  destruct (first_row_sum padding); reflexivity.
Qed.

(** X16. One image without objects among those that
    [get_gt_mask_from_polygons] visits makes the whole call raise, whatever
    the other images hold: no list of masks is returned. *)
Theorem get_gt_mask_from_polygons_needs_objects
    (gt_poly : list (list (list (list R)))) (pad_mask : tensor nat)
    (B : nat) (rest : list nat) (i : nat) :
  shape pad_mask = B :: rest ->
  gt_poly !! i = Some [] -> i < B ->
  get_gt_mask_from_polygons gt_poly pad_mask = None.
Proof.
  intros Hs Hi HB. unfold get_gt_mask_from_polygons.
  destruct (mapM _ (zip gt_poly (unstack pad_mask))) as [out|] eqn:E; [exfalso|reflexivity].
  apply mapM_Some_1 in E.
  assert (Hz : zip gt_poly (unstack pad_mask) !! i = Some ([], slice_at i pad_mask)).
  { apply lookup_zip_with_Some. exists [], (slice_at i pad_mask).
    split; [reflexivity|]. split; [exact Hi|].
    apply (unstack_lookup pad_mask B rest i Hs HB). }
  destruct (Forall2_lookup_l _ _ _ _ _ E Hz) as (y & _ & Hy).
  simpl in Hy. rewrite gt_mask_of_image_no_objects in Hy. discriminate.
Qed.

End EmptyImages.

Lemma mapM_zip_seq_ext {P U T} (g1 g2 : P -> U -> option T) (s1 s2 : nat -> U)
    (n : nat) :
  forall (l : list P) (a : nat),
    (forall b p, a <= b < a + n -> g1 p (s1 b) = g2 p (s2 b)) ->
    mapM (fun pp => g1 (fst pp) (snd pp)) (zip l (map s1 (seq a n)))
    = mapM (fun pp => g2 (fst pp) (snd pp)) (zip l (map s2 (seq a n))).
Proof.
  induction n as [|n IH]; intros l a Hg.
  - destruct l; reflexivity.
  - destruct l as [|p l]; [reflexivity|].
    cbn [seq map zip zip_with mapM fst snd].
    rewrite (Hg a p) by lia.
    destruct (g2 p (s2 a)) as [y|]; [|reflexivity].
    cbn [mbind option_bind].
    change (zip_with pair l (map s1 (seq (S a) n))) with (zip l (map s1 (seq (S a) n))).
    change (zip_with pair l (map s2 (seq (S a) n))) with (zip l (map s2 (seq (S a) n))).
    rewrite (IH l (S a)) by (intros b q Hb; apply Hg; lia).
    reflexivity.
Qed.

Section PaddingReads.

Context `{MU : MaskUtil}.

Lemma tget_slice_at (t : tensor nat) (B Hp Wp b y x : nat) :
  shape t = [B; Hp; Wp] -> wf t -> b < B -> y < Hp -> x < Wp ->
  tget (slice_at b t) [y; x] = tget t [b; y; x].
Proof.
  intros Hs Hwf Hb Hy Hx. unfold tget, slice_at. rewrite Hs. cbn [shape data drop].
  unfold wf in Hwf. rewrite Hs in Hwf.
  replace (ravel [Hp; Wp] [y; x]) with (y * Wp + x) by (simpl; lia).
  replace (ravel [B; Hp; Wp] [b; y; x]) with (b * (Hp * Wp) + (y * Wp + x))
    by (simpl; lia).
  replace (numel [Hp; Wp]) with (Hp * Wp) by (simpl; lia).
  apply lookup_total_chunk.
  - rewrite Hwf. simpl. nia.
  - nia.
Qed.

Lemma sum_list_map_ext (f g : nat -> nat) (n : nat) :
  (forall i, i < n -> f i = g i) ->
  sum_list (map f (seq 0 n)) = sum_list (map g (seq 0 n)).
Proof.
  intros Hfg. f_equal. apply map_ext_in. intros i Hi. apply in_seq in Hi.
  apply Hfg. lia.
Qed.

(** X17. [get_gt_mask_from_polygons] reads each padding mask through its
    first column and its first row only: two padding masks of the same
    shape that agree there give the same result, whatever their other
    entries are. *)
Theorem get_gt_mask_from_polygons_reads_margins
    (gt_poly : list (list (list (list R)))) (pad_mask1 pad_mask2 : tensor nat)
    (B Hp Wp : nat) :
  shape pad_mask1 = [B; Hp; Wp] -> shape pad_mask2 = [B; Hp; Wp] ->
  wf pad_mask1 -> wf pad_mask2 ->
  (forall b y, b < B -> y < Hp ->
     tget pad_mask1 [b; y; 0] = tget pad_mask2 [b; y; 0]) ->
  (forall b x, b < B -> x < Wp ->
     tget pad_mask1 [b; 0; x] = tget pad_mask2 [b; 0; x]) ->
  get_gt_mask_from_polygons gt_poly pad_mask1
  = get_gt_mask_from_polygons gt_poly pad_mask2.
Proof.
  intros Hs1 Hs2 Hwf1 Hwf2 Hcol Hrow.
  unfold get_gt_mask_from_polygons.
  assert (Himg : forall b polygons, b < B ->
            gt_mask_of_image pad_mask1 polygons (slice_at b pad_mask1)
            = gt_mask_of_image pad_mask2 polygons (slice_at b pad_mask2)).
  { intros b polygons Hb. unfold gt_mask_of_image.
    assert (Hc : first_col_sum (slice_at b pad_mask1)
                 = first_col_sum (slice_at b pad_mask2)).
    { unfold first_col_sum. unfold slice_at at 1 3. cbn [shape].
      rewrite Hs1, Hs2. cbn [drop].
      destruct (Nat.eqb_spec Wp 0) as [|HW]; [reflexivity|].
      f_equal. apply sum_list_map_ext. intros y Hy.
      rewrite !(tget_slice_at _ B Hp Wp) by (assumption || lia).
      apply Hcol; assumption. }
    assert (Hr : first_row_sum (slice_at b pad_mask1)
                 = first_row_sum (slice_at b pad_mask2)).
    { unfold first_row_sum. unfold slice_at at 1 3. cbn [shape].
      rewrite Hs1, Hs2. cbn [drop].
      destruct (Nat.eqb_spec Hp 0) as [|HH]; [reflexivity|].
      f_equal. apply sum_list_map_ext. intros x Hx.
      rewrite !(tget_slice_at _ B Hp Wp) by (assumption || lia).
      apply Hrow; assumption. }
    rewrite Hc, Hr, Hs1, Hs2. reflexivity. }
  assert (Hun : forall t : tensor nat, shape t = [B; Hp; Wp] ->
            unstack t = map (fun b => slice_at b t) (seq 0 B)).
  { intros t Ht. unfold unstack, slice_at. rewrite Ht. reflexivity. }
  rewrite (Hun _ Hs1), (Hun _ Hs2).
  apply (mapM_zip_seq_ext (gt_mask_of_image pad_mask1) (gt_mask_of_image pad_mask2)
           (fun b => slice_at b pad_mask1) (fun b => slice_at b pad_mask2)).
  intros b polygons Hb. apply Himg. lia.
Qed.

End PaddingReads.


(** ** The statements at concrete inputs *)


(** C2 (amended) for [inputs = None]: the heads run, then the assertion fails. *)
Lemma DETRHead_training_requires_ground_truth_witness :
  outcome_of (@DETRHead_forward full_mask_util unit_loss plain_head true
                (fun _ => true) (pixel, pixel, pixel, pixel) [] None)
  = inl AssertionError.
Proof.
  destruct (@DETRHead_training_requires_ground_truth full_mask_util unit_loss
              plain_head (fun _ => true) (pixel, pixel, pixel, pixel) [] None
              (or_introl eq_refl))
    as (_ & _ & Ho).
  exact Ho.
Defined.

(** C4 (amended) for [context_dim = 16]. *)
Lemma MaskHeadFPNConv_init_depths_witness :
  exists m,
    MaskHeadFPNConv_init 2 [1; 1; 1] 16 1 zero_mask_params = Some m
    /\ map stage_out (conv_inter m) = [8; 4; 2; 1].
Proof.
  eexists. split; [reflexivity|].
  exact (proj1 (proj2 (MaskHeadFPNConv_init_depths 2 [1; 1; 1] 16 1 zero_mask_params
                         _ eq_refl))).
Defined.

(** C5 (amended) for a list of two depths: every forward pass fails. *)
Lemma MaskHeadFPNConv_pyramid_length_witness :
  exists m,
    MaskHeadFPNConv_init 3 [1; 1] 16 1 zero_mask_params = Some m
    /\ forall x att fpns, MaskHeadFPNConv_forward m x att fpns = None.
Proof.
  destruct (MaskHeadFPNConv_pyramid_length 3 [1; 1] 16 1 zero_mask_params)
    as (_ & _ & Hshort).
  apply Hshort.
  - simpl. lia.
  - lia.
  - lia.
  - repeat (constructor; [lia|]). constructor.
  - repeat (constructor; [simpl; lia|]). constructor.
Defined.

(** C7 for a head without and a head with the mask branch; with the branch
    the third component is the reshaped output of the mask head. *)
Lemma DETRHead_inference_output_witness :
  (exists raw logit,
     shape raw = [1; 1; 4] /\ shape logit = [1; 1; 2]
     /\ @DETRHead_forward full_mask_util unit_loss plain_head false (fun _ => true)
          (feats_a, pixel, pixel, pixel) [] None
        = ([EvScoreHead; EvBBoxHead; EvSigmoid],
           inr (OutPred (sigmoid raw) logit None)))
  /\ (exists raw logit seg,
        shape seg = [1; 1; 1; 1]
        /\ mask_logits masked_head wide_feats wide_map wide_map unit_mask
             [pixel; pixel; pixel; pixel] (Some seg)
        /\ @DETRHead_forward full_mask_util unit_loss masked_head false (fun _ => true)
             (wide_feats, wide_map, wide_map, unit_mask)
             [pixel; pixel; pixel; pixel] None
           = ([EvScoreHead; EvBBoxHead; EvSigmoid; EvAttention; EvMaskHead],
              inr (OutPred (sigmoid raw) logit (Some seg)))).
Proof.
  split.
  - destruct (@DETRHead_inference_output full_mask_util unit_loss plain_head
                (fun _ => true) feats_a pixel pixel pixel [] None 1 [1; 1; 1]
                eq_refl ltac:(discriminate))
      as (_ & Hret & _).
    apply (Hret 1 1 1 1%Z [] false zero_head_params 1 1 eq_refl ltac:(lia)
             eq_refl eq_refl).
  - destruct (@DETRHead_inference_output full_mask_util unit_loss masked_head
                (fun _ => true) wide_feats wide_map wide_map unit_mask
                [pixel; pixel; pixel; pixel] None 0 [1; 1; 128]
                eq_refl ltac:(discriminate))
      as (_ & _ & Hret).
    destruct (Hret 1 128 8 1%Z 1 1 1 false zero_head_params pixel pixel pixel pixel
                1 1 1 1 1 1 1 1 1 1 eq_refl ltac:(lia) eq_refl eq_refl)
      as (raw & logit & seg & _ & _ & Hseg & Hlogits & Hrun);
      try reflexivity; try lia.
    + repeat (constructor; [reflexivity|]). constructor.
    + repeat (constructor; [lia|]). constructor.
    + exists raw, logit, seg.
      split; [exact Hseg|]. split; [exact Hlogits|exact Hrun].
Defined.


(** C8 for a three-layer perceptron from width 2 to width 4. *)
Lemma MLP_layers_shape_and_activations_witness :
  exists y,
    MLP_forward (MLP_init 2 3 4 3 zero_mlp) (Tensor [1; 2] [1%R; 2%R]) = Some y
    /\ shape y = [1; 4].
Proof.
  destruct (MLP_layers_shape_and_activations 2 3 4 3 zero_mlp
              (Tensor [1; 2] [1%R; 2%R]) [1] ltac:(lia) eq_refl eq_refl)
    as (_ & _ & (tr & y & _ & Hy & _ & _ & Hs & _) & _).
  exists y. split; [exact Hy|exact Hs].
Defined.

(** C9 (amended) for one image with one object on a 2 x 3 canvas whose
    valid region is 1 x 2: the raster fills the region and the rest of the
    canvas is zero. *)
Lemma get_gt_mask_from_polygons_pasted_witness :
  exists masks_pad,
    @get_gt_mask_from_polygons full_mask_util one_object one_padding
    = Some [masks_pad]
    /\ shape masks_pad = [1; 2; 3]
    /\ tget masks_pad [0; 0; 0] = 1%R /\ tget masks_pad [0; 0; 1] = 1%R
    /\ tget masks_pad [0; 0; 2] = 0%R /\ tget masks_pad [0; 1; 0] = 0%R.
Proof.
  destruct (@get_gt_mask_from_polygons_pasted full_mask_util one_object one_padding
              1 2 3 eq_refl eq_refl ltac:(lia) ltac:(lia))
    as (out & Hout & Hlen & Hpaste).
  - repeat (constructor; [simpl; lia|]). constructor.
  - intros [|i] polygons Hpoly Hi; [|lia]. inversion Hpoly; subst polygons.
    split; [discriminate|].
    intros obj height width _ _ _. eexists. split; [reflexivity|].
    split; [reflexivity|].
    unfold wf, tmap. cbn [shape data].
    rewrite length_map, length_replicate. simpl. lia.
  - destruct (Hpaste 0 _ eq_refl ltac:(lia)) as (m & Hm & _ & _ & Hshape & _ & Hval).
    destruct out as [|m0 [|m1 out]]; try discriminate Hlen.
    inversion Hm; subst m0.
    exists m. split; [exact Hout|]. split; [exact Hshape|].
    destruct (Hval 0 _ 0 0 eq_refl ltac:(lia) ltac:(lia)) as (r00 & Hr00 & H00).
    destruct (Hval 0 _ 0 1 eq_refl ltac:(lia) ltac:(lia)) as (r01 & Hr01 & H01).
    destruct (Hval 0 _ 0 2 eq_refl ltac:(lia) ltac:(lia)) as (r02 & Hr02 & H02).
    destruct (Hval 0 _ 1 0 eq_refl ltac:(lia) ltac:(lia)) as (r10 & Hr10 & H10).
    inversion Hr00; subst r00. inversion Hr01; subst r01.
    split; [exact H00|]. split; [exact H01|]. split; [exact H02|exact H10].
Defined.

(** C10 for two query-feature tensors that differ in the first layer only. *)
Lemma DETRHead_inference_depends_on_last_layer_witness :
  @DETRHead_forward full_mask_util unit_loss plain_head false (fun _ => true)
    (feats_a, pixel, pixel, pixel) [] None
  = @DETRHead_forward full_mask_util unit_loss plain_head false (fun _ => true)
      (feats_b, pixel, pixel, pixel) [] None.
Proof.
  exact (@DETRHead_inference_depends_on_last_layer full_mask_util unit_loss
           plain_head (fun _ => true) (fun _ => true) feats_a feats_b pixel pixel pixel
           [] None None 1 1 [1; 1; 1] eq_refl eq_refl ltac:(discriminate) eq_refl).
Defined.

(** ** The further properties at concrete inputs *)

(** X1 for [num_layers = 0]. *)
Lemma MLP_without_hidden_layers_witness :
  length (layers (MLP_init 2 3 4 0 zero_mlp)) = 1
  /\ MLP_forward (MLP_init 2 3 4 0 zero_mlp) (Tensor [1; 2] [1%R; 2%R])
     = MLP_forward (MLP_init 2 3 4 1 zero_mlp) (Tensor [1; 2] [1%R; 2%R]).
Proof.
  destruct (MLP_without_hidden_layers 2 3 4 0 zero_mlp (Tensor [1; 2] [1%R; 2%R])
              ltac:(lia)) as [Hl0 Hf0].
  destruct (MLP_without_hidden_layers 2 3 4 1 zero_mlp (Tensor [1; 2] [1%R; 2%R])
              ltac:(lia)) as [_ Hf1].
  split.
  - rewrite Hl0. reflexivity.
  - rewrite Hf0, Hf1. reflexivity.
Defined.

(** X3 for two query-feature tensors that agree at position 1. *)
Lemma DETRHead_predictions_per_position_witness :
  exists bbox1 logit1 bbox2 logit2 nb,
    outcome_of (DETRHead_predict plain_head false (fun _ => true)
                  (feats_a, pixel, pixel, pixel) []) = inr (bbox1, logit1, None)
    /\ outcome_of (DETRHead_predict plain_head false (fun _ => true)
                     (feats_b, pixel, pixel, pixel) []) = inr (bbox2, logit2, None)
    /\ chunk 1 nb (data bbox1) = chunk 1 nb (data bbox2).
Proof.
  do 4 eexists.
  destruct (DETRHead_predictions_per_position plain_head false false
              (fun _ => true) (fun _ => true)
              feats_a feats_b pixel pixel pixel pixel pixel pixel [] []
              [2; 1; 1] [2; 1; 1] 1 1 1 _ _ _ _ None None
              eq_refl eq_refl ltac:(simpl; lia) ltac:(simpl; lia) eq_refl
              eq_refl eq_refl)
    as (nb & nc & _ & _ & Hb & _).
  exists nb. split; [reflexivity|]. split; [reflexivity|exact Hb].
Defined.

(** X4 for three channels and two heads. *)
Lemma MultiHeadAttentionMap_heads_must_divide_witness :
  exists m,
    MultiHeadAttentionMap_init 1 3 2 0 true zero_linear zero_conv = Some m
    /\ MultiHeadAttentionMap_forward m false (fun _ => true)
         (Tensor [1; 1; 1] [1%R]) pixel None = None.
Proof.
  eexists. split; [reflexivity|].
  apply (MultiHeadAttentionMap_heads_must_divide 1 3 2 0 true zero_linear zero_conv
           _ 1 1 false (fun _ => true) (Tensor [1; 1; 1] [1%R]) pixel None eq_refl);
    [discriminate|lia|lia|reflexivity].
Defined.

(** X5 for one query image and two key images. *)
Lemma MultiHeadAttentionMap_batches_must_agree_witness :
  exists m,
    MultiHeadAttentionMap_init 1 2 2 0 true zero_linear zero_conv = Some m
    /\ MultiHeadAttentionMap_forward m false (fun _ => true)
         (Tensor [1; 1; 1] [1%R]) two_keys None = None.
Proof.
  eexists. split; [reflexivity|].
  apply (MultiHeadAttentionMap_batches_must_agree 1 2 2 0 true zero_linear zero_conv
           _ 1 2 1 1 1 false (fun _ => true) (Tensor [1; 1; 1] [1%R]) two_keys None
           eq_refl); try lia; reflexivity.
Defined.

(** X6 for three pyramid depths. *)
Lemma MaskHeadFPNConv_adapters_match_stages_witness :
  exists m,
    MaskHeadFPNConv_init 2 [1; 1; 1] 16 1 zero_mask_params = Some m
    /\ length (adapter m) = 3.
Proof.
  eexists. split; [reflexivity|].
  exact (proj1 (MaskHeadFPNConv_adapters_match_stages 2 [1; 1; 1] 16 1
                  zero_mask_params _ eq_refl)).
Defined.

(** X7 for one image and one query. *)
Lemma MaskHeadFPNConv_fuse_single_image_or_query_witness :
  exists y,
    MaskHeadFPNConv_fuse pixel pixel_attention = Some y
    /\ shape y = [1; 2; 1; 1].
Proof.
  destruct (MaskHeadFPNConv_fuse_single_image_or_query pixel pixel_attention
              1 1 1 1 1 1 eq_refl eq_refl (or_introl eq_refl))
    as (y & Hy & Hs & _).
  exists y. split; [exact Hy|exact Hs].
Defined.

(** X8 for a projected memory of shape [1, 1, 2]. *)
Lemma MaskHeadFPNConv_forward_flat_memory_witness :
  exists m,
    MaskHeadFPNConv_init 2 [1; 1; 1] 16 1 zero_mask_params = Some m
    /\ MaskHeadFPNConv_forward m flat_memory pixel_attention [pixel; pixel; pixel]
       = None.
Proof.
  eexists. split; [reflexivity|].
  apply (MaskHeadFPNConv_forward_flat_memory _ flat_memory pixel_attention
           [pixel; pixel; pixel] 1 1 2 1 1 1 eq_refl eq_refl); lia.
Defined.

(** X9: a fifth level in front and another last level change nothing. *)
Lemma DETRHead_reads_three_pyramid_levels_witness :
  @DETRHead_forward full_mask_util unit_loss masked_head false (fun _ => true)
    (wide_feats, wide_map, wide_map, unit_mask)
    [wide_map; pixel; pixel; pixel; pixel] None
  = @DETRHead_forward full_mask_util unit_loss masked_head false (fun _ => true)
      (wide_feats, wide_map, wide_map, unit_mask)
      [pixel; pixel; pixel; wide_map] None.
Proof.
  exact (@DETRHead_reads_three_pyramid_levels full_mask_util unit_loss
           1 128 8 1%Z [1; 1; 1] true false zero_head_params masked_head false
           (fun _ => true) (wide_feats, wide_map, wide_map, unit_mask)
           [wide_map; pixel; pixel; pixel; pixel] [pixel; pixel; pixel; wide_map]
           None eq_refl eq_refl).
Defined.

(** X10 for three backbone levels. *)
Lemma DETRHead_mask_branch_needs_four_levels_witness :
  outcome_of (@DETRHead_forward full_mask_util unit_loss masked_head false
                (fun _ => true) (wide_feats, wide_map, wide_map, unit_mask)
                [pixel; pixel; pixel] None)
  = inl CallError.
Proof.
  exact (proj1 (@DETRHead_mask_branch_needs_four_levels full_mask_util unit_loss
                  1 128 8 1%Z [1; 1; 1] false zero_head_params masked_head false
                  (fun _ => true) (wide_feats, wide_map, wide_map, unit_mask)
                  [pixel; pixel; pixel] None eq_refl ltac:(lia) ltac:(simpl; lia))).
Defined.

(** X11 for one decoder layer, one image and one query. *)
Lemma DETRHead_training_returns_loss_witness :
  @DETRHead_forward full_mask_util unit_loss plain_head true (fun _ => true)
    (pixel, pixel, pixel, pixel) [] (Some boxes_and_classes)
  = ([EvScoreHead; EvBBoxHead; EvSigmoid; EvLoss], inr (OutLoss tt)).
Proof.
  destruct (@DETRHead_training_returns_loss full_mask_util unit_loss
              1 1 1 1%Z [] false zero_head_params plain_head (fun _ => true)
              pixel pixel pixel pixel [] boxes_and_classes
              (VTensors [pixel]) (VTensors [pixel]) 1 1 1
              eq_refl eq_refl eq_refl eq_refl eq_refl eq_refl)
    as (raw & logit & _ & _ & _ & _ & Hrun).
  rewrite Hrun. reflexivity.
Defined.

(** X12 for polygons without a padding mask. *)
Lemma DETRHead_training_needs_pad_mask_witness :
  outcome_of (@DETRHead_forward full_mask_util unit_loss plain_head true
                (fun _ => true) (pixel, pixel, pixel, pixel) []
                (Some polygons_only))
  = inl (KeyError "pad_mask").
Proof.
  rewrite (@DETRHead_training_needs_pad_mask full_mask_util unit_loss plain_head
             (fun _ => true) (pixel, pixel, pixel, pixel) [] polygons_only
             _ _ None eq_refl
             ltac:(eexists; reflexivity) ltac:(eexists; reflexivity)
             ltac:(eexists; reflexivity) eq_refl).
  reflexivity.
Defined.

(** X13 for one image with one object. *)
Lemma DETRHead_training_with_polygons_witness :
  exists bbox logit,
    outcome_of (DETRHead_predict plain_head true (fun _ => true)
                  (pixel, pixel, pixel, pixel) []) = inr (bbox, logit, None)
    /\ @DETRHead_forward full_mask_util unit_loss plain_head true (fun _ => true)
         (pixel, pixel, pixel, pixel) [] (Some polygons_and_padding)
       = match @get_gt_mask_from_polygons full_mask_util one_object one_padding with
         | None => ([EvScoreHead; EvBBoxHead; EvSigmoid; EvRasterize], inl CallError)
         | Some gt_mask =>
             ([EvScoreHead; EvBBoxHead; EvSigmoid; EvRasterize; EvLoss],
              inr (OutLoss tt))
         end.
Proof.
  do 2 eexists. split; [reflexivity|].
  rewrite (@DETRHead_training_with_polygons full_mask_util unit_loss plain_head
             (fun _ => true) (pixel, pixel, pixel, pixel) [] polygons_and_padding
             (VTensors [pixel]) (VTensors [pixel]) one_object one_padding
             _ _ None eq_refl eq_refl eq_refl eq_refl eq_refl).
  destruct (@get_gt_mask_from_polygons full_mask_util one_object one_padding);
    reflexivity.
Defined.

(** X15 for a 1 x 2 block on a 2 x 3 canvas. *)
Lemma block_padding_height_width_witness :
  first_col_sum (block_padding 2 3 1 2) = Some 1
  /\ first_row_sum (block_padding 2 3 1 2) = Some 2.
Proof.
  exact (block_padding_height_width 2 3 1 2 ltac:(lia) ltac:(lia) ltac:(lia)
           ltac:(lia)).
Defined.

(** X16 for two images, the second one without objects. *)
Lemma get_gt_mask_from_polygons_needs_objects_witness :
  @get_gt_mask_from_polygons full_mask_util second_image_empty two_paddings = None.
Proof.
  exact (@get_gt_mask_from_polygons_needs_objects full_mask_util
           second_image_empty two_paddings 2 [1; 1] 1 eq_refl eq_refl ltac:(lia)).
Defined.

(** X17 for two padding masks that differ at row 1, column 1. *)
Lemma get_gt_mask_from_polygons_reads_margins_witness :
  @get_gt_mask_from_polygons full_mask_util one_object one_padding
  = @get_gt_mask_from_polygons full_mask_util one_object one_padding_speck.
Proof.
  apply (@get_gt_mask_from_polygons_reads_margins full_mask_util one_object
           one_padding one_padding_speck 1 2 3 eq_refl eq_refl eq_refl eq_refl).
  - intros [|b] [|[|y]] Hb Hy; try lia; reflexivity.
  - intros [|b] [|[|[|x]]] Hb Hx; try lia; reflexivity.
Defined.
